(** * N3xx peripheral manager: clock/time synchronisation and endpoint pool

    A shallow embedding of the control-plane methods of the class [n3xx]
    (mpm/python/usrp_mpm/periph_manager/n3xx.py): [set_sync_source],
    [set_clock_source], [set_time_source], [set_ref_clock_freq],
    [get_ref_clock_freq], [request_xport], [commit_xport] and
    [_init_ref_clock_and_time].

    The object fields the methods read and write are a record; a method is
    a state transformer that either returns a value or raises, and in both
    cases hands back the object as the method left it (a Python exception
    does not undo the assignments made before it).  Every call on a
    collaborator (GPIO expander, motherboard registers, White Rabbit core,
    daughterboards), every [time.sleep] and every assignment to one of the
    two source fields is appended, in program order, to [effect_log].

    Source names and the values of [args] are Python values ([None] or a
    string), as the assertions of the source test them.  Frequencies are
    integers in Hz (10e6 is 10000000): the source only compares them.
    Calls on the GPIO expander and on the register blocks return; a
    daughterboard call may raise, and so may a transport backend.  Log
    calls are left out, except for the arguments they evaluate.

    Besides the clock and transport API the file embeds, of the same
    class, the session boundary ([init], [deinit]), the lock sensors
    ([get_ref_lock_sensor], [get_gps_lock_sensor]), the status monitor
    thread and its shutdown ([_monitor_status], [tear_down]), the
    daughterboard EEPROM methods ([get_db_eeprom], [set_db_eeprom]) and
    the product lookup ([generate_device_info],
    [list_required_dt_overlays]); the register
    methods of [MboardRegsControl] of e320_periphs.py that work on
    integers, in the module [e320_periphs]; and the generator [window] of
    tools/gr-usrptest/apps/uhd_phase_alignment.py. *)

From Stdlib Require Import ZArith Lia.
From stdpp Require Import base gmap strings list sorting.

Local Open Scope Z_scope.
Local Open Scope string_scope.
Local Open Scope list_scope.

(** ** Values, exceptions, events *)

(** The Python values that reach the source fields and the [args]
    dictionary: [None] or a string. *)
Inductive pyval :=
| PNone
| PStr (s : string).

#[global] Instance pyval_eq_dec : EqDecision pyval.
Proof. solve_decision. Defined.

Inductive exn :=
| AssertionError
| RuntimeError (msg : string)
| ValueError
| TypeError
| KeyError
| DboardError.

(** The RuntimeErrors the methods raise, by their message (the format
    placeholders are left as in the source). *)
Definition sfp0_clock_error : exn :=
  RuntimeError "Time source {} requires `internal` clock source!".

Definition sfp0_image_error : exn :=
  RuntimeError "{} time source requires FPGA types {}".

Definition sfp0_lock_error : exn :=
  RuntimeError "Failed to lock SFP timebase.".

Definition depleted_error : exn :=
  RuntimeError "Depleted pool of SID endpoints for this device!".

Definition unsupported_freq_error : exn :=
  RuntimeError "{} is not a supported external reference clock frequency!".

Definition freq_time_source_error : exn :=
  RuntimeError
    "Setting the external reference clock to {} MHz is only allowed when using 'external' time_source.".

Inductive result (A : Type) :=
| Ok (a : A)
| Raise (e : exn).
Arguments Ok {A} a.
Arguments Raise {A} e.

(** One entry of the effect log. *)
Inductive event :=
| DbSetClkSafeState (slot : nat)
| RegEnableRefClk (enable : bool)
| GpioSet (name : string)
| GpioReset (name : string)
| StoreClockSource (v : pyval)
| StoreTimeSource (v : pyval)
| Sleep (ms : Z)
| RegSetTimeSource (time_source : pyval) (ref_clk_freq : option Z)
| WrRegsOpen
| WrGetTimeLockStatus (locked : bool)
| DbUpdateRefClockFreq (slot : nat) (ref_clk_freq : Z)
    (time_source clock_source skip_rfic : pyval).

#[global] Instance event_eq_dec : EqDecision event.
Proof. solve_decision. Defined.

(** ** The device *)

(** A daughterboard handle.  [db_set_clk_safe_state] is [None] when the
    board has no such attribute ([hasattr] is false), and otherwise tells
    whether the call returns; [db_update_ref_clock_freq] tells whether
    [update_ref_clock_freq] returns for the given arguments. *)
Record dboard := {
  db_set_clk_safe_state : option bool;
  db_update_ref_clock_freq : Z → pyval → pyval → pyval → bool;
}.

(** What the methods only read: the daughterboard list, the connection
    mode in [device_info], and the lock status the White Rabbit core
    answers at its n-th read. *)
Record board := {
  dboards : list dboard;
  rpc_connection : string;
  wr_time_lock_status : nat → bool;
}.

(** The fields of the [n3xx] object that the methods assign. *)
Record n3xx := {
  _ext_clock_freq : option Z;
  _clock_source : pyval;
  _time_source : pyval;
  _available_endpoints : list Z;
  fpga_type : string;
  wr_reads : nat;
  effect_log : list event;
}.

(** Field updates ([s.f = v]) and the effect log. *)
Definition with_clock_source (v : pyval) (s : n3xx) : n3xx :=
  {| _ext_clock_freq := _ext_clock_freq s; _clock_source := v;
     _time_source := _time_source s;
     _available_endpoints := _available_endpoints s;
     fpga_type := fpga_type s; wr_reads := wr_reads s; effect_log := effect_log s |}.

Definition with_time_source (v : pyval) (s : n3xx) : n3xx :=
  {| _ext_clock_freq := _ext_clock_freq s; _clock_source := _clock_source s;
     _time_source := v;
     _available_endpoints := _available_endpoints s;
     fpga_type := fpga_type s; wr_reads := wr_reads s; effect_log := effect_log s |}.

Definition with_ext_clock_freq (f : option Z) (s : n3xx) : n3xx :=
  {| _ext_clock_freq := f; _clock_source := _clock_source s;
     _time_source := _time_source s;
     _available_endpoints := _available_endpoints s;
     fpga_type := fpga_type s; wr_reads := wr_reads s; effect_log := effect_log s |}.

Definition with_available_endpoints (l : list Z) (s : n3xx) : n3xx :=
  {| _ext_clock_freq := _ext_clock_freq s; _clock_source := _clock_source s;
     _time_source := _time_source s;
     _available_endpoints := l;
     fpga_type := fpga_type s; wr_reads := wr_reads s; effect_log := effect_log s |}.

Definition with_wr_reads (n : nat) (s : n3xx) : n3xx :=
  {| _ext_clock_freq := _ext_clock_freq s; _clock_source := _clock_source s;
     _time_source := _time_source s;
     _available_endpoints := _available_endpoints s;
     fpga_type := fpga_type s; wr_reads := n; effect_log := effect_log s |}.

Definition add_log (evs : list event) (s : n3xx) : n3xx :=
  {| _ext_clock_freq := _ext_clock_freq s; _clock_source := _clock_source s;
     _time_source := _time_source s;
     _available_endpoints := _available_endpoints s;
     fpga_type := fpga_type s; wr_reads := wr_reads s;
     effect_log := effect_log s ++ evs |}.

(** [self._clock_source = v] and [self._time_source = v], logged. *)
Definition store_clock_source (v : pyval) (s : n3xx) : n3xx :=
  add_log [StoreClockSource v] (with_clock_source v s).

Definition store_time_source (v : pyval) (s : n3xx) : n3xx :=
  add_log [StoreTimeSource v] (with_time_source v s).

(** ** Methods as state transformers that may raise *)

Definition M (A : Type) : Type := n3xx → result A * n3xx.

#[global] Instance M_ret : MRet M := λ A a s, (Ok a, s).
#[global] Instance M_bind : MBind M := λ A B f m s,
  match m s with
  | (Ok a, s') => f a s'
  | (Raise e, s') => (Raise e, s')
  end.

Definition raise {A} (e : exn) : M A := λ s, (Raise e, s).
Definition gets {A} (f : n3xx → A) : M A := λ s, (Ok (f s), s).
Definition modify (f : n3xx → n3xx) : M unit := λ s, (Ok tt, f s).
Definition emit (e : event) : M unit := modify (add_log [e]).

(** [assert c]. *)
Definition assert (c : bool) : M unit :=
  if c then mret tt else raise AssertionError.

(** [for i, x in enumerate(l): body(i, x)], counting from [i]. *)
Fixpoint for_enumerate {A} (body : nat → A → M unit) (i : nat) (l : list A)
  : M unit :=
  match l with
  | [] => mret tt
  | x :: l' => body i x ;; for_enumerate body (S i) l'
  end.

(** ** Clock/Time API *)

(** [valid_sync_sources]: all valid (clock_source, time_source) pairs. *)
Definition valid_sync_sources : list (pyval * pyval) :=
  [ (PStr "internal", PStr "internal");
    (PStr "internal", PStr "sfp0");
    (PStr "external", PStr "external");
    (PStr "external", PStr "internal");
    (PStr "gpsdo", PStr "gpsdo") ].

Definition get_clock_sources : list pyval :=
  [PStr "external"; PStr "internal"; PStr "gpsdo"].

Definition get_time_sources : list pyval :=
  [PStr "internal"; PStr "external"; PStr "gpsdo"; PStr "sfp0"].

Definition get_clock_source : M pyval := gets _clock_source.
Definition get_time_source : M pyval := gets _time_source.

(** The dictionary that [get_ref_clock_freq] builds, looked up at [key].
    Frequencies are in Hz; [None] is Python's [None], and a missing key
    raises. *)
Definition ref_clock_freq_table (ext_clock_freq : option Z) (key : pyval)
  : result (option Z) :=
  if decide (key = PStr "internal") then Ok (Some 25000000)
  else if decide (key = PStr "external") then Ok ext_clock_freq
  else if decide (key = PStr "gpsdo") then Ok (Some 20000000)
  else Raise KeyError.

Definition get_ref_clock_freq : M (option Z) := λ s,
  (ref_clock_freq_table (_ext_clock_freq s) (_clock_source s), s).

(** [freq/1e6], which raises on [None]. *)
Definition div_1e6 (freq : option Z) : M Z :=
  match freq with
  | Some f => mret f
  | None => raise TypeError
  end.

(** Modelled from the spec: [poll_with_timeout] (usrp_mpm.mpmutils) is not
    among the sources.  The spec has it poll the status every
    [interval_ms] until it is true or [timeout_ms] has elapsed; here the
    time that elapses is the time slept, so the status is read at
    0, interval_ms, 2*interval_ms, ... while that is below timeout_ms. *)
Fixpoint poll_loop (state_check : M bool) (interval_ms : Z) (polls : nat)
  : M bool :=
  match polls with
  | O => mret false
  | S n =>
      ok ← state_check;
      if ok : bool then mret true
      else emit (Sleep interval_ms) ;; poll_loop state_check interval_ms n
  end.

Definition poll_with_timeout (state_check : M bool) (timeout_ms interval_ms : Z)
  : M bool :=
  poll_loop state_check interval_ms
    (Z.to_nat ((timeout_ms + interval_ms - 1) / interval_ms)).

(** [wr_regs_control.get_time_lock_status()]: one read of the lock-status
    register of the White Rabbit core. *)
Definition get_time_lock_status (b : board) : M bool := λ s,
  let locked := wr_time_lock_status b (wr_reads s) in
  (Ok locked,
   add_log [WrGetTimeLockStatus locked] (with_wr_reads (S (wr_reads s)) s)).

Definition sfp_time_source_images : list string := ["WX"].

(** The three branches that throw the external switches. *)
Definition set_mainsel (clock_source : pyval) : M unit :=
  if decide (clock_source = PStr "internal") then
    emit (GpioSet "CLK-MAINSEL-EX_B") ;;
    emit (GpioSet "CLK-MAINSEL-25MHz") ;;
    emit (GpioReset "CLK-MAINSEL-GPS")
  else if decide (clock_source = PStr "gpsdo") then
    emit (GpioSet "CLK-MAINSEL-EX_B") ;;
    emit (GpioReset "CLK-MAINSEL-25MHz") ;;
    emit (GpioSet "CLK-MAINSEL-GPS")
  else
    emit (GpioReset "CLK-MAINSEL-EX_B") ;;
    emit (GpioReset "CLK-MAINSEL-GPS") ;;
    emit (GpioSet "CLK-MAINSEL-25MHz").

(** The body of [if time_source == 'sfp0':]. *)
Definition sfp0_checks (b : board) (time_source : pyval) : M unit :=
  cs ← get_clock_source;
  (if bool_decide (time_source ∈ [PStr "sfp0"; PStr "sfp1"])
      && bool_decide (cs ≠ PStr "internal")
   then raise sfp0_clock_error
   else mret tt) ;;
  ty ← gets fpga_type;
  (if bool_decide (ty ∉ sfp_time_source_images)
   then raise sfp0_image_error
   else mret tt) ;;
  emit WrRegsOpen ;;
  locked ← poll_with_timeout (get_time_lock_status b) 40000 1000;
  if locked : bool then mret tt
  else get_time_lock_status b ;; raise sfp0_lock_error.

Definition safe_state_body (slot : nat) (db : dboard) : M unit :=
  match db_set_clk_safe_state db with
  | None => mret tt
  | Some returns =>
      emit (DbSetClkSafeState slot) ;;
      if returns then mret tt else raise DboardError
  end.

Definition update_body (ref_clk_freq : option Z)
    (time_source clock_source skip_rfic : pyval) (slot : nat) (db : dboard)
  : M unit :=
  f ← div_1e6 ref_clk_freq;
  emit (DbUpdateRefClockFreq slot f time_source clock_source skip_rfic) ;;
  if db_update_ref_clock_freq db f time_source clock_source skip_rfic
  then mret tt else raise DboardError.

(** The statements of [set_sync_source] after its last assertion. *)
Definition apply_sync_source (b : board) (clock_source time_source : pyval)
    (skip_rfic : pyval) : M unit :=
  for_enumerate safe_state_body 0%nat (dboards b) ;;
  emit (RegEnableRefClk false) ;;
  set_mainsel clock_source ;;
  modify (store_clock_source clock_source) ;;
  f ← get_ref_clock_freq; div_1e6 f ;;
  emit (Sleep 100) ;;
  emit (RegEnableRefClk true) ;;
  modify (store_time_source time_source) ;;
  ref_clk_freq ← get_ref_clock_freq;
  emit (RegSetTimeSource time_source ref_clk_freq) ;;
  (if decide (time_source = PStr "sfp0") then sfp0_checks b time_source
   else mret tt) ;;
  for_enumerate (update_body ref_clk_freq time_source clock_source skip_rfic)
    0%nat (dboards b).

Definition set_sync_source (b : board) (args : gmap string pyval) : M unit :=
  cur_clock ← gets _clock_source;
  let clock_source := default cur_clock (args !! "clock_source") in
  assert (bool_decide (clock_source ∈ get_clock_sources)) ;;
  cur_time ← gets _time_source;
  let time_source := default cur_time (args !! "time_source") in
  assert (bool_decide (time_source ∈ get_time_sources)) ;;
  if bool_decide (clock_source = cur_clock) && bool_decide (time_source = cur_time)
  then mret tt
  else
    assert (bool_decide ((clock_source, time_source) ∈ valid_sync_sources)) ;;
    apply_sync_source b clock_source time_source
      (default PNone (args !! "skip_rfic")).

(** The companion source [set_clock_source] hands on with [clock_source]. *)
Definition clock_companion (clock_source time_source : pyval) : pyval :=
  if bool_decide ((clock_source, time_source) ∉ valid_sync_sources) then
    if decide (clock_source = PStr "internal") then PStr "internal"
    else if decide (clock_source = PStr "external") then PStr "external"
    else if decide (clock_source = PStr "gpsdo") then PStr "gpsdo"
    else time_source
  else time_source.

(** The dictionary [source] of [set_clock_source]. *)
Definition clock_source_request (clock_source time_source : pyval)
  : gmap string pyval :=
  {[ "clock_source" := clock_source;
     "time_source" := clock_companion clock_source time_source ]}.

Definition set_clock_source (b : board) (clock_source : pyval) : M unit :=
  time_source ← gets _time_source;
  assert (bool_decide (clock_source ≠ PNone)) ;;
  assert (bool_decide (time_source ≠ PNone)) ;;
  set_sync_source b (clock_source_request clock_source time_source).

(** The companion source [set_time_source] hands on with [time_source]. *)
Definition time_companion (clock_source time_source : pyval) : pyval :=
  if bool_decide ((clock_source, time_source) ∉ valid_sync_sources) then
    if decide (time_source = PStr "sfp0") then PStr "internal"
    else if decide (time_source = PStr "internal") then PStr "internal"
    else if decide (time_source = PStr "external") then PStr "external"
    else if decide (time_source = PStr "gpsdo") then PStr "gpsdo"
    else clock_source
  else clock_source.

(** The dictionary [source] of [set_time_source]. *)
Definition time_source_request (clock_source time_source : pyval)
  : gmap string pyval :=
  {[ "time_source" := time_source;
     "clock_source" := time_companion clock_source time_source ]}.

Definition set_time_source (b : board) (time_source : pyval) : M unit :=
  clock_source ← gets _clock_source;
  assert (bool_decide (clock_source ≠ PNone)) ;;
  assert (bool_decide (time_source ≠ PNone)) ;;
  set_sync_source b (time_source_request clock_source time_source).

Definition set_ref_clock_freq (b : board) (freq : Z) : M unit :=
  if bool_decide (freq ∉ [10000000; 20000000; 25000000]) then
    raise unsupported_freq_error
  else
    cur ← gets _ext_clock_freq;
    if bool_decide (cur = Some freq) then mret tt
    else
      ts ← get_time_source;
      if bool_decide (freq = 20000000) && bool_decide (ts ≠ PStr "external")
      then raise freq_time_source_error
      else
        modify (with_ext_clock_freq (Some freq)) ;;
        cs ← get_clock_source;
        if bool_decide (cs = PStr "external") then
          ts' ← get_time_source; set_time_source b ts'
        else mret tt.

(** ** Transport API *)

(** The part of an [xport_info] dictionary that [commit_xport] reads. *)
Record xport_info := {
  send_sid : Z;
}.

(** Modelled from the spec: the class [SID] (usrp_mpm.mpmtypes) is not among
    the sources.  An endpoint address is one byte (spec, glossary);
    [request_xport] builds the SID as [src_address << 16 | dst_address], and
    [src_ep] reads that byte back. *)
Definition src_ep (sid : Z) : Z := Z.land (Z.shiftr sid 16) 255.

(** A transport backend ([XportMgrUDP], [XportMgrLiberio]; neither is among
    the sources): what its [request_xport] and [commit_xport] answer. *)
Record xport_mgr := {
  mgr_request_xport : Z → pyval → result (list xport_info);
  mgr_commit_xport : Z → xport_info → result xport_info;
}.

Record xport_mgrs := {
  udp : xport_mgr;
  liberio : xport_mgr;
}.

Definition lift_result {A} (r : result A) : M (option A) :=
  match r with
  | Ok a => mret (Some a)
  | Raise e => raise e
  end.

(** [list(range(256))]. *)
Definition full_pool : list Z := Z.of_nat <$> seq 0 256.

(** The source address [request_xport] settles on. *)
Definition pick_src_address (suggested_src_address : Z) : M Z :=
  avail ← gets _available_endpoints;
  if bool_decide (suggested_src_address ∉ avail) then
    match avail with
    | [] => raise depleted_error
    | first :: _ => mret first
    end
  else mret suggested_src_address.

(** A method that falls off its end returns [None]. *)
Definition request_xport (b : board) (x : xport_mgrs)
    (dst_address suggested_src_address : Z) (xport_type : pyval)
  : M (option (list xport_info)) :=
  src_address ← pick_src_address suggested_src_address;
  let sid := Z.lor (Z.shiftl src_address 16) dst_address in
  assert (bool_decide (rpc_connection b ∈ ["remote"; "local"])) ;;
  if decide (rpc_connection b = "remote") then
    lift_result (mgr_request_xport (udp x) sid xport_type)
  else if decide (rpc_connection b = "local") then
    lift_result (mgr_request_xport (liberio x) sid xport_type)
  else mret None.

(** [l.remove(v)]: the list without the first item equal to [v], or
    [None] where Python raises ValueError because there is no such item. *)
Fixpoint list_remove (v : Z) (l : list Z) : option (list Z) :=
  match l with
  | [] => None
  | y :: l' => if decide (y = v) then Some l' else (y ::.) <$> list_remove v l'
  end.

(** [self._available_endpoints.remove(v)]. *)
Definition available_endpoints_remove (v : Z) : M unit :=
  avail ← gets _available_endpoints;
  match list_remove v avail with
  | Some avail' => modify (with_available_endpoints avail')
  | None => raise ValueError
  end.

Definition commit_xport (b : board) (x : xport_mgrs) (info : xport_info)
  : M (option xport_info) :=
  assert (bool_decide (rpc_connection b ∈ ["remote"; "local"])) ;;
  let sid := send_sid info in
  available_endpoints_remove (src_ep sid) ;;
  if decide (rpc_connection b = "remote") then
    lift_result (mgr_commit_xport (udp x) sid info)
  else if decide (rpc_connection b = "local") then
    lift_result (mgr_commit_xport (liberio x) sid info)
  else mret None.

(** ** Construction and session boundary *)

(** The field values [__init__] assigns before any peripheral is touched. *)
Definition n3xx_new (ty : string) : n3xx :=
  {| _ext_clock_freq := None; _clock_source := PNone; _time_source := PNone;
     _available_endpoints := full_pool; fpga_type := ty;
     wr_reads := 0; effect_log := [] |}.

(** The last statement of [deinit]. *)
Definition deinit_reset_pool : M unit :=
  modify (with_available_endpoints full_pool).

(** [_init_ref_clock_and_time]; [ext_clock_freq] is the value of that key
    of [default_args] or the default 10 MHz. *)
Definition N3XX_DEFAULT_EXT_CLOCK_FREQ : Z := 10000000.
Definition N3XX_DEFAULT_CLOCK_SOURCE : pyval := PStr "internal".
Definition N3XX_DEFAULT_TIME_SOURCE : pyval := PStr "internal".

Definition _init_ref_clock_and_time (b : board)
    (ext_clock_freq : option Z) (default_args : gmap string pyval) : M unit :=
  modify (with_ext_clock_freq
            (Some (default N3XX_DEFAULT_EXT_CLOCK_FREQ ext_clock_freq))) ;;
  if bool_decide (length (dboards b) = 0%nat) then
    modify (store_clock_source N3XX_DEFAULT_CLOCK_SOURCE) ;;
    modify (store_time_source N3XX_DEFAULT_TIME_SOURCE)
  else
    set_sync_source b
      {[ "clock_source" :=
           default N3XX_DEFAULT_CLOCK_SOURCE (default_args !! "clock_source");
         "time_source" :=
           default N3XX_DEFAULT_TIME_SOURCE (default_args !! "time_source") ]}.

(** * Vocabulary of the statements *)

(** The pair a call of [set_sync_source] resolves to. *)
Definition resolved_clock_source (args : gmap string pyval) (s : n3xx) : pyval :=
  default (_clock_source s) (args !! "clock_source").

Definition resolved_time_source (args : gmap string pyval) (s : n3xx) : pyval :=
  default (_time_source s) (args !! "time_source").

Definition same_pair (cs ts : pyval) (s : n3xx) : Prop :=
  cs = _clock_source s ∧ ts = _time_source s.

#[global] Instance same_pair_dec cs ts s : Decision (same_pair cs ts s).
Proof. unfold same_pair. apply _. Defined.

(** ** The two daughterboard loops *)

(** The calls of the first loop, when none of them raises. *)
Fixpoint safe_state_calls (i : nat) (l : list dboard) : list event :=
  match l with
  | [] => []
  | db :: l' =>
      match db_set_clk_safe_state db with
      | Some _ => DbSetClkSafeState i :: safe_state_calls (S i) l'
      | None => safe_state_calls (S i) l'
      end
  end.

Definition safe_returns (db : dboard) : Prop :=
  db_set_clk_safe_state db ≠ Some false.

#[global] Instance safe_returns_dec db : Decision (safe_returns db).
Proof. unfold safe_returns. apply _. Defined.

Definition is_safe_state_call (e : event) : Prop :=
  match e with DbSetClkSafeState _ => True | _ => False end.

(** The calls of the second loop, when none of them raises. *)
Fixpoint update_calls (f : Z) (ts cs skip : pyval) (i : nat) (l : list dboard)
  : list event :=
  match l with
  | [] => []
  | _ :: l' => DbUpdateRefClockFreq i f ts cs skip :: update_calls f ts cs skip (S i) l'
  end.

Definition update_returns (f : Z) (ts cs skip : pyval) (db : dboard) : Prop :=
  db_update_ref_clock_freq db f ts cs skip = true.

#[global] Instance update_returns_dec f ts cs skip db :
  Decision (update_returns f ts cs skip db).
Proof. unfold update_returns. apply _. Defined.

(** ** The switches *)

(** The three GPIO writes per clock source, in program order. *)
Definition mainsel_writes (clock_source : pyval) : list event :=
  if decide (clock_source = PStr "internal") then
    [GpioSet "CLK-MAINSEL-EX_B"; GpioSet "CLK-MAINSEL-25MHz";
     GpioReset "CLK-MAINSEL-GPS"]
  else if decide (clock_source = PStr "gpsdo") then
    [GpioSet "CLK-MAINSEL-EX_B"; GpioReset "CLK-MAINSEL-25MHz";
     GpioSet "CLK-MAINSEL-GPS"]
  else
    [GpioReset "CLK-MAINSEL-EX_B"; GpioReset "CLK-MAINSEL-GPS";
     GpioSet "CLK-MAINSEL-25MHz"].

(** The level each line is left at: the three sources select three
    different settings of the switches. *)
Definition line_level (name : string) (writes : list event) : option bool :=
  last (omap (λ e, match e with
                   | GpioSet n => if decide (n = name) then Some true else None
                   | GpioReset n => if decide (n = name) then Some false else None
                   | _ => None
                   end) writes).

Definition mainsel_levels (clock_source : pyval) : list (option bool) :=
  (λ n, line_level n (mainsel_writes clock_source))
    <$> ["CLK-MAINSEL-EX_B"; "CLK-MAINSEL-25MHz"; "CLK-MAINSEL-GPS"].

(** ** The lock poll *)

Fixpoint poll_misses (n : nat) : list event :=
  match n with
  | O => []
  | S n' => WrGetTimeLockStatus false :: Sleep 1000 :: poll_misses n'
  end.

(** The milliseconds slept in a run of events. *)
Definition slept (evs : list event) : Z :=
  foldr (λ e acc, match e with Sleep ms => ms + acc | _ => acc end) 0 evs.

(** ** The apply sequence *)

(** Steps 1 to 6: safe state, disable, switches, record the clock source,
    settle, enable, record the time source, write the time-source
    register. *)
Definition steps_1_to_6 (b : board) (cs ts : pyval) (f : Z) : list event :=
  safe_state_calls 0 (dboards b)
  ++ [RegEnableRefClk false]
  ++ mainsel_writes cs
  ++ [StoreClockSource cs; Sleep 100; RegEnableRefClk true;
      StoreTimeSource ts; RegSetTimeSource ts (Some f)].

Definition after_step_6 (b : board) (cs ts : pyval) (f : Z) (s : n3xx) : n3xx :=
  add_log (steps_1_to_6 b cs ts f) (with_time_source ts (with_clock_source cs s)).

(** Step 7, when it locks at read [k], and nothing for other time sources. *)
Definition sfp0_events (ts : pyval) (k : nat) : list event :=
  if decide (ts = PStr "sfp0")
  then WrRegsOpen :: poll_misses k ++ [WrGetTimeLockStatus true]
  else [].

(** The whole apply sequence: steps 1 to 6, the events [evs7] of step 7 and
    the update of every daughterboard, in this order. *)
Definition apply_order (b : board) (cs ts skip : pyval) (f : Z)
    (evs7 : list event) : list event :=
  steps_1_to_6 b cs ts f ++ evs7 ++ update_calls f ts cs skip 0 (dboards b).

(** The events that step 7 can log. *)
Definition is_timing_core_event (e : event) : Prop :=
  match e with
  | WrRegsOpen | WrGetTimeLockStatus _ => True
  | Sleep ms => ms = 1000
  | _ => False
  end.

(** Step 7 lets the call go on to step 8: nothing to do for a time source
    other than sfp0; for sfp0 the FPGA image has the timing core and the
    first of the 40 reads that shows the lock is read [k]. *)
Definition step_7_passes (b : board) (ts : pyval) (s : n3xx) (k : nat) : Prop :=
  if decide (ts = PStr "sfp0") then
    fpga_type s ∈ sfp_time_source_images
    ∧ (k < 40)%nat
    ∧ wr_time_lock_status b (wr_reads s + k) = true
    ∧ Forall (λ j, wr_time_lock_status b (wr_reads s + j) = false) (seq 0 k)
  else k = 0%nat.

#[global] Instance step_7_passes_dec b ts s k : Decision (step_7_passes b ts s k).
Proof. unfold step_7_passes. destruct (decide (ts = PStr "sfp0")); apply _. Defined.

(** What a source field holds after a run that logged [evs]. *)
Definition recorded (store : event) (evs : list event) (new old : pyval) : pyval :=
  if bool_decide (store ∈ evs) then new else old.

(** The events that assign a source field. *)
Definition is_store (e : event) : Prop :=
  match e with StoreClockSource _ | StoreTimeSource _ => True | _ => False end.

(** Every run of the statements after the last assertion, by the step at
    which it ends. *)
Inductive apply_outcome (b : board) (cs ts skip : pyval) (s : n3xx)
  : result unit * n3xx → Prop :=
| ends_in_step_1 evs :
    ¬ Forall safe_returns (dboards b) →
    evs `prefix_of` safe_state_calls 0 (dboards b) →
    apply_outcome b cs ts skip s (Raise DboardError, add_log evs s)
| ends_in_step_4 :
    Forall safe_returns (dboards b) →
    ref_clock_freq_table (_ext_clock_freq s) cs = Ok None →
    apply_outcome b cs ts skip s
      (Raise TypeError,
       add_log (safe_state_calls 0 (dboards b) ++ [RegEnableRefClk false]
                ++ mainsel_writes cs ++ [StoreClockSource cs])
         (with_clock_source cs s))
| ends_in_step_7 f e evs7 n :
    Forall safe_returns (dboards b) →
    ref_clock_freq_table (_ext_clock_freq s) cs = Ok (Some f) →
    ts = PStr "sfp0" →
    (∀ k, ¬ step_7_passes b ts s k) →
    Forall is_timing_core_event evs7 →
    apply_outcome b cs ts skip s
      (Raise e, add_log evs7 (with_wr_reads n (after_step_6 b cs ts f s)))
| ends_in_step_8 f k evs last n :
    Forall safe_returns (dboards b) →
    ref_clock_freq_table (_ext_clock_freq s) cs = Ok (Some f) →
    step_7_passes b ts s k →
    ¬ Forall (update_returns f ts cs skip) (dboards b) →
    (evs ++ [last]) `prefix_of` update_calls f ts cs skip 0 (dboards b) →
    apply_outcome b cs ts skip s
      (Raise DboardError,
       add_log (sfp0_events ts k ++ evs ++ [last])
         (with_wr_reads n (after_step_6 b cs ts f s)))
| runs_to_the_end f k n :
    Forall safe_returns (dboards b) →
    ref_clock_freq_table (_ext_clock_freq s) cs = Ok (Some f) →
    step_7_passes b ts s k →
    Forall (update_returns f ts cs skip) (dboards b) →
    apply_outcome b cs ts skip s
      (Ok tt,
       add_log (sfp0_events ts k ++ update_calls f ts cs skip 0 (dboards b))
         (with_wr_reads n (after_step_6 b cs ts f s))).

(** ** What a method leaves alone *)

Definition same_fields (s s' : n3xx) : Prop :=
  _ext_clock_freq s' = _ext_clock_freq s
  ∧ _clock_source s' = _clock_source s
  ∧ _time_source s' = _time_source s
  ∧ _available_endpoints s' = _available_endpoints s
  ∧ fpga_type s' = fpga_type s.

(** The pool, the external frequency and the FPGA type are those of [s]. *)
Definition same_pool (s s' : n3xx) : Prop :=
  _available_endpoints s' = _available_endpoints s
  ∧ _ext_clock_freq s' = _ext_clock_freq s
  ∧ fpga_type s' = fpga_type s.

(** [m] leaves the object [R]-related to the one it started from, whether
    it returns or raises. *)
Definition keeps {A} (R : relation n3xx) (m : M A) : Prop :=
  ∀ s, R s (snd (m s)).

(** The free addresses are in ascending order. *)
Definition pool_sorted (s : n3xx) : Prop :=
  StronglySorted Z.lt (_available_endpoints s).

(** The free addresses are endpoint addresses: one byte each. *)
Definition pool_in_range (s : n3xx) : Prop :=
  Forall (λ a, 0 ≤ a < 256) (_available_endpoints s).

#[global] Instance pool_in_range_dec s : Decision (pool_in_range s).
Proof. unfold pool_in_range. apply _. Defined.

(** ** The stored pair *)

(** Both source fields set means the pair is whitelisted. *)
Definition sources_valid (s : n3xx) : Prop :=
  _clock_source s ≠ PNone → _time_source s ≠ PNone →
  (_clock_source s, _time_source s) ∈ valid_sync_sources.

(** The state of an initialised device: [_init_ref_clock_and_time] has
    stored an external clock frequency, and the stored pair is whitelisted
    if set. *)
Definition clocks_initialized (s : n3xx) : Prop :=
  is_Some (_ext_clock_freq s) ∧ sources_valid s.

#[global] Instance sources_valid_dec s : Decision (sources_valid s).
Proof. unfold sources_valid. apply _. Defined.

#[global] Instance clocks_initialized_dec s : Decision (clocks_initialized s).
Proof. unfold clocks_initialized. apply _. Defined.

(** ** The endpoint pool *)

(** The backend that the connection mode selects. *)
Definition selected_mgr (b : board) (x : xport_mgrs) : xport_mgr :=
  if decide (rpc_connection b = "remote") then udp x else liberio x.

(** Whether an event is an [update_ref_clock_freq] call carrying [f]. *)
Definition is_update_with (f : Z) (e : event) : bool :=
  match e with
  | DbUpdateRefClockFreq _ f' _ _ _ => bool_decide (f' = f)
  | _ => false
  end.

(** ** A device to run the methods on *)

(** A board with [set_clk_safe_state] and one without; both accept every
    update. *)
Definition capable_db : dboard :=
  {| db_set_clk_safe_state := Some true;
     db_update_ref_clock_freq := λ _ _ _ _, true |}.

Definition plain_db : dboard :=
  {| db_set_clk_safe_state := None;
     db_update_ref_clock_freq := λ _ _ _ _, true |}.

(** Two slots, a remote connection, a timing core that locks at its fourth
    read. *)
Definition example_board : board :=
  {| dboards := [capable_db; plain_db]; rpc_connection := "remote";
     wr_time_lock_status := λ n, bool_decide (n = 3%nat) |}.

(** The same with a timing core that never locks. *)
Definition unlocked_board : board :=
  {| dboards := [capable_db; plain_db]; rpc_connection := "remote";
     wr_time_lock_status := λ _, false |}.

(** Backends that answer with one endpoint carrying the SID they got. *)
Definition echo_mgr : xport_mgr :=
  {| mgr_request_xport := λ sid _, Ok [ {| send_sid := sid |} ];
     mgr_commit_xport := λ _ info, Ok info |}.

Definition example_mgrs : xport_mgrs := {| udp := echo_mgr; liberio := echo_mgr |}.

(** The object after [_init_ref_clock_and_time] with no arguments, on an
    FPGA image of type WX and of type HG. *)
Definition booted : n3xx :=
  snd (_init_ref_clock_and_time example_board None ∅ (n3xx_new "WX")).

Definition booted_hg : n3xx :=
  snd (_init_ref_clock_and_time example_board None ∅ (n3xx_new "HG")).

Definition sfp0_only : gmap string pyval := {[ "time_source" := PStr "sfp0" ]}.

Definition external_sfp0 : gmap string pyval :=
  {[ "clock_source" := PStr "external"; "time_source" := PStr "sfp0" ]}.

Definition external_pair : gmap string pyval :=
  {[ "clock_source" := PStr "external"; "time_source" := PStr "external" ]}.

(** ... then switched to the external clock and time source (10 MHz). *)
Definition on_external : n3xx :=
  snd (set_sync_source example_board external_pair booted).

(** ... then told of a 20 MHz reference and moved to the internal time
    source. *)
Definition on_external_20MHz : n3xx :=
  snd (set_time_source example_board (PStr "internal")
         (snd (set_ref_clock_freq example_board 20000000 on_external))).

(** The object after committing the endpoint with source address 5. *)
Definition committed_5 : n3xx :=
  snd (commit_xport example_board example_mgrs
         {| send_sid := Z.lor (Z.shiftl 5 16) 16 |} booted).

(** * Session init and deinit *)

(** The argument of [enable_pps_out]: a literal, or a value of [args]. *)
Inductive pps_arg :=
| PpsBool (b : bool)
| PpsVal (v : pyval).

(** One entry of the session log: an entry that a method of the clock API
    appended to [effect_log], or a call on the motherboard registers, on
    the base class or on a transport backend. *)
Inductive session_event :=
| Clocking (e : event)
| RegEnablePpsOut (enable : pps_arg)
| BaseInit (args : gmap string pyval)
| BaseDeinit
| XportMgrInit (mgr : string) (args : gmap string pyval)
| XportMgrDeinit (mgr : string).

#[global] Instance pps_arg_eq_dec : EqDecision pps_arg.
Proof. solve_decision. Defined.

#[global] Instance session_event_eq_dec : EqDecision session_event.
Proof. solve_decision. Defined.

(** What [init] and [deinit] call and cannot see into: [init] and [deinit]
    of [PeriphManagerBase], and those of the transport backends, by their
    key in [_xport_mgrs].  An [init] is handed the dictionary [args]
    itself, so it answers with the dictionary as it left it, and with its
    result or exception. *)
Record session_env := {
  super_init : gmap string pyval → gmap string pyval * result bool;
  super_deinit : result unit;
  xport_mgr_init : string → gmap string pyval → gmap string pyval * result unit;
  xport_mgr_deinit : string → result unit;
}.

(** The [n3xx] object at the session boundary: the fields of the clock and
    transport API, the flag of the base class, and the product of
    [device_info] ([None] when the key is missing). *)
Record mpm_device := {
  obj : n3xx;
  _device_initialized : bool;
  device_info_product : pyval;
  session_log : list session_event;
}.

(** The device with the object [s], and [evs] logged. *)
Definition with_obj (s : n3xx) (evs : list session_event) (d : mpm_device)
  : mpm_device :=
  {| obj := s; _device_initialized := _device_initialized d;
     device_info_product := device_info_product d;
     session_log := session_log d ++ evs |}.

Definition SM (A : Type) : Type := mpm_device → result A * mpm_device.

#[global] Instance SM_ret : MRet SM := λ A a d, (Ok a, d).
#[global] Instance SM_bind : MBind SM := λ A B f m d,
  match m d with
  | (Ok a, d') => f a d'
  | (Raise e, d') => (Raise e, d')
  end.

Definition sgets {A} (f : mpm_device → A) : SM A := λ d, (Ok (f d), d).

Definition semit (e : session_event) : SM unit := λ d,
  (Ok tt, with_obj (obj d) [e] d).

(** A call on a collaborator: logged, then it returns or raises. *)
Definition scall {A} (e : session_event) (r : result A) : SM A := λ d,
  (r, with_obj (obj d) [e] d).

(** A method of the clock and transport API, run on the object; what it
    appended to [effect_log] goes to the session log. *)
Definition clocking {A} (m : M A) : SM A := λ d,
  let '(r, s') := m (obj d) in
  (r, with_obj s'
        (Clocking <$> drop (length (effect_log (obj d))) (effect_log s')) d).

(** The keys of [_xport_mgrs], in the order of the dictionary display. *)
Definition xport_mgr_keys : list string := ["udp"; "liberio"].

Definition N3XX_DEFAULT_ENABLE_PPS_EXPORT : bool := true.

Definition lo_source_keys : list string := ["rx_lo_source"; "tx_lo_source"].

(** The body of the loop over the two LO source keys. *)
Definition force_internal_lo (args : gmap string pyval) (lo_source : string)
  : gmap string pyval :=
  match args !! lo_source with
  | Some v =>
      if decide (v ≠ PStr "internal") then <[lo_source := PStr "internal"]> args
      else args
  | None => args
  end.

(** [args.get('pps_export', N3XX_DEFAULT_ENABLE_PPS_EXPORT)]. *)
Definition pps_export_arg (args : gmap string pyval) : pps_arg :=
  match args !! "pps_export" with
  | Some v => PpsVal v
  | None => PpsBool N3XX_DEFAULT_ENABLE_PPS_EXPORT
  end.

(** [for xport_mgr in itervalues(self._xport_mgrs): xport_mgr.init(args)]. *)
Fixpoint xport_mgrs_init (env : session_env) (keys : list string)
    (args : gmap string pyval) : SM unit :=
  match keys with
  | [] => mret tt
  | k :: keys' =>
      let '(args', r) := xport_mgr_init env k args in
      scall (XportMgrInit k args) r ;;
      xport_mgrs_init env keys' args'
  end.

(** [for xport_mgr in itervalues(self._xport_mgrs): xport_mgr.deinit()]. *)
Fixpoint xport_mgrs_deinit (env : session_env) (keys : list string) : SM unit :=
  match keys with
  | [] => mret tt
  | k :: keys' =>
      scall (XportMgrDeinit k) (xport_mgr_deinit env k) ;;
      xport_mgrs_deinit env keys'
  end.

(** [init].  The dictionary [args] is written to in place; each call that
    is handed it is logged with the dictionary as it was at the call. *)
Definition init (b : board) (env : session_env) (args : gmap string pyval)
  : SM bool :=
  initialized ← sgets _device_initialized;
  if negb initialized then mret false
  else
    semit (RegEnablePpsOut (PpsBool false)) ;;
    cur_clock ← sgets (λ d, _clock_source (obj d));
    let args := <["clock_source" := default cur_clock (args !! "clock_source")]> args in
    cur_time ← sgets (λ d, _time_source (obj d));
    let args := <["time_source" := default cur_time (args !! "time_source")]> args in
    clocking (set_sync_source b args) ;;
    product ← sgets device_info_product;
    let args :=
      if decide (product = PStr "n300")
      then foldl force_internal_lo args lo_source_keys
      else args in
    let '(args', r) := super_init env args in
    result ← scall (BaseInit args) r;
    semit (RegEnablePpsOut (pps_export_arg args')) ;;
    xport_mgrs_init env xport_mgr_keys args' ;;
    mret result.

Definition deinit (env : session_env) : SM unit :=
  initialized ← sgets _device_initialized;
  if negb initialized then mret tt
  else
    scall BaseDeinit (super_deinit env) ;;
    xport_mgrs_deinit env xport_mgr_keys ;;
    clocking deinit_reset_pool.

(** * Sensors *)

(** The list comprehension of [get_ref_lock_sensor].  A daughterboard is
    seen through its [get_ref_lock]: [None] when it has no such attribute,
    and otherwise what the call answers.  The result is the slots whose
    [get_ref_lock] was called, in call order, and the list built, unless a
    call raised. *)
Fixpoint ref_lock_flags (slot : nat) (dbs : list (option (result bool)))
  : list nat * result (list bool) :=
  match dbs with
  | [] => ([], Ok [])
  | None :: dbs' =>
      let '(calls, r) := ref_lock_flags (S slot) dbs' in
      (calls, match r with Ok l => Ok (true :: l) | Raise e => Raise e end)
  | Some (Raise e) :: _ => ([slot], Raise e)
  | Some (Ok locked) :: dbs' =>
      let '(calls, r) := ref_lock_flags (S slot) dbs' in
      (slot :: calls,
       match r with Ok l => Ok (locked :: l) | Raise e => Raise e end)
  end.

(** [str(b).lower()]. *)
Definition str_lower_bool (b : bool) : string := if b then "true" else "false".

(** A sensor dictionary. *)
Definition sensor_dict (name type unit value : string) : gmap string string :=
  {[ "name" := name; "type" := type; "unit" := unit; "value" := value ]}.

(** [get_ref_lock_sensor]: the slots polled, and the dictionary. *)
Definition get_ref_lock_sensor (dbs : list (option (result bool)))
  : list nat * result (gmap string string) :=
  let '(calls, r) := ref_lock_flags 0 dbs in
  (calls,
   match r with
   | Ok flags =>
       let lock_status := forallb id flags in
       Ok (sensor_dict "ref_locked" "BOOLEAN"
             (if lock_status then "locked" else "unlocked")
             (str_lower_bool lock_status))
   | Raise e => Raise e
   end).

(** [get_gps_lock_sensor], from the level read on GPS-LOCKOK. *)
Definition get_gps_lock_sensor (pin : Z) : gmap string string :=
  let gps_locked := bool_decide (pin ≠ 0) in
  sensor_dict "gps_lock" "BOOLEAN"
    (if gps_locked then "locked" else "unlocked")
    (str_lower_bool gps_locked).

(** One pass of the loop of [_monitor_status], up to the wait: the writes
    to the back-panel LEDs, as (LED, level), and whether the pass got
    through or a daughterboard raised. *)
Definition monitor_pass (pin : Z) (dbs : list (option (result bool)))
  : list (string * Z) * result unit :=
  let gps_locked := bool_decide (pin ≠ 0) in
  let gps_led := ("LED_GPS", Z.b2z gps_locked) in
  match snd (get_ref_lock_sensor dbs) with
  | Ok sensor =>
      let ref_locked := bool_decide (sensor !! "value" = Some "true") in
      ([gps_led; ("LED_REF", Z.b2z ref_locked)], Ok tt)
  | Raise e => ([gps_led], Raise e)
  end.

(** * The status monitor thread and tear-down *)

(** [N3XX_MONITOR_THREAD_INTERVAL], 1.0 s, in milliseconds. *)
Definition N3XX_MONITOR_THREAD_INTERVAL : Z := 1000.

(** What the monitor thread does, in program order: a read of
    [self._tear_down], a write to a back-panel LED, a wait on the
    condition. *)
Inductive monitor_event :=
| ReadTearDown (flag : bool)
| BpLedSet (led : string) (level : Z)
| CondWait (timeout_ms : Z).

#[global] Instance monitor_event_eq_dec : EqDecision monitor_event.
Proof. solve_decision. Defined.

(** What the thread is given: the value of [self._tear_down] at its n-th
    read of the flag (the orchestrator sets it from another thread), and in
    its n-th cycle the level of GPS-LOCKOK and the answers of the
    daughterboards' [get_ref_lock]. *)
Record monitor_inputs := {
  tear_down_at : nat → bool;
  gps_lockok_at : nat → Z;
  ref_locks_at : nat → list (option (result bool));
}.

(** The thread: the reads of the flag and the cycles made so far, and its
    log. *)
Record monitor := {
  flag_reads : nat;
  cycles : nat;
  monitor_log : list monitor_event;
}.

Definition monitor_start : monitor :=
  {| flag_reads := 0; cycles := 0; monitor_log := [] |}.

(** One evaluation of [self._tear_down]. *)
Definition read_tear_down (inp : monitor_inputs) (m : monitor) : bool * monitor :=
  let flag := tear_down_at inp (flag_reads m) in
  (flag,
   {| flag_reads := S (flag_reads m); cycles := cycles m;
      monitor_log := monitor_log m ++ [ReadTearDown flag] |}).

(** [cond.wait(timeout)]: no thread notifies the condition, which is local
    to [_monitor_status], so the wait lasts the timeout. *)
Definition cond_wait (timeout_ms : Z) (m : monitor) : monitor :=
  {| flag_reads := flag_reads m; cycles := cycles m;
     monitor_log := monitor_log m ++ [CondWait timeout_ms] |}.

(** [cond.wait_for(predicate, timeout)] of [threading.Condition]: the
    predicate is evaluated; while it is false and the timeout has not
    elapsed the thread waits for what is left of it and evaluates the
    predicate again.  With a wait that lasts the timeout that is one wait
    and a second evaluation. *)
Definition wait_for (predicate : monitor → bool * monitor) (timeout_ms : Z)
    (m : monitor) : bool * monitor :=
  let '(result, m) := predicate m in
  if result then (true, m)
  else predicate (cond_wait timeout_ms m).

(** The four statements of the loop body before the wait: [monitor_pass]
    on what the thread is given in this cycle. *)
Definition sample (inp : monitor_inputs) (m : monitor) : result unit * monitor :=
  let '(writes, r) :=
    monitor_pass (gps_lockok_at inp (cycles m)) (ref_locks_at inp (cycles m)) in
  (r,
   {| flag_reads := flag_reads m; cycles := S (cycles m);
      monitor_log := monitor_log m ++ (uncurry BpLedSet <$> writes) |}).

(** The loop of [_monitor_status], for at most [fuel] passes: [None] when
    the thread is still running after them, else how it ended (an
    exception of a daughterboard ends the thread). *)
Fixpoint monitor_loop (inp : monitor_inputs) (fuel : nat) (m : monitor)
  : option (result unit) * monitor :=
  match fuel with
  | O => (None, m)
  | S fuel' =>
      let '(flag, m) := read_tear_down inp m in
      if flag then (Some (Ok tt), m)
      else
        match sample inp m with
        | (Raise e, m) => (Some (Raise e), m)
        | (Ok _, m) =>
            let '(stop, m) :=
              wait_for (read_tear_down inp) N3XX_MONITOR_THREAD_INTERVAL m in
            if stop then (Some (Ok tt), m) else monitor_loop inp fuel' m
        end
  end.

Definition _monitor_status (inp : monitor_inputs) (fuel : nat)
  : option (result unit) * monitor :=
  monitor_loop inp fuel monitor_start.

(** What [tear_down] does, in program order. *)
Inductive tear_down_event :=
| SetTearDown
| ThreadJoin (timeout_ms : Z)
| ThreadIsAlive (alive : bool)
| LogError (msg : string)
| ListActiveOverlays
| RmOverlay (overlay : string).

#[global] Instance tear_down_event_eq_dec : EqDecision tear_down_event.
Proof. solve_decision. Defined.

(** What [tear_down] is answered: by [is_alive] after the join, by
    [list_active_overlays] (a method of the base class) and by
    [dtoverlay.rm_overlay], which may raise; neither of the two is among
    the sources. *)
Record tear_down_env := {
  is_alive : bool;
  list_active_overlays : list string;
  rm_overlay : string → result unit;
}.

Definition monitor_thread_error : string :=
  "Could not terminate monitor thread! This could result in resource leaks.".

(** [for overlay in active_overlays: dtoverlay.rm_overlay(overlay)]. *)
Fixpoint rm_overlays (env : tear_down_env) (overlays : list string)
  : list tear_down_event * result unit :=
  match overlays with
  | [] => ([], Ok tt)
  | overlay :: rest =>
      match rm_overlay env overlay with
      | Ok _ =>
          let '(evs, r) := rm_overlays env rest in (RmOverlay overlay :: evs, r)
      | Raise e => ([RmOverlay overlay], Raise e)
      end
  end.

(** [tear_down]; of its log calls only the error is kept. *)
Definition tear_down (env : tear_down_env) (d : mpm_device)
  : list tear_down_event * result unit :=
  let join :=
    if _device_initialized d then
      [ThreadJoin (3 * N3XX_MONITOR_THREAD_INTERVAL); ThreadIsAlive (is_alive env)]
      ++ (if is_alive env then [LogError monitor_thread_error] else [])
    else [] in
  let '(evs, r) := rm_overlays env (list_active_overlays env) in
  (SetTearDown :: join ++ ListActiveOverlays :: evs, r).

(** * EEPROMs *)

(** The exceptions of the EEPROM methods: those of the clock API, and two
    that only arise here. *)
Inductive py_exn :=
| Exn (e : exn)
| IndexError
| UnicodeEncodeError.

Inductive outcome (A : Type) :=
| Returns (a : A)
| Raises (e : py_exn).
Arguments Returns {A} a.
Arguments Raises {A} e.

(** A value of an EEPROM dictionary: a [str] (its code points), a [bytes]
    object (its octets), or a value of another type. *)
Inductive blob :=
| BStr (code_points : list N)
| BBytes (octets : list N)
| BOther.

(** [l[i]] on a Python list: a negative index counts from the end, and
    [None] is where Python raises IndexError. *)
Definition list_getitem {A} (l : list A) (i : Z) : option A :=
  if decide (0 ≤ i)%Z then l !! Z.to_nat i
  else if decide (- Z.of_nat (length l) ≤ i)%Z
       then l !! Z.to_nat (Z.of_nat (length l) + i)
       else None.

(** A daughterboard as the EEPROM methods see it.  [get_user_eeprom_data]
    and [set_user_eeprom_data] are [None] when the board has no such
    callable attribute. *)
Record eeprom_dboard := {
  device_info : gmap string blob;
  get_user_eeprom_data : option (outcome (gmap string blob));
  set_user_eeprom_data : option (gmap string blob → outcome unit);
}.

(** The body of the loop of [get_db_eeprom]. *)
Definition add_user_blob (blob_id : string) (b : blob)
    (db_eeprom_data : gmap string blob) : gmap string blob :=
  if decide (is_Some (db_eeprom_data !! blob_id)) then db_eeprom_data
  else <[blob_id := b]> db_eeprom_data.

(** [get_db_eeprom].  [self.dboards] is a list, so the [except KeyError]
    of the source never fires: an index out of range raises IndexError. *)
Definition get_db_eeprom (dboards : list eeprom_dboard) (dboard_idx : Z)
  : outcome (gmap string blob) :=
  match list_getitem dboards dboard_idx with
  | None => Raises IndexError
  | Some dboard =>
      let db_eeprom_data := device_info dboard in
      match get_user_eeprom_data dboard with
      | Some (Returns user) => Returns (map_fold add_user_blob db_eeprom_data user)
      | Some (Raises e) => Raises e
      | None => Returns db_eeprom_data
      end
  end.

Definition read_only_error : py_exn :=
  Exn (RuntimeError "Trying to overwrite read-only EEPROM entry `{}'!").

Definition not_a_string_error : py_exn :=
  Exn (RuntimeError "Blob data for ID `{}' is not a string!").

Definition no_setter_error : py_exn :=
  Exn (RuntimeError "Dboard has no set_user_eeprom_data() method!").

(** [s.encode('ascii')]. *)
Definition encode_ascii (s : list N) : outcome (list N) :=
  if forallb (λ c, c <? 128)%N s then Returns s else Raises UnicodeEncodeError.

(** The loop of [set_db_eeprom] over the items of [eeprom_data], in the
    order of the dictionary. *)
Fixpoint safe_user_data (info : gmap string blob) (items : list (string * blob))
    (safe : gmap string blob) : outcome (gmap string blob) :=
  match items with
  | [] => Returns safe
  | (blob_id, b) :: items' =>
      if decide (is_Some (info !! blob_id)) then Raises read_only_error
      else
        match b with
        | BOther => Raises not_a_string_error
        | BBytes _ => Raises (Exn AssertionError)
        | BStr s =>
            match encode_ascii s with
            | Returns octets =>
                safe_user_data info items' (<[blob_id := BBytes octets]> safe)
            | Raises e => Raises e
            end
        end
  end.

(** [set_db_eeprom]: the dictionary handed to [set_user_eeprom_data], if
    the call was made, and how the method ends. *)
Definition set_db_eeprom (dboards : list eeprom_dboard) (dboard_idx : Z)
    (eeprom_data : list (string * blob))
  : option (gmap string blob) * outcome unit :=
  match list_getitem dboards dboard_idx with
  | None => (None, Raises IndexError)
  | Some dboard =>
      match set_user_eeprom_data dboard with
      | None => (None, Raises no_setter_error)
      | Some setter =>
          match safe_user_data (device_info dboard) eeprom_data ∅ with
          | Returns safe => (Some safe, setter safe)
          | Raises e => (None, Raises e)
          end
      end
  end.

(** * Device info *)

(** The daughterboard PIDs that the module imports from the daughterboard
    classes ([Magnesium.pids[0]] and so on; the classes are not among the
    sources). *)
Record dboard_pids := {
  MG_PID : Z;
  EISCAT_PID : Z;
  RHODIUM_PID : Z;
}.

(** [product_map]: a dictionary display, so of two equal keys the later
    entry stays.  The entries are inserted in the order of the source. *)
Definition product_map (p : dboard_pids) : gmap (string * list Z) string :=
  <[("n310", [RHODIUM_PID p]) := "n320"]>
  (<[("n310", [RHODIUM_PID p; RHODIUM_PID p]) := "n320"]>
  (<[("n310", [EISCAT_PID p; EISCAT_PID p]) := "eiscat"]>
  (<[("n310", [MG_PID p]) := "n310"]>
  (<[("n310", [MG_PID p; MG_PID p]) := "n310"]>
  (<[("n310", []) := "n310"]>
  (<[("n300", [MG_PID p]) := "n300"]>
  (<[("n300", []) := "n300"]> ∅))))))).

(** [pids]: 0x4242 and 0x4240. *)
Definition pids : gmap Z string := {[ 16962 := "n310"; 16960 := "n300" ]}.

(** [[x['pid'] for x in dboard_infos]]: a daughterboard info is seen
    through its entry 'pid', [None] when it has none. *)
Fixpoint dboard_info_pids (dboard_infos : list (option Z)) : result (list Z) :=
  match dboard_infos with
  | [] => Ok []
  | None :: _ => Raise KeyError
  | Some pid :: infos =>
      match dboard_info_pids infos with
      | Ok l => Ok (pid :: l)
      | Raise e => Raise e
      end
  end.

(** [generate_device_info]; [base_info] is what the method of the base
    class returned, [mb_pid] is [eeprom_md.get('pid')]. *)
Definition generate_device_info (p : dboard_pids)
    (base_info : gmap string string) (mb_pid : option Z)
    (dboard_infos : list (option Z)) : result (gmap string string) :=
  match dboard_info_pids dboard_infos with
  | Ok db_pids =>
      let lookup_key := (default "unknown" (mb_pid ≫= (pids !!.)), db_pids) in
      Ok (<["product" := default "unknown" (product_map p !! lookup_key)]>
            base_info)
  | Raise e => Raise e
  end.

Definition list_required_dt_overlays (info : gmap string string)
  : result (list string) :=
  match info !! "product" with
  | Some product => Ok [product]
  | None => Raise KeyError
  end.

(** The sanity check that opens [_init_peripherals]:
    [device_info.get('product') in product_map.values()]. *)
Definition product_determined (p : dboard_pids) (info : gmap string string)
  : bool :=
  match info !! "product" with
  | Some product => bool_decide (product ∈ (map_to_list (product_map p)).*2)
  | None => false
  end.

(** * E320 motherboard registers

    The class [MboardRegsControl] of
    mpm/python/usrp_mpm/periph_manager/e320_periphs.py.  [with self.regs]
    is not recorded; the accesses inside it are. *)

Module e320_periphs.

Local Open Scope Z_scope.

(** Map register values to SFP transport types. *)
Definition E320_SFP_TYPES : gmap Z string :=
  {[ 0 := ""; 1 := "1G"; 2 := "10G"; 3 := "A" ]}.

Definition E320_FPGA_TYPES_BY_SFP : gmap string string :=
  {[ "" := ""; "1G" := "1G"; "10G" := "XG"; "A" := "AA" ]}.

(** Motherboard registers. *)
Definition MB_COMPAT_NUM : Z := 0x0000.
Definition MB_GIT_HASH : Z := 0x0008.
Definition MB_CLOCK_CTRL : Z := 0x0018.
Definition MB_SFP_PORT_INFO : Z := 0x0028.
Definition MB_GPS_CTRL : Z := 0x0038.

(** Bitfield locations. *)
Definition MB_CLOCK_CTRL_PPS_SEL_INT : Z := 0.
Definition MB_CLOCK_CTRL_PPS_SEL_EXT : Z := 1.
Definition MB_CLOCK_CTRL_REF_SEL : Z := 2.
Definition MB_GPS_CTRL_PWR_EN : Z := 0.

(** One access to the register block. *)
Inductive access :=
| Peek32 (addr value : Z)
| Poke32 (addr value : Z).

(** The register block behind [self.regs]: what each register holds, and
    the accesses made, in program order.  A register holds what was last
    written to it. *)
Record uio := {
  mem : Z → Z;
  accesses : list access;
}.

Definition RM (A : Type) : Type := uio → result A * uio.

#[global] Instance RM_ret : MRet RM := λ A a u, (Ok a, u).
#[global] Instance RM_bind : MBind RM := λ A B f m u,
  match m u with
  | (Ok a, u') => f a u'
  | (Raise e, u') => (Raise e, u')
  end.

Definition rraise {A} (e : exn) : RM A := λ u, (Raise e, u).

Definition peek32 (addr : Z) : RM Z := λ u,
  (Ok (mem u addr),
   {| mem := mem u; accesses := accesses u ++ [Peek32 addr (mem u addr)] |}).

Definition poke32 (addr value : Z) : RM unit := λ u,
  (Ok tt,
   {| mem := λ a, if decide (a = addr) then value else mem u a;
      accesses := accesses u ++ [Poke32 addr value] |}).

(** ["{:.1f}".format(ref_clk_freq)], the argument of a log call; it raises
    on [None]. *)
Definition format_freq (ref_clk_freq : option Z) : RM unit :=
  match ref_clk_freq with
  | Some _ => mret tt
  | None => rraise TypeError
  end.

Definition get_compat_number : RM (Z * Z) :=
  compat_number ← peek32 MB_COMPAT_NUM;
  let minor := Z.land compat_number 0xff in
  let major := Z.land (Z.shiftr compat_number 16) 0xff in
  mret (major, minor).

Definition get_git_hash : RM (Z * string) :=
  git_hash_rb ← peek32 MB_GIT_HASH;
  let git_hash := Z.land git_hash_rb 0x0FFFFFFF in
  let tree_dirty := bool_decide (Z.land git_hash_rb 0xF0000000 > 0) in
  let dirtiness_qualifier := if tree_dirty then "dirty" else "clean" in
  mret (git_hash, dirtiness_qualifier).

Definition set_time_source (time_source : pyval) (ref_clk_freq : option Z)
  : RM unit :=
  pps_sel_val ←
    (if decide (time_source = PStr "internal" ∨ time_source = PStr "gpsdo") then
       format_freq ref_clk_freq ;;
       mret (Z.shiftl 1 MB_CLOCK_CTRL_PPS_SEL_INT)
     else if decide (time_source = PStr "external") then
       mret (Z.shiftl 1 MB_CLOCK_CTRL_PPS_SEL_EXT)
     else rraise AssertionError);
  rb ← peek32 MB_CLOCK_CTRL;
  let reg_val := Z.land rb 0xFFFFFF90 in
  poke32 MB_CLOCK_CTRL reg_val ;;
  let reg_val := Z.lor reg_val (Z.land pps_sel_val 0x6F) in
  poke32 MB_CLOCK_CTRL reg_val.

Definition set_clock_source (clock_source : pyval) (ref_clk_freq : option Z)
  : RM unit :=
  ref_sel_val ←
    (if decide (clock_source = PStr "internal" ∨ clock_source = PStr "gpsdo") then
       format_freq ref_clk_freq ;; mret 0
     else if decide (clock_source = PStr "external") then
       format_freq ref_clk_freq ;; mret 1
     else rraise AssertionError);
  let mask := Z.lxor 0xFFFFFFFF (Z.shiftl 1 MB_CLOCK_CTRL_REF_SEL) in
  rb ← peek32 MB_CLOCK_CTRL;
  let reg_val := Z.land rb mask in
  let reg_val := Z.lor reg_val (Z.shiftl ref_sel_val MB_CLOCK_CTRL_REF_SEL) in
  poke32 MB_CLOCK_CTRL reg_val.

(** The [except KeyError] branch falls through to [return ""]. *)
Definition get_fpga_type : RM string :=
  sfp_info_rb ← peek32 MB_SFP_PORT_INFO;
  let sfp_type :=
    default "" (E320_SFP_TYPES !! Z.shiftr (Z.land sfp_info_rb 0x0000FF00) 8) in
  match E320_FPGA_TYPES_BY_SFP !! sfp_type with
  | Some fpga_type => mret fpga_type
  | None => mret ""
  end.

Definition enable_gps (enable : bool) : RM unit :=
  let mask := Z.lxor 0xFFFFFFFF (Z.shiftl 1 MB_GPS_CTRL_PWR_EN) in
  rb ← peek32 MB_GPS_CTRL;
  let reg_val := Z.land rb mask in
  let reg_val := Z.lor reg_val (Z.shiftl (Z.b2z enable) MB_GPS_CTRL_PWR_EN) in
  poke32 MB_GPS_CTRL reg_val.

(** ** Vocabulary of the statements on the registers *)

(** The bits of MB_CLOCK_CTRL that [set_time_source] clears. *)
Definition time_source_cleared_bits : list Z := [0; 1; 2; 3; 5; 6].

(** The PPS select bit of a time source. *)
Definition pps_sel_bit (time_source : pyval) : Z :=
  if decide (time_source = PStr "external") then MB_CLOCK_CTRL_PPS_SEL_EXT
  else MB_CLOCK_CTRL_PPS_SEL_INT.

(** The sources that the two setters accept. *)
Definition accepted_sources : list pyval :=
  [PStr "internal"; PStr "gpsdo"; PStr "external"].

(** A register value of 32 bits. *)
Definition u32 (v : Z) : Prop := 0 ≤ v < 2 ^ 32.

(** A read-modify-write of one bit: the register is read, then written
    with bit [n] set to [b] and the other bits of the low 32 kept. *)
Definition one_bit_update (addr n : Z) (b : bool) (u u' : uio) : Prop :=
  ∃ written,
    accesses u' = accesses u ++ [Peek32 addr (mem u addr); Poke32 addr written]
    ∧ mem u' addr = written
    ∧ (∀ a, a ≠ addr → mem u' a = mem u a)
    ∧ ∀ i, 0 ≤ i →
        Z.testbit written i =
        if decide (i = n) then b
        else if decide (i < 32) then Z.testbit (mem u addr) i else false.

(** A register block that reads [v] everywhere. *)
Definition uio_of (v : Z) : uio := {| mem := λ _, v; accesses := [] |}.

End e320_periphs.

(** * Band windows of the phase alignment test

    The generator [window] of tools/gr-usrptest/apps/uhd_phase_alignment.py,
    on a finite sequence. *)

(** The loop [for elem in seq_iter] of [window]: the tuples it yields. *)
Fixpoint window_slide {A} (result : list A) (seq_iter : list A) : list (list A) :=
  match seq_iter with
  | [] => []
  | elem :: seq_iter' =>
      let result := drop 1 result ++ [elem] in
      result :: window_slide result seq_iter'
  end.

(** [sys.maxsize] of a 64-bit CPython: the largest stop that [islice]
    takes, and the largest length of a sequence. *)
Definition sys_maxsize : Z := 2 ^ 63 - 1.

(** [window(seq, width)]: the tuples the generator yields, in order.
    [islice] raises ValueError on a stop that is negative or above
    [sys.maxsize], and else takes the first [width] items of the iterator,
    or all of them if it has fewer. *)
Definition window {A} (data : list A) (width : Z) : result (list (list A)) :=
  if decide (width < 0 ∨ sys_maxsize < width)%Z then Raise ValueError
  else
    let n := Z.to_nat (Z.min width (Z.of_nat (length data))) in
    let result := take n data in
    let seq_iter := drop n data in
    Ok ((if decide (Z.of_nat (length result) = width) then [result] else [])
        ++ window_slide result seq_iter).

(** * Vocabulary of the statements on the session, sensors and EEPROMs *)

(** [args] after [init] has written the two source defaults into it. *)
Definition init_sync_args (args : gmap string pyval) (s : n3xx)
  : gmap string pyval :=
  let args :=
    <["clock_source" := default (_clock_source s) (args !! "clock_source")]> args in
  <["time_source" := default (_time_source s) (args !! "time_source")]> args.

(** ... and, on an N300, has reset the LO sources: the dictionary handed
    to the daughterboards. *)
Definition init_dboard_args (product : pyval) (args : gmap string pyval)
    (s : n3xx) : gmap string pyval :=
  if decide (product = PStr "n300")
  then foldl force_internal_lo (init_sync_args args s) lo_source_keys
  else init_sync_args args s.

(** The log of [s'] is that of [s], and more. *)
Definition log_extends (s s' : n3xx) : Prop :=
  ∃ evs, effect_log s' = effect_log s ++ evs.

(** The last setting of the PPS export that a log holds. *)
Definition pps_export_setting (log : list session_event) : option pps_arg :=
  last (omap (λ e, match e with RegEnablePpsOut v => Some v | _ => None end) log).

(** An item that [set_db_eeprom] accepts: its key is not one of
    [device_info], and its value is an ASCII string. *)
Definition writable_item (info : gmap string blob) (item : string * blob) : Prop :=
  info !! item.1 = None
  ∧ ∃ s, item.2 = BStr s ∧ Forall (λ c, (c < 128)%N) s.

(** A board that has stored [user]. *)
Definition with_user_eeprom_data (user : gmap string blob) (db : eeprom_dboard)
  : eeprom_dboard :=
  {| device_info := device_info db;
     get_user_eeprom_data := Some (Returns user);
     set_user_eeprom_data := set_user_eeprom_data db |}.

(** ** The monitor thread and tear-down *)

(** The sampling cycles begun in a run of events: each begins with the
    write to the GPS LED. *)
Definition sampling_cycles (evs : list monitor_event) : nat :=
  foldr (λ e acc, match e with
                  | BpLedSet led _ => if decide (led = "LED_GPS") then S acc else acc
                  | _ => acc
                  end) 0%nat evs.

(** The milliseconds waited in a run of events. *)
Definition waited (evs : list monitor_event) : Z :=
  foldr (λ e acc, match e with CondWait ms => ms + acc | _ => acc end) 0 evs.

(** The same answers, but for [is_alive]. *)
Definition with_is_alive (alive : bool) (env : tear_down_env) : tear_down_env :=
  {| is_alive := alive; list_active_overlays := list_active_overlays env;
     rm_overlay := rm_overlay env |}.

(** How a run of the loop ends: the events after the last read that showed
    the flag clear, by the statement at which the thread leaves the loop. *)
Inductive monitor_exit : result unit → list monitor_event → Prop :=
| exit_at_loop_test :
    monitor_exit (Ok tt) [ReadTearDown true]
| exit_before_wait gps ref :
    monitor_exit (Ok tt)
      [BpLedSet "LED_GPS" gps; BpLedSet "LED_REF" ref; ReadTearDown true]
| exit_after_wait :
    monitor_exit (Ok tt)
      [CondWait N3XX_MONITOR_THREAD_INTERVAL; ReadTearDown true]
| exit_by_exception gps e :
    monitor_exit (Raise e) [BpLedSet "LED_GPS" gps].

(** ** Devices to run the session, the sensors and the EEPROM methods on *)

(** A session environment in which every call returns and leaves [args]
    alone, one whose base class fails to initialise, and one whose UDP
    backend fails to shut down. *)
Definition quiet_env : session_env :=
  {| super_init := λ a, (a, Ok true); super_deinit := Ok tt;
     xport_mgr_init := λ _ a, (a, Ok tt); xport_mgr_deinit := λ _, Ok tt |}.

Definition failing_init_env : session_env :=
  {| super_init := λ a, (a, Raise DboardError); super_deinit := Ok tt;
     xport_mgr_init := λ _ a, (a, Ok tt); xport_mgr_deinit := λ _, Ok tt |}.

Definition failing_deinit_env : session_env :=
  {| super_init := λ a, (a, Ok true); super_deinit := Ok tt;
     xport_mgr_init := λ _ a, (a, Ok tt);
     xport_mgr_deinit := λ k, if decide (k = "udp") then Raise DboardError else Ok tt |}.

(** The device with the object [s], initialised, of the given product. *)
Definition attached (s : n3xx) (product : string) : mpm_device :=
  {| obj := s; _device_initialized := true; device_info_product := PStr product;
     session_log := [] |}.

(** A device whose initialisation failed. *)
Definition never_initialized : mpm_device :=
  {| obj := n3xx_new "WX"; _device_initialized := false;
     device_info_product := PNone; session_log := [] |}.

Definition external_lo_args : gmap string pyval :=
  {[ "rx_lo_source" := PStr "external"; "pps_export" := PStr "0" ]}.

(** Slot 0 locked, slot 1 without the sensor, slot 2 unlocked. *)
Definition example_ref_locks : list (option (result bool)) :=
  [Some (Ok true); None; Some (Ok false)].

(** A board with a serial number, one user blob, and a setter that
    returns. *)
Definition example_eeprom_db : eeprom_dboard :=
  {| device_info := {[ "serial" := BStr [51%N; 49%N] ]};
     get_user_eeprom_data := Some (Returns {[ "cal" := BBytes [1%N; 2%N] ]});
     set_user_eeprom_data := Some (λ _, Returns tt) |}.

Definition example_eeprom_data : list (string * blob) :=
  [("note", BStr [104%N; 105%N])].

Definition example_pids : dboard_pids :=
  {| MG_PID := 336; EISCAT_PID := 384; RHODIUM_PID := 338 |}.

(** A thread that reads the flag set at its fifth read, and an
    orchestrator whose monitor thread outlives the join. *)
Definition example_monitor_inputs : monitor_inputs :=
  {| tear_down_at := λ n, bool_decide (4 ≤ n)%nat;
     gps_lockok_at := λ _, 1;
     ref_locks_at := λ _, example_ref_locks |}.

Definition example_tear_down_env : tear_down_env :=
  {| is_alive := true; list_active_overlays := ["n310"];
     rm_overlay := λ _, Ok tt |}.

(** * Properties *)

(** ** Running a method *)

Lemma bind_gets {A B} (f : n3xx → A) (k : A → M B) s :
  (gets f ≫= k) s = k (f s) s.
Proof. reflexivity. Qed.

Lemma bind_modify {B} (f : n3xx → n3xx) (k : unit → M B) s :
  (modify f ≫= k) s = k tt (f s).
Proof. reflexivity. Qed.

Lemma bind_emit {B} (e : event) (k : unit → M B) s :
  (emit e ≫= k) s = k tt (add_log [e] s).
Proof. reflexivity. Qed.

Lemma bind_ret {A B} (a : A) (k : A → M B) s : (mret a ≫= k) s = k a s.
Proof. reflexivity. Qed.

Lemma bind_raise {A B} (e : exn) (k : A → M B) s :
  (raise e ≫= k) s = (Raise e, s).
Proof. reflexivity. Qed.

Lemma bind_assert {B} (c : bool) (k : unit → M B) s :
  (assert c ≫= k) s = if c then k tt s else (Raise AssertionError, s).
Proof. by destruct c. Qed.

Lemma bind_run {A B} (m : M A) (k : A → M B) s :
  (m ≫= k) s =
  match m s with
  | (Ok a, s') => k a s'
  | (Raise e, s') => (Raise e, s')
  end.
Proof. reflexivity. Qed.

Lemma bind_assoc {A B C} (m : M A) (k : A → M B) (h : B → M C) s :
  ((m ≫= k) ≫= h) s = (m ≫= (λ a, k a ≫= h)) s.
Proof. rewrite !bind_run. by destruct (m s) as [[a|e] s']. Qed.

(** The log only grows, and appended logs compose. *)
Lemma add_log_nil s : add_log [] s = s.
Proof. destruct s. unfold add_log. simpl. by rewrite app_nil_r. Qed.

Lemma add_log_app evs1 evs2 s :
  add_log evs2 (add_log evs1 s) = add_log (evs1 ++ evs2) s.
Proof. unfold add_log. simpl. by rewrite app_assoc. Qed.

(** [set_sync_source] as a decision list: the three assertions and the
    short-circuit, in the order of the source. *)
Lemma set_sync_source_cases b args s :
  let cs := resolved_clock_source args s in
  let ts := resolved_time_source args s in
  set_sync_source b args s =
    if bool_decide (cs ∈ get_clock_sources) then
      if bool_decide (ts ∈ get_time_sources) then
        if bool_decide (same_pair cs ts s) then (Ok tt, s)
        else if bool_decide ((cs, ts) ∈ valid_sync_sources) then
          apply_sync_source b cs ts (default PNone (args !! "skip_rfic")) s
        else (Raise AssertionError, s)
      else (Raise AssertionError, s)
    else (Raise AssertionError, s).
Proof.
  intros cs ts. unfold set_sync_source.
  rewrite bind_gets, bind_assert. fold (resolved_clock_source args s). fold cs.
  destruct (bool_decide (cs ∈ get_clock_sources)); [|done].
  rewrite bind_gets, bind_assert. fold (resolved_time_source args s). fold ts.
  destruct (bool_decide (ts ∈ get_time_sources)); [|done].
  destruct (decide (cs = _clock_source s)) as [Hc|Hc],
           (decide (ts = _time_source s)) as [Ht|Ht].
  - rewrite (bool_decide_eq_true_2 _ Hc), (bool_decide_eq_true_2 _ Ht).
    rewrite (bool_decide_eq_true_2 (same_pair _ _ _)) by done. done.
  - rewrite (bool_decide_eq_true_2 _ Hc), (bool_decide_eq_false_2 _ Ht).
    rewrite (bool_decide_eq_false_2 (same_pair _ _ _)) by (intros []; done).
    simpl. by rewrite bind_assert.
  - rewrite (bool_decide_eq_false_2 _ Hc).
    rewrite (bool_decide_eq_false_2 (same_pair _ _ _)) by (intros []; done).
    simpl. by rewrite bind_assert.
  - rewrite (bool_decide_eq_false_2 _ Hc).
    rewrite (bool_decide_eq_false_2 (same_pair _ _ _)) by (intros []; done).
    simpl. by rewrite bind_assert.
Qed.

Lemma set_clock_source_cases b cs s :
  set_clock_source b cs s =
  if bool_decide (cs ≠ PNone) && bool_decide (_time_source s ≠ PNone) then
    set_sync_source b (clock_source_request cs (_time_source s)) s
  else (Raise AssertionError, s).
Proof.
  unfold set_clock_source. rewrite bind_gets, bind_assert.
  destruct (bool_decide (cs ≠ PNone)); [|done]. rewrite bind_assert.
  by destruct (bool_decide (_time_source s ≠ PNone)).
Qed.

Lemma set_time_source_cases b ts s :
  set_time_source b ts s =
  if bool_decide (_clock_source s ≠ PNone) && bool_decide (ts ≠ PNone) then
    set_sync_source b (time_source_request (_clock_source s) ts) s
  else (Raise AssertionError, s).
Proof.
  unfold set_time_source. rewrite bind_gets, bind_assert.
  destruct (bool_decide (_clock_source s ≠ PNone)); [|done]. rewrite bind_assert.
  by destruct (bool_decide (ts ≠ PNone)).
Qed.

Lemma bind_get_ref_clock_freq {B} (k : option Z → M B) s :
  (get_ref_clock_freq ≫= k) s =
  match ref_clock_freq_table (_ext_clock_freq s) (_clock_source s) with
  | Ok v => k v s
  | Raise e => (Raise e, s)
  end.
Proof.
  rewrite bind_run. unfold get_ref_clock_freq.
  by destruct (ref_clock_freq_table _ _).
Qed.

Ltac fields :=
  cbn [_ext_clock_freq _clock_source _time_source _available_endpoints
       fpga_type wr_reads effect_log add_log with_clock_source with_time_source
       with_ext_clock_freq with_available_endpoints with_wr_reads
       store_clock_source store_time_source fst snd] in *.

Ltac mred := cbv beta iota; unfold mret, M_ret, raise; cbv beta iota.

Lemma with_clock_source_add_log v evs s :
  with_clock_source v (add_log evs s) = add_log evs (with_clock_source v s).
Proof. reflexivity. Qed.

Lemma with_time_source_add_log v evs s :
  with_time_source v (add_log evs s) = add_log evs (with_time_source v s).
Proof. reflexivity. Qed.

Lemma with_wr_reads_add_log n evs s :
  with_wr_reads n (add_log evs s) = add_log evs (with_wr_reads n s).
Proof. reflexivity. Qed.

Lemma with_wr_reads_twice n m s :
  with_wr_reads n (with_wr_reads m s) = with_wr_reads n s.
Proof. reflexivity. Qed.

Lemma with_wr_reads_same s : with_wr_reads (wr_reads s) s = s.
Proof. by destruct s. Qed.

Lemma wr_reads_add_log evs s : wr_reads (add_log evs s) = wr_reads s.
Proof. reflexivity. Qed.

Lemma wr_reads_with_wr_reads n s : wr_reads (with_wr_reads n s) = n.
Proof. reflexivity. Qed.

Lemma wr_reads_with_time_source v s : wr_reads (with_time_source v s) = wr_reads s.
Proof. reflexivity. Qed.

Lemma wr_reads_with_clock_source v s : wr_reads (with_clock_source v s) = wr_reads s.
Proof. reflexivity. Qed.

Create Rewrite HintDb state.

#[global] Hint Rewrite with_clock_source_add_log with_time_source_add_log
  with_wr_reads_add_log with_wr_reads_twice add_log_app wr_reads_add_log
  wr_reads_with_wr_reads wr_reads_with_time_source wr_reads_with_clock_source
  : state.

(** Both sides are brought to the form [add_log evs (with_... s)]. *)
Ltac state_eq :=
  unfold store_clock_source, store_time_source;
  autorewrite with state;
  repeat (f_equal; try lia; rewrite <- ?app_assoc; simpl; try reflexivity).

Lemma safe_loop_ok i l s :
  Forall safe_returns l →
  for_enumerate safe_state_body i l s = (Ok tt, add_log (safe_state_calls i l) s).
Proof.
  intros H. revert i s. induction H as [|db l Hdb _ IH]; intros i s.
  - simpl. by rewrite add_log_nil.
  - cbn [for_enumerate safe_state_calls]. rewrite bind_run.
    unfold safe_state_body at 1. unfold safe_returns in Hdb.
    destruct (db_set_clk_safe_state db) as [[]|]; [|done|].
    + rewrite bind_emit. mred. rewrite IH. f_equal.
      rewrite add_log_app. done.
    + mred. apply IH.
Qed.

Lemma safe_loop_raises i l s :
  ¬ Forall safe_returns l →
  ∃ evs, for_enumerate safe_state_body i l s = (Raise DboardError, add_log evs s)
         ∧ Forall is_safe_state_call evs.
Proof.
  revert i s. induction l as [|db l IH]; intros i s Hn.
  - destruct Hn. constructor.
  - cbn [for_enumerate]. rewrite bind_run. unfold safe_state_body at 1.
    destruct (db_set_clk_safe_state db) as [[]|] eqn:E.
    + rewrite bind_emit. mred.
      destruct (IH (S i) (add_log [DbSetClkSafeState i] s)) as (evs & -> & Hevs).
      { intros Hl. apply Hn. constructor; [|done]. unfold safe_returns. by rewrite E. }
      exists (DbSetClkSafeState i :: evs). rewrite add_log_app. split; [done|].
      constructor; [exact I|done].
    + rewrite bind_emit. mred.
      exists [DbSetClkSafeState i]. split; [done|]. repeat constructor.
    + mred. apply IH. intros Hl. apply Hn. constructor; [|done].
      unfold safe_returns. by rewrite E.
Qed.

(** Every capable board is called, in slot order, and no other. *)
Lemma safe_state_calls_spec l i e :
  e ∈ safe_state_calls i l ↔
  ∃ k db, l !! k = Some db ∧ is_Some (db_set_clk_safe_state db)
          ∧ e = DbSetClkSafeState (i + k).
Proof.
  revert i. induction l as [|db l IH]; intros i; simpl.
  - split; [by intros ?%elem_of_nil|]. by intros (k & d & ? & _).
  - destruct (db_set_clk_safe_state db) as [r|] eqn:E.
    + rewrite elem_of_cons, IH. split.
      * intros [->|(k & d & Hk & Hd & ->)].
        -- exists 0%nat, db. rewrite E, Nat.add_0_r. eauto.
        -- exists (S k), d. rewrite Nat.add_succ_r. eauto.
      * intros ([|k] & d & Hk & Hd & ->); simpl in Hk.
        -- left. by rewrite Nat.add_0_r.
        -- right. exists k, d. rewrite Nat.add_succ_r. eauto.
    + rewrite IH. split.
      * intros (k & d & Hk & Hd & ->). exists (S k), d.
        rewrite Nat.add_succ_r. eauto.
      * intros ([|k] & d & Hk & Hd & ->); simpl in Hk.
        -- simplify_eq. rewrite E in Hd. by destruct Hd.
        -- exists k, d. rewrite Nat.add_succ_r. eauto.
Qed.

Lemma update_loop_ok f ts cs skip i l s :
  Forall (update_returns f ts cs skip) l →
  for_enumerate (update_body (Some f) ts cs skip) i l s
  = (Ok tt, add_log (update_calls f ts cs skip i l) s).
Proof.
  intros H. revert i s. induction H as [|db l Hdb _ IH]; intros i s.
  - simpl. by rewrite add_log_nil.
  - cbn [for_enumerate update_calls]. rewrite bind_run.
    unfold update_body at 1. cbn [div_1e6]. rewrite bind_ret, bind_emit.
    rewrite Hdb. mred. rewrite IH. f_equal. by rewrite add_log_app.
Qed.

Lemma update_loop_raises f ts cs skip i l s :
  ¬ Forall (update_returns f ts cs skip) l →
  ∃ evs last, for_enumerate (update_body (Some f) ts cs skip) i l s
          = (Raise DboardError, add_log (evs ++ [last]) s)
       ∧ (evs ++ [last]) `prefix_of` update_calls f ts cs skip i l.
Proof.
  revert i s. induction l as [|db l IH]; intros i s Hn.
  - destruct Hn. constructor.
  - cbn [for_enumerate update_calls]. rewrite bind_run.
    unfold update_body at 1. cbn [div_1e6]. rewrite bind_ret, bind_emit.
    destruct (db_update_ref_clock_freq db f ts cs skip) eqn:E.
    + mred.
      destruct (IH (S i) (add_log [DbUpdateRefClockFreq i f ts cs skip] s))
        as (evs & last & -> & Hevs).
      { intros Hl. apply Hn. by constructor. }
      exists (DbUpdateRefClockFreq i f ts cs skip :: evs), last.
      rewrite add_log_app. split; [done|]. simpl. by apply prefix_cons.
    + mred. exists [], (DbUpdateRefClockFreq i f ts cs skip).
      split; [done|]. simpl. apply prefix_cons, prefix_nil.
Qed.

(** Every board is called, in slot order, with the same arguments. *)
Lemma update_calls_lookup f ts cs skip l i k :
  (k < length l)%nat →
  update_calls f ts cs skip i l !! k = Some (DbUpdateRefClockFreq (i + k) f ts cs skip).
Proof.
  revert i k. induction l as [|db l IH]; intros i k Hk; simpl in *; [lia|].
  destruct k as [|k]; simpl.
  - by rewrite Nat.add_0_r.
  - rewrite IH by lia. by rewrite Nat.add_succ_r.
Qed.

Lemma update_calls_length f ts cs skip l i :
  length (update_calls f ts cs skip i l) = length l.
Proof. revert i. induction l; intros i; simpl; [done|]. by rewrite IHl. Qed.

Lemma bind_set_mainsel {B} cs (k : unit → M B) s :
  (set_mainsel cs ≫= k) s = k tt (add_log (mainsel_writes cs) s).
Proof.
  rewrite bind_run. unfold set_mainsel, mainsel_writes.
  repeat case_decide; rewrite !bind_emit; unfold emit, modify; mred;
    by rewrite !add_log_app.
Qed.

Lemma mainsel_levels_exclusive cs1 cs2 :
  cs1 ∈ get_clock_sources → cs2 ∈ get_clock_sources →
  mainsel_levels cs1 = mainsel_levels cs2 → cs1 = cs2.
Proof.
  unfold get_clock_sources. rewrite !elem_of_cons, !elem_of_nil.
  intros [->|[->|[->|[]]]] [->|[->|[->|[]]]]; vm_compute; congruence.
Qed.

Lemma bind_get_time_lock_status {B} b (k : bool → M B) s :
  (get_time_lock_status b ≫= k) s =
  k (wr_time_lock_status b (wr_reads s))
    (add_log [WrGetTimeLockStatus (wr_time_lock_status b (wr_reads s))]
       (with_wr_reads (S (wr_reads s)) s)).
Proof. reflexivity. Qed.

Lemma poll_loop_times_out b n s :
  (∀ j, (j < n)%nat → wr_time_lock_status b (wr_reads s + j) = false) →
  poll_loop (get_time_lock_status b) 1000 n s
  = (Ok false, add_log (poll_misses n) (with_wr_reads (wr_reads s + n) s)).
Proof.
  revert s. induction n as [|n IH]; intros s H.
  - simpl. mred. rewrite Nat.add_0_r, with_wr_reads_same, add_log_nil. done.
  - cbn [poll_loop poll_misses]. rewrite bind_get_time_lock_status.
    specialize (H 0%nat ltac:(lia)) as H0. rewrite Nat.add_0_r in H0.
    rewrite H0. rewrite bind_emit. rewrite IH.
    + f_equal. state_eq.
    + intros j Hj. autorewrite with state. specialize (H (S j) ltac:(lia)).
      by rewrite Nat.add_succ_r in H.
Qed.

Lemma poll_loop_locks b n k s :
  (k < n)%nat →
  wr_time_lock_status b (wr_reads s + k) = true →
  (∀ j, (j < k)%nat → wr_time_lock_status b (wr_reads s + j) = false) →
  poll_loop (get_time_lock_status b) 1000 n s
  = (Ok true, add_log (poll_misses k ++ [WrGetTimeLockStatus true])
                (with_wr_reads (wr_reads s + S k) s)).
Proof.
  revert k s. induction n as [|n IH]; intros k s Hk Ht Hf; [lia|].
  cbn [poll_loop]. rewrite bind_get_time_lock_status.
  destruct k as [|k].
  - rewrite Nat.add_0_r in Ht. rewrite Ht. mred. f_equal. state_eq.
  - specialize (Hf 0%nat ltac:(lia)) as H0. rewrite Nat.add_0_r in H0.
    rewrite H0, bind_emit. rewrite (IH k).
    + f_equal. state_eq.
    + lia.
    + autorewrite with state. by rewrite Nat.add_succ_comm.
    + intros j Hj. autorewrite with state. specialize (Hf (S j) ltac:(lia)).
      by rewrite Nat.add_succ_r in Hf.
Qed.

(** Within [n] reads the status is true at a first read, or at none. *)
Lemma first_lock_or_none b (n r : nat) :
  (∃ k, (k < n)%nat ∧ wr_time_lock_status b (r + k) = true
        ∧ ∀ j, (j < k)%nat → wr_time_lock_status b (r + j) = false)
  ∨ (∀ j, (j < n)%nat → wr_time_lock_status b (r + j) = false).
Proof.
  induction n as [|n [(k & Hk & Ht & Hf)|Hnone]].
  - right. intros j Hj. lia.
  - left. exists k. split; [lia|done].
  - destruct (wr_time_lock_status b (r + n)) eqn:E.
    + left. exists n. split; [lia|]. split; [done|]. intros j Hj. apply Hnone, Hj.
    + right. intros j Hj. destruct (decide (j = n)) as [->|]; [done|].
      apply Hnone. lia.
Qed.

Lemma poll_count : Z.to_nat ((40000 + 1000 - 1) / 1000) = 40%nat.
Proof. reflexivity. Qed.

Lemma sfp0_checks_clock b s :
  _clock_source s ≠ PStr "internal" →
  sfp0_checks b (PStr "sfp0") s = (Raise sfp0_clock_error, s).
Proof.
  intros H. unfold sfp0_checks, get_clock_source. rewrite bind_gets.
  rewrite bind_run. rewrite (bool_decide_eq_true_2 (_ ≠ _)) by done.
  rewrite bool_decide_eq_true_2 by (apply elem_of_cons; by left). done.
Qed.

Lemma sfp0_checks_image b s :
  _clock_source s = PStr "internal" →
  fpga_type s ∉ sfp_time_source_images →
  sfp0_checks b (PStr "sfp0") s = (Raise sfp0_image_error, s).
Proof.
  intros Hc Hty. unfold sfp0_checks, get_clock_source. rewrite bind_gets.
  rewrite bind_run. rewrite (bool_decide_eq_false_2 (_ ≠ _)) by (by intros []).
  rewrite andb_false_r. mred. rewrite bind_gets, bind_run.
  by rewrite bool_decide_eq_true_2.
Qed.

Lemma sfp0_checks_poll b s :
  _clock_source s = PStr "internal" →
  fpga_type s ∈ sfp_time_source_images →
  sfp0_checks b (PStr "sfp0") s =
  (locked ← poll_loop (get_time_lock_status b) 1000 40;
   if locked : bool then mret tt
   else get_time_lock_status b ;; raise sfp0_lock_error)
    (add_log [WrRegsOpen] s).
Proof.
  intros Hc Hty. unfold sfp0_checks, get_clock_source. rewrite bind_gets.
  rewrite bind_run. rewrite (bool_decide_eq_false_2 (_ ≠ _)) by (by intros []).
  rewrite andb_false_r. mred. rewrite bind_gets, bind_run.
  rewrite bool_decide_eq_false_2 by (by intros []). mred.
  rewrite bind_emit. unfold poll_with_timeout. by rewrite poll_count.
Qed.

Lemma sfp0_checks_locks b k s :
  _clock_source s = PStr "internal" →
  fpga_type s ∈ sfp_time_source_images →
  (k < 40)%nat →
  wr_time_lock_status b (wr_reads s + k) = true →
  (∀ j, (j < k)%nat → wr_time_lock_status b (wr_reads s + j) = false) →
  sfp0_checks b (PStr "sfp0") s
  = (Ok tt, add_log (WrRegsOpen :: poll_misses k ++ [WrGetTimeLockStatus true])
              (with_wr_reads (wr_reads s + S k) s)).
Proof.
  intros Hc Hty Hk Ht Hf. rewrite sfp0_checks_poll by done.
  rewrite bind_run, (poll_loop_locks b 40 k) by done. mred.
  f_equal. state_eq.
Qed.

Lemma sfp0_checks_times_out b s :
  _clock_source s = PStr "internal" →
  fpga_type s ∈ sfp_time_source_images →
  (∀ j, (j < 40)%nat → wr_time_lock_status b (wr_reads s + j) = false) →
  sfp0_checks b (PStr "sfp0") s
  = (Raise sfp0_lock_error,
     add_log (WrRegsOpen :: poll_misses 40
              ++ [WrGetTimeLockStatus (wr_time_lock_status b (wr_reads s + 40))])
       (with_wr_reads (wr_reads s + 41) s)).
Proof.
  intros Hc Hty Hf. rewrite sfp0_checks_poll by done.
  rewrite bind_run, (poll_loop_times_out b 40) by done. mred.
  rewrite bind_get_time_lock_status. mred. f_equal. state_eq.
Qed.

Lemma table_supported ext cs :
  cs ∈ get_clock_sources →
  ref_clock_freq_table ext cs
  = Ok (if decide (cs = PStr "internal") then Some 25000000
        else if decide (cs = PStr "external") then ext else Some 20000000).
Proof.
  unfold get_clock_sources. rewrite !elem_of_cons, elem_of_nil.
  intros [->|[->|[->|[]]]]; reflexivity.
Qed.

Lemma apply_sync_source_steps b cs ts skip f s :
  Forall safe_returns (dboards b) →
  ref_clock_freq_table (_ext_clock_freq s) cs = Ok (Some f) →
  apply_sync_source b cs ts skip s =
  ((if decide (ts = PStr "sfp0") then sfp0_checks b ts else mret tt) ;;
   for_enumerate (update_body (Some f) ts cs skip) 0%nat (dboards b))
    (after_step_6 b cs ts f s).
Proof.
  intros Hsafe Hf. unfold apply_sync_source.
  rewrite bind_run, safe_loop_ok by done. mred.
  rewrite bind_emit, bind_set_mainsel, bind_modify.
  rewrite bind_get_ref_clock_freq. fields. rewrite Hf.
  rewrite bind_run. cbn [div_1e6]. mred.
  rewrite !bind_emit, bind_modify, bind_get_ref_clock_freq. fields. rewrite Hf.
  rewrite bind_emit. f_equal. unfold after_step_6, steps_1_to_6. state_eq.
Qed.

Lemma apply_sync_source_safe_raises b cs ts skip s :
  ¬ Forall safe_returns (dboards b) →
  ∃ evs, apply_sync_source b cs ts skip s = (Raise DboardError, add_log evs s)
         ∧ Forall is_safe_state_call evs.
Proof.
  intros Hn. unfold apply_sync_source. rewrite bind_run.
  destruct (safe_loop_raises 0 (dboards b) s Hn) as (evs & -> & Hevs).
  by exists evs.
Qed.

Lemma apply_sync_source_no_freq b cs ts skip s :
  Forall safe_returns (dboards b) →
  ref_clock_freq_table (_ext_clock_freq s) cs = Ok None →
  apply_sync_source b cs ts skip s =
  (Raise TypeError,
   add_log (safe_state_calls 0 (dboards b) ++ [RegEnableRefClk false]
            ++ mainsel_writes cs ++ [StoreClockSource cs])
     (with_clock_source cs s)).
Proof.
  intros Hsafe Hf. unfold apply_sync_source.
  rewrite bind_run, safe_loop_ok by done. mred.
  rewrite bind_emit, bind_set_mainsel, bind_modify.
  rewrite bind_get_ref_clock_freq. fields. rewrite Hf.
  rewrite bind_run. cbn [div_1e6]. mred. f_equal. state_eq.
Qed.

(** ** set_sync_source: validation *)

(** C1.  A resolved pair whose components are supported sources, that is
    not the stored pair and is not in [valid_sync_sources], is rejected by
    the last assertion: the call raises AssertionError and hands back the
    object exactly as it was (no event logged, no field assigned). *)
Theorem set_sync_source_rejects_invalid_pair b args s :
  let cs := resolved_clock_source args s in
  let ts := resolved_time_source args s in
  cs ∈ get_clock_sources →
  ts ∈ get_time_sources →
  (cs, ts) ∉ valid_sync_sources →
  ¬ same_pair cs ts s →
  set_sync_source b args s = (Raise AssertionError, s).
Proof.
  intros cs ts Hcs Hts Hinvalid Hdiff. rewrite set_sync_source_cases.
  fold cs ts. rewrite (bool_decide_eq_true_2 _ Hcs), (bool_decide_eq_true_2 _ Hts).
  by rewrite (bool_decide_eq_false_2 _ Hdiff), (bool_decide_eq_false_2 _ Hinvalid).
Qed.

(** C6, as the code has it.  A call whose resolved pair is the stored pair
    hands back the object exactly as it was (nothing logged: no register or
    GPIO write, no daughterboard call).  It returns when the stored sources
    are supported ones, as they are once a pair was applied; when a stored
    field is still unset the membership assertions, which come before the
    short-circuit, make it raise. *)
Theorem set_sync_source_same_pair_noop b args s :
  let cs := resolved_clock_source args s in
  let ts := resolved_time_source args s in
  same_pair cs ts s →
  snd (set_sync_source b args s) = s
  ∧ (_clock_source s ∈ get_clock_sources →
     _time_source s ∈ get_time_sources →
     set_sync_source b args s = (Ok tt, s))
  ∧ (¬ (_clock_source s ∈ get_clock_sources ∧ _time_source s ∈ get_time_sources) →
     set_sync_source b args s = (Raise AssertionError, s)).
Proof.
  intros cs ts Hsame. rewrite set_sync_source_cases. fold cs ts.
  rewrite (bool_decide_eq_true_2 (same_pair _ _ _)) by done.
  destruct Hsame as [Hc Ht]. rewrite Hc, Ht. split_and!.
  - by repeat case_bool_decide.
  - intros Hcs Hts.
    by rewrite (bool_decide_eq_true_2 _ Hcs), (bool_decide_eq_true_2 _ Hts).
  - intros Hn. repeat case_bool_decide; tauto.
Qed.

(** ** set_sync_source: the order of the apply sequence *)

Lemma valid_sfp0_internal cs :
  (cs, PStr "sfp0") ∈ valid_sync_sources → cs = PStr "internal".
Proof.
  unfold valid_sync_sources. rewrite !elem_of_cons, elem_of_nil.
  intros [?|[?|[?|[?|[?|[]]]]]]; congruence.
Qed.

Lemma valid_supported cs ts :
  (cs, ts) ∈ valid_sync_sources →
  cs ∈ get_clock_sources ∧ ts ∈ get_time_sources.
Proof.
  unfold valid_sync_sources. rewrite !elem_of_cons, elem_of_nil.
  intros [?|[?|[?|[?|[?|[]]]]]]; simplify_eq; split; compute_done.
Qed.

Lemma apply_sync_source_ok b cs ts skip s s' :
  (cs, ts) ∈ valid_sync_sources →
  apply_sync_source b cs ts skip s = (Ok tt, s') →
  ∃ f k,
    ref_clock_freq_table (_ext_clock_freq s) cs = Ok (Some f)
    ∧ (k < 40)%nat
    ∧ s' = add_log (sfp0_events ts k ++ update_calls f ts cs skip 0 (dboards b))
             (with_wr_reads
                (if decide (ts = PStr "sfp0") then wr_reads s + S k else wr_reads s)%nat
                (after_step_6 b cs ts f s)).
Proof.
  intros Hvalid Hrun. destruct (valid_supported _ _ Hvalid) as [Hcs Hts].
  destruct (decide (Forall safe_returns (dboards b))) as [Hsafe|Hsafe]; last first.
  { destruct (apply_sync_source_safe_raises b cs ts skip s Hsafe) as (evs & E & _).
    congruence. }
  pose proof (table_supported (_ext_clock_freq s) cs Hcs) as Htab.
  destruct (if decide (cs = PStr "internal") then Some 25000000
            else if decide (cs = PStr "external") then _ext_clock_freq s
                 else Some 20000000) as [f|] eqn:Ef; last first.
  { rewrite (apply_sync_source_no_freq b cs ts skip s Hsafe Htab) in Hrun.
    congruence. }
  exists f. rewrite (apply_sync_source_steps b cs ts skip f s Hsafe Htab) in Hrun.
  set (s6 := after_step_6 b cs ts f s) in *.
  assert (∀ s7, for_enumerate (update_body (Some f) ts cs skip) 0%nat (dboards b) s7
                    = (Ok tt, s') →
                    s' = add_log (update_calls f ts cs skip 0 (dboards b)) s7) as Hupd.
  { intros s7 Hloop.
    destruct (decide (Forall (update_returns f ts cs skip) (dboards b))) as [Hu|Hu].
    - rewrite update_loop_ok in Hloop by done. congruence.
    - destruct (update_loop_raises f ts cs skip 0 (dboards b) s7 Hu)
        as (? & ? & E & _). congruence. }
  unfold sfp0_events. rewrite bind_run in Hrun.
  destruct (decide (ts = PStr "sfp0")) as [->|Hne].
  - apply valid_sfp0_internal in Hvalid as ->.
    destruct (decide (fpga_type s6 ∈ sfp_time_source_images)) as [Hty|Hty]; last first.
    { by rewrite sfp0_checks_image in Hrun. }
    destruct (first_lock_or_none b 40 (wr_reads s6)) as [(k & Hk & Ht & Hf)|Hnone].
    + exists k. rewrite (sfp0_checks_locks b k) in Hrun by done.
      apply Hupd in Hrun as ->. split; [done|]. split; [done|].
      state_eq.
    + by rewrite sfp0_checks_times_out in Hrun.
  - exists 0%nat. mred. apply Hupd in Hrun as ->.
    split; [done|]. split; [lia|]. destruct s. state_eq.
Qed.

Lemma safe_loop_raises_prefix i l s :
  ¬ Forall safe_returns l →
  ∃ evs, for_enumerate safe_state_body i l s = (Raise DboardError, add_log evs s)
         ∧ evs `prefix_of` safe_state_calls i l.
Proof.
  revert i s. induction l as [|db l IH]; intros i s Hn.
  - destruct Hn. constructor.
  - cbn [for_enumerate safe_state_calls]. rewrite bind_run.
    unfold safe_state_body at 1.
    destruct (db_set_clk_safe_state db) as [[]|] eqn:E.
    + rewrite bind_emit. mred.
      destruct (IH (S i) (add_log [DbSetClkSafeState i] s)) as (evs & -> & Hevs).
      { intros Hl. apply Hn. constructor; [|done]. unfold safe_returns. by rewrite E. }
      exists (DbSetClkSafeState i :: evs). rewrite add_log_app. split; [done|].
      by apply prefix_cons.
    + rewrite bind_emit. mred.
      exists [DbSetClkSafeState i]. split; [done|]. apply prefix_cons, prefix_nil.
    + mred. apply IH. intros Hl. apply Hn. constructor; [|done].
      unfold safe_returns. by rewrite E.
Qed.

Lemma safe_state_calls_only i l : Forall is_safe_state_call (safe_state_calls i l).
Proof.
  revert i. induction l as [|db l IH]; intros i; simpl; [constructor|].
  destruct (db_set_clk_safe_state db); [constructor; [exact I|]|]; apply IH.
Qed.

Lemma step_7_passes_first b ts s k :
  step_7_passes b ts s k →
  ts = PStr "sfp0" →
  fpga_type s ∈ sfp_time_source_images
  ∧ (k < 40)%nat
  ∧ wr_time_lock_status b (wr_reads s + k) = true
  ∧ ∀ j, (j < k)%nat → wr_time_lock_status b (wr_reads s + j) = false.
Proof.
  unfold step_7_passes. intros H ->. rewrite decide_True in H by done.
  destruct H as (Hty & Hk & Ht & Hf). split_and!; [done..|].
  intros j Hj. rewrite Forall_forall in Hf. apply Hf, elem_of_seq. lia.
Qed.

Lemma step_7_passes_intro b s k :
  fpga_type s ∈ sfp_time_source_images →
  (k < 40)%nat →
  wr_time_lock_status b (wr_reads s + k) = true →
  (∀ j, (j < k)%nat → wr_time_lock_status b (wr_reads s + j) = false) →
  step_7_passes b (PStr "sfp0") s k.
Proof.
  intros Hty Hk Ht Hf. unfold step_7_passes. rewrite decide_True by done.
  split_and!; [done..|]. apply Forall_forall. intros j Hj%elem_of_seq.
  apply Hf. lia.
Qed.

Lemma poll_misses_timing n : Forall is_timing_core_event (poll_misses n).
Proof. induction n; simpl; repeat constructor; done. Qed.

(** The run of [apply_sync_source] for a whitelisted pair is one of the
    five outcomes. *)
Lemma apply_sync_source_outcome b cs ts skip s :
  (cs, ts) ∈ valid_sync_sources →
  apply_outcome b cs ts skip s (apply_sync_source b cs ts skip s).
Proof.
  intros Hvalid. destruct (valid_supported _ _ Hvalid) as [Hcs Hts].
  destruct (decide (Forall safe_returns (dboards b))) as [Hsafe|Hsafe]; last first.
  { unfold apply_sync_source. rewrite bind_run.
    destruct (safe_loop_raises_prefix 0 (dboards b) s Hsafe) as (evs & -> & Hevs).
    by constructor. }
  pose proof (table_supported (_ext_clock_freq s) cs Hcs) as Htab.
  destruct (if decide (cs = PStr "internal") then Some 25000000
            else if decide (cs = PStr "external") then _ext_clock_freq s
                 else Some 20000000) as [f|] eqn:Ef; last first.
  { rewrite (apply_sync_source_no_freq b cs ts skip s Hsafe Htab).
    by constructor. }
  rewrite (apply_sync_source_steps b cs ts skip f s Hsafe Htab).
  set (s6 := after_step_6 b cs ts f s).
  assert (∀ k n evs7, step_7_passes b ts s k → evs7 = sfp0_events ts k →
            apply_outcome b cs ts skip s
              (for_enumerate (update_body (Some f) ts cs skip) 0%nat (dboards b)
                 (add_log evs7 (with_wr_reads n s6)))) as Hupd.
  { intros k n evs7 Hk ->.
    destruct (decide (Forall (update_returns f ts cs skip) (dboards b))) as [Hu|Hu].
    - rewrite update_loop_ok by done. rewrite add_log_app.
      by apply runs_to_the_end.
    - destruct (update_loop_raises f ts cs skip 0 (dboards b)
                  (add_log (sfp0_events ts k) (with_wr_reads n s6)) Hu)
        as (evs & last & -> & Hpre).
      rewrite add_log_app. by apply ends_in_step_8. }
  rewrite bind_run.
  destruct (decide (ts = PStr "sfp0")) as [->|Hne].
  - apply valid_sfp0_internal in Hvalid as ->.
    destruct (decide (fpga_type s ∈ sfp_time_source_images)) as [Hty|Hty]; last first.
    { rewrite sfp0_checks_image by done.
      rewrite <- (add_log_nil s6), <- (with_wr_reads_same s6) at 1.
      apply ends_in_step_7; [done..| |constructor].
      intros k Hk. by destruct (step_7_passes_first _ _ _ _ Hk eq_refl). }
    destruct (first_lock_or_none b 40 (wr_reads s)) as [(k & Hk & Ht & Hf)|Hnone].
    + rewrite (sfp0_checks_locks b k s6) by done.
      apply (Hupd k); [by apply step_7_passes_intro|].
      unfold sfp0_events. by rewrite decide_True.
    + rewrite sfp0_checks_times_out by done.
      apply ends_in_step_7; [done..| |].
      * intros k Hk. destruct (step_7_passes_first _ _ _ _ Hk eq_refl)
          as (_ & Hlt & Ht & _). rewrite Hnone in Ht; [done|lia].
      * constructor; [exact I|]. apply Forall_app. split; [apply poll_misses_timing|].
        by repeat constructor.
  - mred. rewrite <- (add_log_nil s6), <- (with_wr_reads_same s6).
    apply (Hupd 0%nat).
    + unfold step_7_passes. by rewrite decide_False.
    + unfold sfp0_events. by rewrite decide_False.
Qed.

Lemma steps_1_to_3_no_store b cs :
  Forall (λ e, ¬ is_store e)
    (safe_state_calls 0 (dboards b) ++ [RegEnableRefClk false] ++ mainsel_writes cs).
Proof.
  apply Forall_app. split.
  - eapply Forall_impl; [apply safe_state_calls_only|]. intros []; simpl; tauto.
  - unfold mainsel_writes. repeat case_decide; repeat constructor; by intros [].
Qed.

Lemma stores_in_steps_1_to_6 b cs ts f :
  StoreClockSource cs ∈ steps_1_to_6 b cs ts f
  ∧ StoreTimeSource ts ∈ steps_1_to_6 b cs ts f.
Proof.
  unfold steps_1_to_6. rewrite !elem_of_app, !elem_of_cons. tauto.
Qed.

Lemma recorded_in store evs rest new old :
  store ∈ evs → recorded store (evs ++ rest) new old = new.
Proof.
  intros H. unfold recorded. rewrite bool_decide_eq_true_2; [done|].
  apply elem_of_app. by left.
Qed.

Lemma recorded_out store evs new old :
  store ∉ evs → recorded store evs new old = old.
Proof. intros H. unfold recorded. by rewrite bool_decide_eq_false_2. Qed.

(** C2.  A call with a new whitelisted pair runs the apply sequence in
    this order: the safe-state calls of the capable boards, the disable of
    the reference clock, the three CLK-MAINSEL writes of the clock source,
    the assignment of the clock source, the 100 ms sleep, the enable, the
    assignment of the time source, the time-source register write with the
    frequency of the new clock source, for sfp0 the opening of the timing
    core and its lock poll, and one [update_ref_clock_freq] per board with
    that frequency and the two resolved sources.  When no board raises,
    the new clock source has a frequency and step 7 passes, the call
    returns with exactly this appended to the log and both sources stored;
    it returns in no other case; and a call that raises has appended a
    prefix of the sequence, with each source stored exactly if its
    assignment is in that prefix.  The levels the three CLK-MAINSEL lines
    are left at tell the three clock sources apart. *)
Theorem set_sync_source_order b args s :
  let cs := resolved_clock_source args s in
  let ts := resolved_time_source args s in
  let skip := default PNone (args !! "skip_rfic") in
  (cs, ts) ∈ valid_sync_sources →
  ¬ same_pair cs ts s →
  (∀ f k,
     Forall safe_returns (dboards b) →
     ref_clock_freq_table (_ext_clock_freq s) cs = Ok (Some f) →
     step_7_passes b ts s k →
     Forall (update_returns f ts cs skip) (dboards b) →
     ∃ s', set_sync_source b args s = (Ok tt, s')
           ∧ _clock_source s' = cs ∧ _time_source s' = ts
           ∧ effect_log s'
             = effect_log s ++ apply_order b cs ts skip f (sfp0_events ts k))
  ∧ (∀ s', set_sync_source b args s = (Ok tt, s') →
       ∃ f k,
         Forall safe_returns (dboards b)
         ∧ ref_clock_freq_table (_ext_clock_freq s) cs = Ok (Some f)
         ∧ step_7_passes b ts s k
         ∧ Forall (update_returns f ts cs skip) (dboards b)
         ∧ _clock_source s' = cs ∧ _time_source s' = ts
         ∧ effect_log s'
           = effect_log s ++ apply_order b cs ts skip f (sfp0_events ts k))
  ∧ (∀ e s', set_sync_source b args s = (Raise e, s') →
       ∃ f evs7 evs,
         effect_log s' = effect_log s ++ evs
         ∧ evs `prefix_of` apply_order b cs ts skip f evs7
         ∧ (∀ f', ref_clock_freq_table (_ext_clock_freq s) cs = Ok (Some f') → f' = f)
         ∧ Forall is_timing_core_event evs7
         ∧ (ts ≠ PStr "sfp0" → evs7 = [])
         ∧ _clock_source s' = recorded (StoreClockSource cs) evs cs (_clock_source s)
         ∧ _time_source s' = recorded (StoreTimeSource ts) evs ts (_time_source s))
  ∧ (∀ cs', cs' ∈ get_clock_sources →
            mainsel_levels cs' = mainsel_levels cs → cs' = cs).
Proof.
  intros cs ts skip Hvalid Hdiff.
  destruct (valid_supported _ _ Hvalid) as [Hcs Hts].
  assert (set_sync_source b args s = apply_sync_source b cs ts skip s) as Hrun.
  { rewrite set_sync_source_cases. fold cs ts skip.
    rewrite (bool_decide_eq_true_2 _ Hcs), (bool_decide_eq_true_2 _ Hts).
    by rewrite (bool_decide_eq_false_2 _ Hdiff), (bool_decide_eq_true_2 _ Hvalid). }
  rewrite Hrun. clear Hrun.
  pose proof (apply_sync_source_outcome b cs ts skip s Hvalid) as Hout.
  assert (∀ f evs7 n,
            effect_log (add_log evs7 (with_wr_reads n (after_step_6 b cs ts f s)))
            = effect_log s ++ steps_1_to_6 b cs ts f ++ evs7) as Hlog.
  { intros f evs7 n. unfold after_step_6. cbn [effect_log add_log with_wr_reads with_time_source with_clock_source].
    by rewrite <- app_assoc. }
  split_and!.
  - intros f k Hsafe Hf Hk Hupd.
    rewrite (apply_sync_source_steps b cs ts skip f s Hsafe Hf), bind_run.
    destruct (decide (ts = PStr "sfp0")) as [Ets|Ets].
    + destruct (step_7_passes_first _ _ _ _ Hk Ets) as (Hty & Hlt & Ht & Hfirst).
      rewrite Ets in *. apply valid_sfp0_internal in Hvalid. rewrite Hvalid in *.
      rewrite (sfp0_checks_locks b k) by done.
      rewrite update_loop_ok by done. eexists. split; [done|].
      split; [done|]. split; [done|]. rewrite add_log_app, Hlog.
      unfold apply_order, sfp0_events. by rewrite decide_True.
    + mred. rewrite update_loop_ok by done. eexists. split; [done|].
      split; [done|]. split; [done|].
      rewrite <- (with_wr_reads_same (after_step_6 b cs ts f s)), Hlog.
      unfold apply_order, sfp0_events. by rewrite decide_False.
  - intros s' E. rewrite E in Hout.
    inversion Hout as [| | | |f k n Hsafe Hf Hk Hupd]; subst.
    exists f, k. split_and!; [done..|].
    by rewrite Hlog.
  - intros e s' E. rewrite E in Hout.
    pose proof (table_supported (_ext_clock_freq s) cs Hcs) as Htab.
    set (f0 := if decide (cs = PStr "internal") then _ else _) in Htab.
    assert (∀ f', ref_clock_freq_table (_ext_clock_freq s) cs = Ok (Some f') →
                  f' = default 0 f0) as Hfreq.
    { intros f' Hf'. rewrite Htab in Hf'. by injection Hf' as ->. }
    destruct (stores_in_steps_1_to_6 b cs ts (default 0 f0)) as [Hsc Hst].
    exists (default 0 f0).
    inversion Hout as [evs Hsafe Hpre| Hsafe Hf |f e' evs7 n Hsafe Hf Ets Hno Hevs7
                      |f k evs last n Hsafe Hf Hk Hupd Hpre| ]; subst.
    + exists [], evs.
      assert (Forall (λ e, ¬ is_store e) evs) as Hns.
      { apply (Forall_impl is_safe_state_call); [|intros []; simpl; tauto].
        destruct Hpre as [rest Hrest].
        pose proof (safe_state_calls_only 0 (dboards b)) as Hall.
        rewrite Hrest in Hall. by apply Forall_app in Hall as [? _]. }
      rewrite Forall_forall in Hns.
      split_and!; [done| |done|constructor|done| |].
      * unfold apply_order, steps_1_to_6.
        etrans; [exact Hpre|]. rewrite <- !app_assoc. by apply prefix_app_r.
      * rewrite recorded_out; [done|]. intros Hin. by apply (Hns _ Hin).
      * rewrite recorded_out; [done|]. intros Hin. by apply (Hns _ Hin).
    + exists [].
      eexists. split; [reflexivity|].
      pose proof (steps_1_to_3_no_store b cs) as Hns. rewrite Forall_forall in Hns.
      split_and!; [|done|constructor|done| |].
      * unfold apply_order, steps_1_to_6. rewrite <- !app_assoc.
        apply prefix_app. simpl. apply prefix_cons, prefix_app, prefix_cons, prefix_nil.
      * unfold recorded. rewrite bool_decide_eq_true_2; [done|].
        repeat (rewrite elem_of_app || rewrite elem_of_cons). tauto.
      * rewrite recorded_out; [done|]. intros Hin.
        apply elem_of_app in Hin as [Hin|Hin].
        { apply (Hns (StoreTimeSource ts)); [|exact I]. apply elem_of_app. by left. }
        apply elem_of_cons in Hin as [Hin|Hin]; [done|].
        apply elem_of_app in Hin as [Hin|Hin%list_elem_of_singleton]; [|done].
        apply (Hns (StoreTimeSource ts)); [|exact I].
        apply elem_of_app. right. apply elem_of_app. by right.
    + rewrite (Hfreq f Hf) in *. exists evs7. eexists. rewrite Hlog.
      split; [reflexivity|].
      split_and!; [|done|done|done| |].
      * unfold apply_order. rewrite app_assoc. by apply prefix_app_r.
      * by rewrite recorded_in.
      * by rewrite recorded_in.
    + rewrite (Hfreq f Hf) in *. exists (sfp0_events ts k). eexists. rewrite Hlog.
      split; [reflexivity|].
      split_and!; [|done| | | |].
      * unfold apply_order. do 2 apply prefix_app. exact Hpre.
      * unfold sfp0_events. case_decide; [|constructor].
        constructor; [exact I|]. apply Forall_app. split; [apply poll_misses_timing|].
        by repeat constructor.
      * intros Hne. unfold sfp0_events. by rewrite decide_False.
      * by rewrite recorded_in.
      * by rewrite recorded_in.
  - intros cs' Hcs' Hlevels. by apply mainsel_levels_exclusive.
Qed.

Lemma slept_poll_misses n : slept (poll_misses n) = 1000 * Z.of_nat n.
Proof.
  induction n as [|n IH]; [done|].
  change (slept (poll_misses (S n))) with (1000 + slept (poll_misses n)). lia.
Qed.

(** C4.  For a resolved time source sfp0 that changes the stored pair:
    with a clock source other than internal the call raises (the pair is
    not whitelisted, so nothing was written); with clock source internal
    it raises in a safe-state call if a board fails there, and after steps
    1 to 6 if the FPGA type is not one of [sfp_time_source_images];
    otherwise it reads the lock status every 1000 ms, goes on to the
    daughterboard update at the first read that shows the lock, and after
    40 reads without lock, 40000 ms slept, raises the lock error.  In each
    failure after step 6 the object keeps the recorded pair and the whole
    log of steps 1 to 6. *)
Theorem set_sync_source_sfp0 b args s :
  let cs := resolved_clock_source args s in
  let ts := resolved_time_source args s in
  let skip := default PNone (args !! "skip_rfic") in
  let s6 := after_step_6 b cs ts 25000000 s in
  let lock := λ j, wr_time_lock_status b (wr_reads s + j) in
  ts = PStr "sfp0" →
  ¬ same_pair cs ts s →
  (cs ≠ PStr "internal" → set_sync_source b args s = (Raise AssertionError, s))
  ∧ (cs = PStr "internal" → ¬ Forall safe_returns (dboards b) →
     ∃ evs, set_sync_source b args s = (Raise DboardError, add_log evs s)
            ∧ Forall is_safe_state_call evs)
  ∧ (cs = PStr "internal" → Forall safe_returns (dboards b) →
     (fpga_type s ∉ sfp_time_source_images →
      set_sync_source b args s = (Raise sfp0_image_error, s6))
     ∧ (fpga_type s ∈ sfp_time_source_images →
        (∀ j, (j < 40)%nat → lock j = false) →
        set_sync_source b args s
        = (Raise sfp0_lock_error,
           add_log (WrRegsOpen :: poll_misses 40 ++ [WrGetTimeLockStatus (lock 40%nat)])
             (with_wr_reads (wr_reads s + 41) s6))
        ∧ slept (poll_misses 40) = 40000)
     ∧ (fpga_type s ∈ sfp_time_source_images →
        ∀ k, (k < 40)%nat → lock k = true →
             (∀ j, (j < k)%nat → lock j = false) →
        set_sync_source b args s
        = for_enumerate (update_body (Some 25000000) ts cs skip) 0%nat (dboards b)
            (add_log (WrRegsOpen :: poll_misses k ++ [WrGetTimeLockStatus true])
               (with_wr_reads (wr_reads s + S k) s6)))).
Proof.
  intros cs ts skip s6 lock Hts Hdiff. rewrite set_sync_source_cases.
  fold cs ts skip. rewrite (bool_decide_eq_false_2 (same_pair _ _ _)) by done.
  subst s6. rewrite Hts in *. clear Hts.
  rewrite (bool_decide_eq_true_2 (_ ∈ get_time_sources)) by compute_done.
  split_and!.
  - intros Hcs. case_bool_decide; [|done].
    rewrite bool_decide_eq_false_2; [done|]. by intros ?%valid_sfp0_internal.
  - intros Hcs Hsafe. rewrite Hcs in *.
    rewrite !bool_decide_eq_true_2 by compute_done.
    by apply apply_sync_source_safe_raises.
  - intros Hcs Hsafe. rewrite Hcs in *.
    rewrite !bool_decide_eq_true_2 by compute_done.
    rewrite (apply_sync_source_steps b _ _ skip 25000000 s Hsafe) by done.
    rewrite bind_run. cbn [decide_rel]. rewrite decide_True by done.
    split; [|split].
    + intros Hty. by rewrite sfp0_checks_image.
    + intros Hty Hnone. split; [|by rewrite slept_poll_misses].
      by rewrite sfp0_checks_times_out.
    + intros Hty k Hk Ht Hf. by rewrite (sfp0_checks_locks b k).
Qed.

#[global] Instance same_fields_preorder : PreOrder same_fields.
Proof.
  split.
  - intros s. by repeat split.
  - unfold same_fields. intros s1 s2 s3 (?&?&?&?&?) (?&?&?&?&?).
    repeat split; congruence.
Qed.

#[global] Instance same_pool_preorder : PreOrder same_pool.
Proof.
  split.
  - intros s. by repeat split.
  - unfold same_pool. intros s1 s2 s3 (?&?&?) (?&?&?). repeat split; congruence.
Qed.

Section keeps.
Context (R : relation n3xx) `{!PreOrder R}.
Hypothesis R_add_log : ∀ evs s, R s (add_log evs s).
Hypothesis R_wr_reads : ∀ n s, R s (with_wr_reads n s).

Lemma keeps_ret {A} (a : A) : keeps R (mret a).
Proof. intros s. simpl. reflexivity. Qed.

Lemma keeps_raise {A} e : keeps R (@raise A e).
Proof. intros s. simpl. reflexivity. Qed.

Lemma keeps_gets {A} (f : n3xx → A) : keeps R (gets f).
Proof. intros s. simpl. reflexivity. Qed.

Lemma keeps_modify (f : n3xx → n3xx) : (∀ s, R s (f s)) → keeps R (modify f).
Proof. intros Hf s. apply Hf. Qed.

Lemma keeps_emit e : keeps R (emit e).
Proof. apply keeps_modify. intros s. apply R_add_log. Qed.

Lemma keeps_bind {A B} (m : M A) (k : A → M B) :
  keeps R m → (∀ a, keeps R (k a)) → keeps R (m ≫= k).
Proof.
  intros Hm Hk s. rewrite bind_run. specialize (Hm s).
  destruct (m s) as [[a|e] s1]; [|done].
  etrans; [exact Hm|apply Hk].
Qed.

Lemma keeps_for_enumerate {A} (body : nat → A → M unit) i l :
  (∀ i x, keeps R (body i x)) → keeps R (for_enumerate body i l).
Proof.
  intros Hbody. revert i. induction l as [|x l IH]; intros i; simpl.
  - apply keeps_ret.
  - apply keeps_bind; [apply Hbody|]. intros _. apply IH.
Qed.

Lemma keeps_get_time_lock_status b : keeps R (get_time_lock_status b).
Proof.
  intros s. simpl. etrans; [apply (R_wr_reads (S (wr_reads s)))|apply R_add_log].
Qed.

Lemma keeps_poll_loop b ms n : keeps R (poll_loop (get_time_lock_status b) ms n).
Proof.
  induction n as [|n IH]; simpl; [apply keeps_ret|].
  apply keeps_bind; [apply keeps_get_time_lock_status|].
  intros [|]; [apply keeps_ret|].
  apply keeps_bind; [apply keeps_emit|]. intros _. apply IH.
Qed.

Lemma keeps_sfp0_checks b ts : keeps R (sfp0_checks b ts).
Proof.
  unfold sfp0_checks.
  apply keeps_bind; [apply keeps_gets|]. intros cs.
  apply keeps_bind.
  { destruct (_ && _); [apply keeps_raise|apply keeps_ret]. }
  intros _. apply keeps_bind; [apply keeps_gets|]. intros ty.
  apply keeps_bind.
  { destruct (bool_decide _); [apply keeps_raise|apply keeps_ret]. }
  intros _. apply keeps_bind; [apply keeps_emit|]. intros _.
  apply keeps_bind; [apply keeps_poll_loop|].
  intros [|]; [apply keeps_ret|].
  apply keeps_bind; [apply keeps_get_time_lock_status|]. intros _.
  apply keeps_raise.
Qed.

Lemma keeps_update_body f ts cs skip i db :
  keeps R (update_body f ts cs skip i db).
Proof.
  unfold update_body. apply keeps_bind.
  { destruct f; [apply keeps_ret|apply keeps_raise]. }
  intros f'. apply keeps_bind; [apply keeps_emit|]. intros _.
  destruct (db_update_ref_clock_freq _ _ _ _ _); [apply keeps_ret|apply keeps_raise].
Qed.

Lemma keeps_steps_7_8 b f ts cs skip :
  keeps R ((if decide (ts = PStr "sfp0") then sfp0_checks b ts else mret tt) ;;
           for_enumerate (update_body f ts cs skip) 0%nat (dboards b)).
Proof.
  apply keeps_bind.
  - destruct (decide _); [apply keeps_sfp0_checks|apply keeps_ret].
  - intros _. apply keeps_for_enumerate. intros i db. apply keeps_update_body.
Qed.

Lemma keeps_safe_state_body i db : keeps R (safe_state_body i db).
Proof.
  unfold safe_state_body. destruct (db_set_clk_safe_state db) as [[]|].
  - apply keeps_bind; [apply keeps_emit|]. intros _. apply keeps_ret.
  - apply keeps_bind; [apply keeps_emit|]. intros _. apply keeps_raise.
  - apply keeps_ret.
Qed.

Lemma keeps_set_mainsel cs : keeps R (set_mainsel cs).
Proof.
  unfold set_mainsel.
  repeat case_decide;
    repeat (apply keeps_bind; [apply keeps_emit|intros _]); apply keeps_emit.
Qed.

Lemma keeps_get_ref_clock_freq : keeps R get_ref_clock_freq.
Proof. intros s. simpl. reflexivity. Qed.

Lemma keeps_div_1e6 f : keeps R (div_1e6 f).
Proof. destruct f; [apply keeps_ret|apply keeps_raise]. Qed.

(** A relation that also admits the assignment of the two source fields is
    kept by the whole of [set_sync_source] and by the single-source
    setters. *)
Hypothesis R_clock_source : ∀ v s, R s (with_clock_source v s).
Hypothesis R_time_source : ∀ v s, R s (with_time_source v s).

Lemma keeps_apply_sync_source b cs ts skip :
  keeps R (apply_sync_source b cs ts skip).
Proof.
  unfold apply_sync_source.
  apply keeps_bind; [apply keeps_for_enumerate, keeps_safe_state_body|intros _].
  apply keeps_bind; [apply keeps_emit|intros _].
  apply keeps_bind; [apply keeps_set_mainsel|intros _].
  apply keeps_bind.
  { apply keeps_modify. intros s. unfold store_clock_source.
    etrans; [apply R_clock_source|apply R_add_log]. }
  intros _. apply keeps_bind; [apply keeps_get_ref_clock_freq|intros f].
  apply keeps_bind; [apply keeps_div_1e6|intros _].
  apply keeps_bind; [apply keeps_emit|intros _].
  apply keeps_bind; [apply keeps_emit|intros _].
  apply keeps_bind.
  { apply keeps_modify. intros s. unfold store_time_source.
    etrans; [apply R_time_source|apply R_add_log]. }
  intros _. apply keeps_bind; [apply keeps_get_ref_clock_freq|intros f'].
  apply keeps_bind; [apply keeps_emit|intros _].
  apply keeps_steps_7_8.
Qed.

Lemma keeps_set_sync_source b args : keeps R (set_sync_source b args).
Proof.
  intros s. rewrite set_sync_source_cases. cbv zeta.
  repeat case_bool_decide; try (simpl; reflexivity).
  apply keeps_apply_sync_source.
Qed.

Lemma keeps_set_clock_source b cs : keeps R (set_clock_source b cs).
Proof.
  intros s. rewrite set_clock_source_cases.
  destruct (_ && _); [apply keeps_set_sync_source|simpl; reflexivity].
Qed.

Lemma keeps_set_time_source b ts : keeps R (set_time_source b ts).
Proof.
  intros s. rewrite set_time_source_cases.
  destruct (_ && _); [apply keeps_set_sync_source|simpl; reflexivity].
Qed.
End keeps.

Lemma same_fields_add_log evs s : same_fields s (add_log evs s).
Proof. by repeat split. Qed.

Lemma same_fields_wr_reads n s : same_fields s (with_wr_reads n s).
Proof. by repeat split. Qed.

Lemma frames_steps_7_8 b f ts cs skip :
  keeps same_fields
    ((if decide (ts = PStr "sfp0") then sfp0_checks b ts else mret tt) ;;
     for_enumerate (update_body f ts cs skip) 0%nat (dboards b)).
Proof.
  apply keeps_steps_7_8;
    [apply _|apply same_fields_add_log|apply same_fields_wr_reads].
Qed.

(** [set_sync_source] and the single-source setters leave the pool, the
    external frequency and the FPGA type alone, whatever their outcome. *)
Lemma set_sync_source_same_pool b args : keeps same_pool (set_sync_source b args).
Proof. apply keeps_set_sync_source; [apply _|by repeat split..]. Qed.

Lemma set_clock_source_same_pool b cs : keeps same_pool (set_clock_source b cs).
Proof. apply keeps_set_clock_source; [apply _|by repeat split..]. Qed.

Lemma set_time_source_same_pool b ts : keeps same_pool (set_time_source b ts).
Proof. apply keeps_set_time_source; [apply _|by repeat split..]. Qed.

Lemma clocks_initialized_same s s' :
  _ext_clock_freq s' = _ext_clock_freq s →
  _clock_source s' = _clock_source s →
  _time_source s' = _time_source s →
  clocks_initialized s → clocks_initialized s'.
Proof.
  unfold clocks_initialized, sources_valid. intros -> -> ->. done.
Qed.

(** How a call of [set_sync_source] leaves the two fields: untouched, with
    at most safe-state calls logged, or both assigned the whitelisted
    resolved pair. *)
Lemma set_sync_source_outcome b args s r s' :
  is_Some (_ext_clock_freq s) →
  set_sync_source b args s = (r, s') →
  let cs := resolved_clock_source args s in
  let ts := resolved_time_source args s in
  _ext_clock_freq s' = _ext_clock_freq s
  ∧ _available_endpoints s' = _available_endpoints s
  ∧ fpga_type s' = fpga_type s
  ∧ ((_clock_source s' = _clock_source s ∧ _time_source s' = _time_source s
      ∧ (r = Ok tt ∨ r = Raise AssertionError ∨ r = Raise DboardError)
      ∧ ∃ evs, effect_log s' = effect_log s ++ evs ∧ Forall is_safe_state_call evs)
     ∨ ((cs, ts) ∈ valid_sync_sources
        ∧ _clock_source s' = cs ∧ _time_source s' = ts)).
Proof.
  intros [ext Hext] Hrun cs ts. rewrite set_sync_source_cases in Hrun.
  fold cs ts in Hrun.
  assert (∀ r0, (r0 = Ok tt ∨ r0 = Raise AssertionError ∨ r0 = Raise DboardError) →
                (r0, s) = (r, s') →
    _ext_clock_freq s' = _ext_clock_freq s
    ∧ _available_endpoints s' = _available_endpoints s
    ∧ fpga_type s' = fpga_type s
    ∧ ((_clock_source s' = _clock_source s ∧ _time_source s' = _time_source s
        ∧ (r = Ok tt ∨ r = Raise AssertionError ∨ r = Raise DboardError)
        ∧ ∃ evs, effect_log s' = effect_log s ++ evs ∧ Forall is_safe_state_call evs)
       ∨ ((cs, ts) ∈ valid_sync_sources
          ∧ _clock_source s' = cs ∧ _time_source s' = ts))) as Hsame.
  { intros r0 Hr0 [= <- <-]. do 3 (split; [done|]). left.
    do 3 (split; [done|]). exists []. by rewrite app_nil_r. }
  repeat case_bool_decide; try (eapply Hsame; [|exact Hrun]; tauto).
  clear Hsame.
  destruct (decide (Forall safe_returns (dboards b))) as [Hsafe|Hsafe]; last first.
  { destruct (apply_sync_source_safe_raises b cs ts
                (default PNone (args !! "skip_rfic")) s Hsafe) as (evs & E & Hevs).
    rewrite E in Hrun. injection Hrun as <- <-. fields.
    do 3 (split; [done|]). left. do 2 (split; [done|]). split; [tauto|].
    by exists evs. }
  assert (∃ f, ref_clock_freq_table (_ext_clock_freq s) cs = Ok (Some f)) as [f Hf].
  { rewrite table_supported by done. rewrite Hext. repeat case_decide; eauto. }
  rewrite (apply_sync_source_steps b cs ts _ f s Hsafe Hf) in Hrun.
  pose proof (frames_steps_7_8 b (Some f) ts cs
                (default PNone (args !! "skip_rfic")) (after_step_6 b cs ts f s))
    as Hfr.
  rewrite Hrun in Hfr. destruct Hfr as (? & ? & ? & ? & ?). fields.
  do 3 (split; [done|]). right. done.
Qed.

Lemma set_sync_source_initialized b args s :
  clocks_initialized s → clocks_initialized (snd (set_sync_source b args s)).
Proof.
  intros [Hext Hval]. destruct (set_sync_source b args s) as [r s'] eqn:Hrun.
  destruct (set_sync_source_outcome b args s r s' Hext Hrun)
    as (He & _ & _ & [(Hc & Ht & _)|(Hv & Hc & Ht)]); simpl.
  - by apply (clocks_initialized_same s).
  - split; [by rewrite He|]. intros _ _. by rewrite Hc, Ht.
Qed.

Lemma set_clock_source_initialized b cs s :
  clocks_initialized s → clocks_initialized (snd (set_clock_source b cs s)).
Proof.
  intros H. rewrite set_clock_source_cases.
  destruct (_ && _); [by apply set_sync_source_initialized|done].
Qed.

Lemma set_time_source_initialized b ts s :
  clocks_initialized s → clocks_initialized (snd (set_time_source b ts s)).
Proof.
  intros H. rewrite set_time_source_cases.
  destruct (_ && _); [by apply set_sync_source_initialized|done].
Qed.

Lemma set_ref_clock_freq_initialized b f s :
  clocks_initialized s → clocks_initialized (snd (set_ref_clock_freq b f s)).
Proof.
  intros H. unfold set_ref_clock_freq.
  case_bool_decide; [done|]. rewrite bind_gets.
  case_bool_decide; [done|]. unfold get_time_source, get_clock_source.
  rewrite bind_gets. destruct (_ && _); [done|].
  rewrite bind_modify, bind_gets. fields.
  assert (clocks_initialized (with_ext_clock_freq (Some f) s)) as H'.
  { destruct H as [_ Hv]. split; [by eexists|done]. }
  case_bool_decide; [|done]. rewrite bind_gets.
  by apply set_time_source_initialized.
Qed.

(** The pair that the single-source setters hand on is whitelisted
    whenever the requested source is a supported one. *)
Lemma clock_companion_valid cs ts :
  cs ∈ get_clock_sources → (cs, clock_companion cs ts) ∈ valid_sync_sources.
Proof.
  intros Hcs. unfold clock_companion. case_bool_decide as Hv.
  - revert Hcs. unfold get_clock_sources. rewrite !elem_of_cons, elem_of_nil.
    intros [->|[->|[->|[]]]]; compute_done.
  - done.
Qed.

Lemma time_companion_valid cs ts :
  ts ∈ get_time_sources → (time_companion cs ts, ts) ∈ valid_sync_sources.
Proof.
  intros Hts. unfold time_companion. case_bool_decide as Hv.
  - revert Hts. unfold get_time_sources. rewrite !elem_of_cons, elem_of_nil.
    intros [->|[->|[->|[->|[]]]]]; compute_done.
  - done.
Qed.

Lemma resolved_clock_source_request cs ts s :
  resolved_clock_source (clock_source_request cs ts) s = cs
  ∧ resolved_time_source (clock_source_request cs ts) s = clock_companion cs ts.
Proof.
  unfold resolved_clock_source, resolved_time_source, clock_source_request.
  rewrite lookup_insert_eq, lookup_insert_ne, lookup_singleton_eq by done. done.
Qed.

Lemma resolved_time_source_request cs ts s :
  resolved_clock_source (time_source_request cs ts) s = time_companion cs ts
  ∧ resolved_time_source (time_source_request cs ts) s = ts.
Proof.
  unfold resolved_clock_source, resolved_time_source, time_source_request.
  rewrite lookup_insert_eq, lookup_insert_ne, lookup_singleton_eq by done. done.
Qed.

(** A requested source that is not a supported one is handed on as it is,
    and [set_sync_source] rejects it. *)
Lemma set_clock_source_unsupported b cs s :
  cs ∉ get_clock_sources → set_clock_source b cs s = (Raise AssertionError, s).
Proof.
  intros Hcs. rewrite set_clock_source_cases. destruct (_ && _); [|done].
  rewrite set_sync_source_cases. cbv zeta.
  destruct (resolved_clock_source_request cs (_time_source s) s) as [-> _].
  by rewrite (bool_decide_eq_false_2 _ Hcs).
Qed.

Lemma set_time_source_unsupported b ts s :
  ts ∉ get_time_sources → set_time_source b ts s = (Raise AssertionError, s).
Proof.
  intros Hts. rewrite set_time_source_cases. destruct (_ && _); [|done].
  rewrite set_sync_source_cases. cbv zeta.
  destruct (resolved_time_source_request (_clock_source s) ts s) as [_ ->].
  rewrite (bool_decide_eq_false_2 _ Hts). by case_bool_decide.
Qed.

Lemma lift_result_state {A} (r : result A) s : snd (lift_result r s) = s.
Proof. by destruct r. Qed.

Lemma pick_src_address_cases suggested s :
  pick_src_address suggested s =
  if bool_decide (suggested ∈ _available_endpoints s) then (Ok suggested, s)
  else match _available_endpoints s with
       | [] => (Raise depleted_error, s)
       | first :: _ => (Ok first, s)
       end.
Proof.
  unfold pick_src_address. rewrite bind_gets.
  destruct (decide (suggested ∈ _available_endpoints s)) as [Hin|Hin].
  - rewrite bool_decide_eq_false_2 by (by intros ?).
    by rewrite bool_decide_eq_true_2.
  - rewrite bool_decide_eq_true_2, bool_decide_eq_false_2 by done.
    by destruct (_available_endpoints s).
Qed.

Lemma request_xport_picked b x dst suggested ty s src :
  rpc_connection b ∈ ["remote"; "local"] →
  pick_src_address suggested s = (Ok src, s) →
  request_xport b x dst suggested ty s
  = lift_result (mgr_request_xport (selected_mgr b x)
                   (Z.lor (Z.shiftl src 16) dst) ty) s.
Proof.
  intros Hrpc Hpick. unfold request_xport. rewrite bind_run, Hpick.
  rewrite bind_assert, bool_decide_eq_true_2 by done. unfold selected_mgr.
  destruct (decide (rpc_connection b = "remote")) as [|Hr]; [done|].
  destruct (decide (rpc_connection b = "local")) as [|Hl]; [done|].
  revert Hrpc. rewrite !elem_of_cons, elem_of_nil. tauto.
Qed.

Lemma request_xport_state b x dst suggested ty s :
  snd (request_xport b x dst suggested ty s) = s.
Proof.
  unfold request_xport. rewrite bind_run, pick_src_address_cases.
  assert (∀ src, snd ((assert (bool_decide (rpc_connection b ∈ ["remote"; "local"])) ;;
     if decide (rpc_connection b = "remote") then
       lift_result (mgr_request_xport (udp x) (Z.lor (Z.shiftl src 16) dst) ty)
     else if decide (rpc_connection b = "local") then
       lift_result (mgr_request_xport (liberio x) (Z.lor (Z.shiftl src 16) dst) ty)
     else mret None) s) = s) as Hrest.
  { intros src. rewrite bind_assert. destruct (bool_decide _); [|done].
    repeat case_decide; try apply lift_result_state. done. }
  destruct (bool_decide (suggested ∈ _available_endpoints s)); [apply Hrest|].
  destruct (_available_endpoints s); [done|apply Hrest].
Qed.

Lemma StronglySorted_head_least (a : Z) (l : list Z) (y : Z) :
  StronglySorted Z.lt (a :: l) → y ∈ a :: l → (a ≤ y)%Z.
Proof.
  intros Hs Hy. apply StronglySorted_inv in Hs as [_ Hall].
  apply elem_of_cons in Hy as [->|Hy]; [lia|].
  rewrite Forall_forall in Hall. specialize (Hall y Hy). lia.
Qed.

(** C7.  With the pool in ascending order (as it always is, see
    [pool_sorted_new] and [pool_sorted_kept]) and the connection mode one
    of the two backends: a free suggested address is the one passed on; else
    the least free address is; with an empty pool the call raises the
    depleted-pool error; and whatever the outcome the object, and so the
    pool, is the one the call started from. *)
Theorem request_xport_choice b x dst suggested ty s :
  let pool := _available_endpoints s in
  let tentative := λ src,
    lift_result (mgr_request_xport (selected_mgr b x)
                   (Z.lor (Z.shiftl src 16) dst) ty) s in
  StronglySorted Z.lt pool →
  rpc_connection b ∈ ["remote"; "local"] →
  snd (request_xport b x dst suggested ty s) = s
  ∧ (suggested ∈ pool →
     request_xport b x dst suggested ty s = tentative suggested)
  ∧ (suggested ∉ pool → pool ≠ [] →
     ∃ lowest, lowest ∈ pool ∧ (∀ a, a ∈ pool → (lowest ≤ a)%Z)
               ∧ request_xport b x dst suggested ty s = tentative lowest)
  ∧ (pool = [] →
     request_xport b x dst suggested ty s = (Raise depleted_error, s)).
Proof.
  intros pool tentative Hsorted Hrpc. subst pool tentative. cbv beta.
  split; [apply request_xport_state|]. split; [|split].
  - intros Hin. apply (request_xport_picked b x dst suggested ty s suggested Hrpc).
    rewrite pick_src_address_cases. by rewrite bool_decide_eq_true_2.
  - intros Hout Hne.
    destruct (_available_endpoints s) as [|first rest] eqn:E; [done|].
    exists first. split; [by left|]. split.
    + intros a Ha. by apply (StronglySorted_head_least first rest).
    + apply (request_xport_picked b x dst suggested ty s first Hrpc).
      rewrite pick_src_address_cases, E. by rewrite bool_decide_eq_false_2.
  - intros Hempty. unfold request_xport.
    rewrite bind_run, pick_src_address_cases, Hempty.
    rewrite bool_decide_eq_false_2; [done|]. by intros ?%elem_of_nil.
Qed.

(** [remove] takes out the first occurrence only; the rest stays, in order. *)
Lemma list_remove_absent (v : Z) (l : list Z) : v ∉ l → list_remove v l = None.
Proof.
  induction l as [|y l IH]; [done|]. rewrite not_elem_of_cons. intros [Hne Hl].
  simpl. rewrite decide_False by done. by rewrite IH.
Qed.

Lemma filter_all_ne (v : Z) (l : list Z) : v ∉ l → filter (λ y, y ≠ v) l = l.
Proof.
  induction l as [|y l IH]; [done|]. rewrite not_elem_of_cons. intros [Hne Hl].
  rewrite filter_cons_True by done. by rewrite IH.
Qed.

Lemma list_remove_present (v : Z) (l : list Z) :
  NoDup l → v ∈ l → list_remove v l = Some (filter (λ y, y ≠ v) l).
Proof.
  induction l as [|y l IH]; [by intros _ ?%elem_of_nil|].
  rewrite NoDup_cons, elem_of_cons. intros [Hy Hnd] Hin. simpl.
  destruct (decide (y = v)) as [->|Hne].
  - rewrite filter_cons_False by (by intros ?). by rewrite filter_all_ne.
  - destruct Hin as [->|Hin]; [done|].
    rewrite IH by done. simpl. by rewrite filter_cons_True.
Qed.

Lemma list_remove_sublist (v : Z) (l l' : list Z) : list_remove v l = Some l' → l' `sublist_of` l.
Proof.
  revert l'. induction l as [|y l IH]; intros l'; simpl; [done|].
  case_decide.
  - intros [= <-]. by apply sublist_cons.
  - destruct (list_remove v l) as [l0|]; [|done]. simpl. intros [= <-].
    by apply sublist_skip, IH.
Qed.

Lemma sublist_sorted (l l' : list Z) :
  l' `sublist_of` l → StronglySorted Z.lt l → StronglySorted Z.lt l'.
Proof.
  induction 1 as [|y l1 l2 Hsub IH|y l1 l2 Hsub IH]; intros Hs; [done|..].
  - apply StronglySorted_inv in Hs as [Hs Hall]. constructor; [by apply IH|].
    rewrite Forall_forall in *. intros z Hz. apply Hall.
    by eapply elem_of_sublist.
  - apply StronglySorted_inv in Hs as [Hs _]. by apply IH.
Qed.

Lemma list_remove_sorted (v : Z) (l l' : list Z) :
  list_remove v l = Some l' → StronglySorted Z.lt l → StronglySorted Z.lt l'.
Proof. intros H. apply sublist_sorted. by eapply list_remove_sublist. Qed.

Lemma seq_sorted (start len : nat) : StronglySorted Z.lt (Z.of_nat <$> seq start len).
Proof.
  revert start. induction len as [|len IH]; intros start; simpl; constructor.
  - apply IH.
  - rewrite Forall_fmap, Forall_forall. intros y Hy%elem_of_seq. simpl. lia.
Qed.

Lemma pool_sorted_full : StronglySorted Z.lt full_pool.
Proof. apply seq_sorted. Qed.

Lemma sorted_NoDup (l : list Z) : StronglySorted Z.lt l → NoDup l.
Proof.
  induction 1 as [|y l Hs IH Hall]; constructor; [|done].
  intros Hy. rewrite Forall_forall in Hall. specialize (Hall y Hy). lia.
Qed.

Lemma commit_xport_cases b x info s :
  commit_xport b x info s =
  if bool_decide (rpc_connection b ∈ ["remote"; "local"]) then
    match list_remove (src_ep (send_sid info)) (_available_endpoints s) with
    | Some l' =>
        lift_result (mgr_commit_xport (selected_mgr b x) (send_sid info) info)
          (with_available_endpoints l' s)
    | None => (Raise ValueError, s)
    end
  else (Raise AssertionError, s).
Proof.
  unfold commit_xport. rewrite bind_assert. case_bool_decide as Hrpc; [|done].
  rewrite bind_run. unfold available_endpoints_remove. rewrite bind_gets.
  destruct (list_remove _ _) as [l'|]; [|done].
  unfold modify. mred. unfold selected_mgr.
  destruct (decide (rpc_connection b = "remote")) as [|Hr]; [done|].
  destruct (decide (rpc_connection b = "local")) as [|Hl]; [done|].
  revert Hrpc. rewrite !elem_of_cons, elem_of_nil. tauto.
Qed.

(** C8.  With the connection mode one of the two backends and a pool
    without repetition, committing an endpoint whose source address is free
    leaves the pool with that address, and no other, taken out; whatever
    the backend then answers.  Committing an address that is not free
    raises and hands back the object, and so the pool, as it was. *)
Theorem commit_xport_removes b x info s :
  let pool := _available_endpoints s in
  let addr := src_ep (send_sid info) in
  (addr ∈ pool → rpc_connection b ∈ ["remote"; "local"] → NoDup pool →
   ∃ r, commit_xport b x info s
        = (r, with_available_endpoints (filter (λ y, y ≠ addr) pool) s)
      ∧ ∀ y, y ∈ filter (λ y, y ≠ addr) pool ↔ y ∈ pool ∧ y ≠ addr)
  ∧ (addr ∉ pool → ∃ e, commit_xport b x info s = (Raise e, s)).
Proof.
  intros pool addr. rewrite commit_xport_cases. fold addr pool. split.
  - intros Hin Hrpc Hnd. rewrite bool_decide_eq_true_2 by done.
    rewrite list_remove_present by done.
    destruct (mgr_commit_xport _ _ _) as [r|e].
    + exists (Ok (Some r)). split; [done|]. intros y.
      rewrite list_elem_of_filter. tauto.
    + exists (Raise e). split; [done|]. intros y.
      rewrite list_elem_of_filter. tauto.
  - intros Hout. rewrite list_remove_absent by done.
    case_bool_decide; eauto.
Qed.

Lemma commit_xport_sources b x info s :
  let s' := snd (commit_xport b x info s) in
  _ext_clock_freq s' = _ext_clock_freq s
  ∧ _clock_source s' = _clock_source s
  ∧ _time_source s' = _time_source s.
Proof.
  simpl. rewrite commit_xport_cases. case_bool_decide; [|done].
  destruct (list_remove _ _); [|done]. by rewrite lift_result_state.
Qed.

Lemma init_ref_clock_and_time_initialized b ext default_args s :
  sources_valid s →
  clocks_initialized (snd (_init_ref_clock_and_time b ext default_args s)).
Proof.
  intros Hv. unfold _init_ref_clock_and_time. rewrite bind_modify.
  case_bool_decide.
  - rewrite bind_modify. unfold modify. simpl. split; [by eexists|].
    intros _ _. compute_done.
  - apply set_sync_source_initialized. split; [by eexists|done].
Qed.

(** ** The whitelist as an invariant *)

(** C9, as the code has it.  From the state of an initialised device, each
    public operation leaves an initialised device: if both source fields
    are set, their pair is in [valid_sync_sources].  [set_sync_source]
    either leaves both fields as they were (it returned at the
    short-circuit, or raised at an assertion or in a safe-state call, with
    nothing but safe-state calls logged) or has assigned both fields the
    whitelisted resolved pair, whatever it raised afterwards.
    [set_clock_source] and [set_time_source], asked for a supported source,
    hand [set_sync_source] a whitelisted pair that keeps the requested
    source; asked for any other value they hand it on as it is, and
    [set_sync_source] rejects it with the object unchanged. *)
Theorem sync_source_invariant b x s :
  clocks_initialized s →
  (∀ args, clocks_initialized (snd (set_sync_source b args s)))
  ∧ (∀ cs, clocks_initialized (snd (set_clock_source b cs s)))
  ∧ (∀ ts, clocks_initialized (snd (set_time_source b ts s)))
  ∧ (∀ f, clocks_initialized (snd (set_ref_clock_freq b f s)))
  ∧ (∀ dst a ty, clocks_initialized (snd (request_xport b x dst a ty s)))
  ∧ (∀ info, clocks_initialized (snd (commit_xport b x info s)))
  ∧ clocks_initialized (snd (deinit_reset_pool s))
  ∧ (∀ args r s', set_sync_source b args s = (r, s') →
       let cs := resolved_clock_source args s in
       let ts := resolved_time_source args s in
       (_clock_source s' = _clock_source s ∧ _time_source s' = _time_source s
        ∧ (r = Ok tt ∨ r = Raise AssertionError ∨ r = Raise DboardError)
        ∧ ∃ evs, effect_log s' = effect_log s ++ evs ∧ Forall is_safe_state_call evs)
       ∨ ((cs, ts) ∈ valid_sync_sources
          ∧ _clock_source s' = cs ∧ _time_source s' = ts))
  ∧ (∀ cs, cs ∈ get_clock_sources → _time_source s ≠ PNone →
       let source := clock_source_request cs (_time_source s) in
       set_clock_source b cs s = set_sync_source b source s
       ∧ resolved_clock_source source s = cs
       ∧ (cs, resolved_time_source source s) ∈ valid_sync_sources)
  ∧ (∀ ts, ts ∈ get_time_sources → _clock_source s ≠ PNone →
       let source := time_source_request (_clock_source s) ts in
       set_time_source b ts s = set_sync_source b source s
       ∧ resolved_time_source source s = ts
       ∧ (resolved_clock_source source s, ts) ∈ valid_sync_sources)
  ∧ (∀ cs, cs ∉ get_clock_sources →
       set_clock_source b cs s = (Raise AssertionError, s))
  ∧ (∀ ts, ts ∉ get_time_sources →
       set_time_source b ts s = (Raise AssertionError, s)).
Proof.
  intros Hinit. split_and!.
  - intros args. by apply set_sync_source_initialized.
  - intros cs. by apply set_clock_source_initialized.
  - intros ts. by apply set_time_source_initialized.
  - intros f. by apply set_ref_clock_freq_initialized.
  - intros dst a ty. by rewrite request_xport_state.
  - intros info. destruct (commit_xport_sources b x info s) as (? & ? & ?).
    by apply (clocks_initialized_same s).
  - done.
  - intros args r s' Hrun. destruct Hinit as [Hext _].
    by destruct (set_sync_source_outcome b args s r s' Hext Hrun) as (_ & _ & _ & H).
  - intros cs Hcs Hts source. subst source.
    destruct (resolved_clock_source_request cs (_time_source s) s) as [-> ->].
    split; [|split; [done|by apply clock_companion_valid]].
    rewrite set_clock_source_cases.
    rewrite (bool_decide_eq_true_2 (_time_source s ≠ PNone)) by done.
    rewrite bool_decide_eq_true_2; [done|].
    intros ->. revert Hcs. compute_done.
  - intros ts Hts Hcs source. subst source.
    destruct (resolved_time_source_request (_clock_source s) ts s) as [-> ->].
    split; [|split; [done|by apply time_companion_valid]].
    rewrite set_time_source_cases.
    rewrite (bool_decide_eq_true_2 (_clock_source s ≠ PNone)) by done.
    rewrite bool_decide_eq_true_2; [done|].
    intros ->. revert Hts. compute_done.
  - intros cs. apply set_clock_source_unsupported.
  - intros ts. apply set_time_source_unsupported.
Qed.

(** ** set_ref_clock_freq *)

Lemma set_ref_clock_freq_cases b freq s :
  set_ref_clock_freq b freq s =
  if bool_decide (freq ∉ [10000000; 20000000; 25000000]) then
    (Raise unsupported_freq_error, s)
  else if bool_decide (_ext_clock_freq s = Some freq) then (Ok tt, s)
  else if bool_decide (freq = 20000000)
          && bool_decide (_time_source s ≠ PStr "external")
  then (Raise freq_time_source_error, s)
  else if bool_decide (_clock_source s = PStr "external") then
    set_time_source b (_time_source s) (with_ext_clock_freq (Some freq) s)
  else (Ok tt, with_ext_clock_freq (Some freq) s).
Proof.
  unfold set_ref_clock_freq. case_bool_decide; [done|].
  rewrite bind_gets. case_bool_decide; [done|].
  unfold get_time_source, get_clock_source. rewrite bind_gets.
  destruct (_ && _); [done|]. rewrite bind_modify, bind_gets. fields.
  case_bool_decide; [|done]. by rewrite bind_gets.
Qed.

(** The re-application in [set_ref_clock_freq] asks [set_sync_source] for
    the stored pair, so it stops at the short-circuit: with a whitelisted
    stored pair whose clock source is external, a frequency change logs
    nothing, and no daughterboard hears of the new frequency. *)
Lemma set_ref_clock_freq_no_propagation b freq s :
  _clock_source s = PStr "external" →
  (_clock_source s, _time_source s) ∈ valid_sync_sources →
  freq ∈ [10000000; 20000000; 25000000] →
  _ext_clock_freq s ≠ Some freq →
  (freq = 20000000 → _time_source s = PStr "external") →
  set_ref_clock_freq b freq s = (Ok tt, with_ext_clock_freq (Some freq) s).
Proof.
  intros Hcs Hv Hf Hne H20. rewrite set_ref_clock_freq_cases.
  rewrite bool_decide_eq_false_2 by (by intros ?).
  rewrite (bool_decide_eq_false_2 _ Hne).
  assert (bool_decide (freq = 20000000)
          && bool_decide (_time_source s ≠ PStr "external") = false) as ->.
  { case_bool_decide; [|done]. rewrite bool_decide_eq_false_2; [done|].
    intros Hx. by apply Hx, H20. }
  rewrite (bool_decide_eq_true_2 _ Hcs). rewrite set_time_source_cases. fields.
  destruct (valid_supported _ _ Hv) as [Hcs' Hts'].
  rewrite !bool_decide_eq_true_2; cbn [andb].
  2: { intros E. rewrite E in Hts'. revert Hts'. compute_done. }
  2: { intros E. rewrite E in Hcs'. revert Hcs'. compute_done. }
  set (s1 := with_ext_clock_freq (Some freq) s).
  assert (time_companion (_clock_source s) (_time_source s) = _clock_source s) as Hcomp.
  { unfold time_companion. by rewrite bool_decide_eq_false_2 by (by intros ?). }
  rewrite set_sync_source_cases. cbv zeta.
  destruct (resolved_time_source_request (_clock_source s) (_time_source s) s1)
    as [-> ->]. rewrite Hcomp. subst s1. fields.
  rewrite (bool_decide_eq_true_2 _ Hcs'), (bool_decide_eq_true_2 _ Hts').
  by rewrite (bool_decide_eq_true_2 (same_pair _ _ _)).
Qed.

(** C5, as the code has it.  A frequency outside 10, 20 and 25 MHz
    raises.  A supported frequency equal to the stored one returns with the
    object as it was, 20 MHz included, whatever the time source.  20 MHz
    that differs from the stored frequency raises unless the time source is
    external, and with the external time source it is stored.  A failing
    call hands back the object as it was. *)
Theorem set_ref_clock_freq_validation b freq s :
  (freq ∉ [10000000; 20000000; 25000000] →
   set_ref_clock_freq b freq s = (Raise unsupported_freq_error, s))
  ∧ (freq ∈ [10000000; 20000000; 25000000] → _ext_clock_freq s = Some freq →
     set_ref_clock_freq b freq s = (Ok tt, s))
  ∧ (freq = 20000000 → _ext_clock_freq s ≠ Some freq →
     _time_source s ≠ PStr "external" →
     set_ref_clock_freq b freq s = (Raise freq_time_source_error, s))
  ∧ (freq = 20000000 → _ext_clock_freq s ≠ Some freq →
     _time_source s = PStr "external" →
     set_ref_clock_freq b freq s = (Ok tt, with_ext_clock_freq (Some freq) s)).
Proof.
  split_and!; [rewrite set_ref_clock_freq_cases..|].
  - intros H. by rewrite bool_decide_eq_true_2.
  - intros H1 H2. rewrite bool_decide_eq_false_2 by (by intros ?).
    by rewrite bool_decide_eq_true_2.
  - intros -> H2 H3. rewrite bool_decide_eq_false_2 by compute_done.
    rewrite (bool_decide_eq_false_2 _ H2), (bool_decide_eq_true_2 _ H3).
    by rewrite (bool_decide_eq_true_2 (20000000 = 20000000)).
  - intros -> H2 H3.
    destruct (decide (_clock_source s = PStr "external")) as [Hcs|Hcs].
    + apply set_ref_clock_freq_no_propagation; try done.
      * rewrite Hcs, H3. compute_done.
      * compute_done.
    + rewrite set_ref_clock_freq_cases.
      rewrite bool_decide_eq_false_2 by compute_done.
      rewrite (bool_decide_eq_false_2 _ H2).
      rewrite (bool_decide_eq_false_2 (_ ≠ _)) by (by intros ?).
      rewrite andb_false_r. by rewrite (bool_decide_eq_false_2 _ Hcs).
Qed.

(** ** The pool stays in ascending order *)

Lemma pool_sorted_new ty : pool_sorted (n3xx_new ty).
Proof. apply pool_sorted_full. Qed.

Lemma pool_sorted_same s s' :
  _available_endpoints s' = _available_endpoints s → pool_sorted s → pool_sorted s'.
Proof. unfold pool_sorted. by intros ->. Qed.

Lemma pool_sorted_kept b x s :
  pool_sorted s →
  (∀ args, pool_sorted (snd (set_sync_source b args s)))
  ∧ (∀ cs, pool_sorted (snd (set_clock_source b cs s)))
  ∧ (∀ ts, pool_sorted (snd (set_time_source b ts s)))
  ∧ (∀ f, pool_sorted (snd (set_ref_clock_freq b f s)))
  ∧ (∀ dst a ty, pool_sorted (snd (request_xport b x dst a ty s)))
  ∧ (∀ info, pool_sorted (snd (commit_xport b x info s)))
  ∧ pool_sorted (snd (deinit_reset_pool s))
  ∧ (∀ ext args, pool_sorted (snd (_init_ref_clock_and_time b ext args s))).
Proof.
  intros Hs. split_and!.
  - intros args. apply (pool_sorted_same s); [|done].
    apply (set_sync_source_same_pool b args s).
  - intros cs. apply (pool_sorted_same s); [|done].
    apply (set_clock_source_same_pool b cs s).
  - intros ts. apply (pool_sorted_same s); [|done].
    apply (set_time_source_same_pool b ts s).
  - intros f. rewrite set_ref_clock_freq_cases.
    case_bool_decide; [done|]. case_bool_decide; [done|].
    destruct (_ && _); [done|]. case_bool_decide; [|done].
    apply (pool_sorted_same (with_ext_clock_freq (Some f) s)); [|done].
    apply (set_time_source_same_pool b (_time_source s)).
  - intros dst a ty. by rewrite request_xport_state.
  - intros info. rewrite commit_xport_cases. case_bool_decide; [|done].
    destruct (list_remove _ _) as [l'|] eqn:E; [|done].
    rewrite lift_result_state. by apply (list_remove_sorted _ _ _ E).
  - apply pool_sorted_full.
  - intros ext args. unfold _init_ref_clock_and_time. rewrite bind_modify.
    case_bool_decide; [done|].
    apply (pool_sorted_same (with_ext_clock_freq
             (Some (default N3XX_DEFAULT_EXT_CLOCK_FREQ ext)) s)); [|done].
    apply (set_sync_source_same_pool b).
Qed.

(** ** The statements on the example device *)

(** Each statement above that has a premise is applied below to the
    example device, its premises discharged by evaluation. *)

Lemma booted_initialized : clocks_initialized booted.
Proof.
  apply init_ref_clock_and_time_initialized. intros H. by destruct H.
Qed.

Lemma set_sync_source_rejects_invalid_pair_witness :
  set_sync_source example_board external_sfp0 booted
  = (Raise AssertionError, booted).
Proof.
  apply (set_sync_source_rejects_invalid_pair example_board external_sfp0 booted);
    compute_done.
Defined.

(** C6 as stated fails: on the object as [__init__] leaves it, a call
    without arguments resolves to the stored pair and raises. *)
Lemma set_sync_source_unset_counterexample :
  ¬ (∀ b args s,
       same_pair (resolved_clock_source args s) (resolved_time_source args s) s →
       set_sync_source b args s = (Ok tt, s)).
Proof.
  intros H. specialize (H example_board ∅ (n3xx_new "WX")).
  assert (set_sync_source example_board ∅ (n3xx_new "WX")
          = (Raise AssertionError, n3xx_new "WX")) as E by (by vm_compute).
  rewrite E in H. by discriminate H.
Qed.

Lemma set_sync_source_same_pair_noop_witness :
  snd (set_sync_source example_board ∅ booted) = booted
  ∧ set_sync_source example_board ∅ booted = (Ok tt, booted)
  ∧ set_sync_source example_board ∅ (n3xx_new "WX")
    = (Raise AssertionError, n3xx_new "WX").
Proof.
  destruct (set_sync_source_same_pair_noop example_board ∅ booted)
    as (H1 & H2 & _); [compute_done|].
  destruct (set_sync_source_same_pair_noop example_board ∅ (n3xx_new "WX"))
    as (_ & _ & H3); [compute_done|].
  split_and!; [exact H1|apply H2; compute_done|apply H3; compute_done].
Defined.

Lemma set_sync_source_order_witness :
  (∃ s', set_sync_source example_board external_pair booted = (Ok tt, s')
         ∧ effect_log s'
           = effect_log booted
             ++ [DbSetClkSafeState 0; RegEnableRefClk false;
                 GpioReset "CLK-MAINSEL-EX_B"; GpioReset "CLK-MAINSEL-GPS";
                 GpioSet "CLK-MAINSEL-25MHz";
                 StoreClockSource (PStr "external"); Sleep 100;
                 RegEnableRefClk true; StoreTimeSource (PStr "external");
                 RegSetTimeSource (PStr "external") (Some 10000000);
                 DbUpdateRefClockFreq 0 10000000 (PStr "external") (PStr "external") PNone;
                 DbUpdateRefClockFreq 1 10000000 (PStr "external") (PStr "external") PNone])
  ∧ (∃ s', set_sync_source example_board sfp0_only booted = (Ok tt, s')
           ∧ _time_source s' = PStr "sfp0"
           ∧ effect_log s'
             = effect_log booted
               ++ apply_order example_board (PStr "internal") (PStr "sfp0") PNone
                    25000000 (sfp0_events (PStr "sfp0") 3))
  ∧ (∃ evs7 evs,
       effect_log (snd (set_sync_source unlocked_board sfp0_only booted))
       = effect_log booted ++ evs
       ∧ evs `prefix_of` apply_order unlocked_board (PStr "internal") (PStr "sfp0")
                           PNone 25000000 evs7).
Proof.
  split_and!.
  - destruct (set_sync_source_order example_board external_pair booted)
      as (Hrun & _ & _ & _); [compute_done..|].
    destruct (Hrun 10000000 0%nat) as (s' & E & _ & _ & Hlog); [compute_done..|].
    exists s'. split; [exact E|]. rewrite Hlog. reflexivity.
  - destruct (set_sync_source_order example_board sfp0_only booted)
      as (Hrun & _ & _ & _); [compute_done..|].
    destruct (Hrun 25000000 3%nat) as (s' & E & _ & Hts & Hlog); [compute_done..|].
    exists s'. split; [exact E|]. split; [exact Hts|]. exact Hlog.
  - destruct (set_sync_source_order unlocked_board sfp0_only booted)
      as (_ & _ & Hraise & _); [compute_done..|].
    destruct (Hraise sfp0_lock_error
                (snd (set_sync_source unlocked_board sfp0_only booted)))
      as (f & evs7 & evs & Hlog & Hpre & Hf & _); [by vm_compute|].
    rewrite <- (Hf 25000000) in Hpre by reflexivity.
    exists evs7, evs. split; [exact Hlog|exact Hpre].
Defined.

Lemma set_sync_source_sfp0_witness :
  set_sync_source example_board external_sfp0 booted
  = (Raise AssertionError, booted)
  ∧ set_sync_source example_board sfp0_only booted_hg
    = (Raise sfp0_image_error,
       after_step_6 example_board (resolved_clock_source sfp0_only booted_hg)
         (resolved_time_source sfp0_only booted_hg) 25000000 booted_hg)
  ∧ fst (set_sync_source unlocked_board sfp0_only booted)
    = Raise sfp0_lock_error
  ∧ set_sync_source example_board sfp0_only booted
    = for_enumerate
        (update_body (Some 25000000) (resolved_time_source sfp0_only booted)
           (resolved_clock_source sfp0_only booted)
           (default PNone (sfp0_only !! "skip_rfic")))
        0%nat (dboards example_board)
        (add_log (WrRegsOpen :: poll_misses 3 ++ [WrGetTimeLockStatus true])
           (with_wr_reads (wr_reads booted + 4)
              (after_step_6 example_board
                 (resolved_clock_source sfp0_only booted)
                 (resolved_time_source sfp0_only booted) 25000000 booted))).
Proof.
  split_and!.
  - apply (set_sync_source_sfp0 example_board external_sfp0 booted);
      compute_done.
  - apply (set_sync_source_sfp0 example_board sfp0_only booted_hg);
      compute_done.
  - destruct (set_sync_source_sfp0 unlocked_board sfp0_only booted)
      as (_ & _ & H); [compute_done..|].
    destruct H as (_ & H & _); [compute_done..|].
    destruct H as [-> _]; [compute_done|done|done].
  - destruct (set_sync_source_sfp0 example_board sfp0_only booted)
      as (_ & _ & H); [compute_done..|].
    destruct H as (_ & _ & H); [compute_done..|].
    apply (H ltac:(compute_done) 3%nat); [lia|by vm_compute|].
    intros j Hj. assert (wr_reads booted = 0%nat) as -> by (by vm_compute).
    apply bool_decide_eq_false_2. lia.
Defined.

(** C3, where the code departs from it.  On the external clock source at
    10 MHz, with both boards in place, [set_ref_clock_freq(20e6)] returns
    and stores the new frequency, but logs nothing: no board is called, and
    no call carrying 20 MHz is in the log. *)
Theorem set_ref_clock_freq_skips_daughterboards :
  _clock_source on_external = PStr "external"
  ∧ _time_source on_external = PStr "external"
  ∧ _ext_clock_freq on_external = Some 10000000
  ∧ length (dboards example_board) = 2%nat
  ∧ set_ref_clock_freq example_board 20000000 on_external
    = (Ok tt, with_ext_clock_freq (Some 20000000) on_external)
  ∧ effect_log (snd (set_ref_clock_freq example_board 20000000 on_external))
    = effect_log on_external
  ∧ existsb (is_update_with 20000000)
      (effect_log (snd (set_ref_clock_freq example_board 20000000 on_external)))
    = false.
Proof. split_and!; by vm_compute. Qed.

(** C5 as stated fails: on the external clock source with a stored 20 MHz
    and the internal time source, [set_ref_clock_freq(20e6)] returns. *)
Lemma set_ref_clock_freq_20MHz_counterexample :
  ¬ (∀ b s, _time_source s ≠ PStr "external" →
            ∃ e s', set_ref_clock_freq b 20000000 s = (Raise e, s')).
Proof.
  intros H. destruct (H example_board on_external_20MHz) as (e & s' & E).
  - compute_done.
  - vm_compute in E. discriminate.
Qed.

Lemma set_ref_clock_freq_validation_witness :
  set_ref_clock_freq example_board 15000000 booted
  = (Raise unsupported_freq_error, booted)
  ∧ set_ref_clock_freq example_board 20000000 on_external_20MHz
    = (Ok tt, on_external_20MHz)
  ∧ set_ref_clock_freq example_board 20000000 booted
    = (Raise freq_time_source_error, booted)
  ∧ set_ref_clock_freq example_board 20000000 on_external
    = (Ok tt, with_ext_clock_freq (Some 20000000) on_external).
Proof.
  destruct (set_ref_clock_freq_validation example_board 15000000 booted)
    as (H1 & _).
  destruct (set_ref_clock_freq_validation example_board 20000000 on_external_20MHz)
    as (_ & H2 & _).
  destruct (set_ref_clock_freq_validation example_board 20000000 booted)
    as (_ & _ & H3 & _).
  destruct (set_ref_clock_freq_validation example_board 20000000 on_external)
    as (_ & _ & _ & H4).
  split_and!; [apply H1|apply H2|apply H3|apply H4]; compute_done.
Defined.

Lemma request_xport_choice_witness :
  request_xport example_board example_mgrs 16 5 PNone booted
  = (Ok (Some [ {| send_sid := Z.lor (Z.shiftl 5 16) 16 |} ]), booted)
  ∧ ∃ lowest, lowest ∈ _available_endpoints committed_5
              ∧ (∀ a, a ∈ _available_endpoints committed_5 → (lowest ≤ a)%Z)
              ∧ request_xport example_board example_mgrs 16 5 PNone committed_5
                = lift_result
                    (mgr_request_xport (selected_mgr example_board example_mgrs)
                       (Z.lor (Z.shiftl lowest 16) 16) PNone) committed_5.
Proof.
  split.
  - destruct (request_xport_choice example_board example_mgrs 16 5 PNone booted)
      as (_ & H & _); [compute_done..|].
    rewrite H by compute_done. done.
  - apply (request_xport_choice example_board example_mgrs 16 5 PNone committed_5);
      compute_done.
Defined.

Lemma commit_xport_removes_witness :
  (∃ r, commit_xport example_board example_mgrs
          {| send_sid := Z.lor (Z.shiftl 5 16) 16 |} booted
        = (r, with_available_endpoints
                (filter (λ y, y ≠ src_ep (Z.lor (Z.shiftl 5 16) 16))
                   (_available_endpoints booted)) booted)
      ∧ ∀ y, y ∈ filter (λ y, y ≠ src_ep (Z.lor (Z.shiftl 5 16) 16))
                   (_available_endpoints booted)
             ↔ y ∈ _available_endpoints booted
               ∧ y ≠ src_ep (Z.lor (Z.shiftl 5 16) 16))
  ∧ ∃ e, commit_xport example_board example_mgrs
           {| send_sid := Z.lor (Z.shiftl 5 16) 16 |} committed_5
         = (Raise e, committed_5).
Proof.
  split.
  - apply (commit_xport_removes example_board example_mgrs
             {| send_sid := Z.lor (Z.shiftl 5 16) 16 |} booted); compute_done.
  - apply (commit_xport_removes example_board example_mgrs
             {| send_sid := Z.lor (Z.shiftl 5 16) 16 |} committed_5); compute_done.
Defined.

(** C9 as stated fails in its last clause: asked for the clock source
    "mimo", [set_clock_source] overrides nothing and hands [set_sync_source]
    a pair that is not whitelisted. *)
Lemma set_clock_source_mimo_counterexample :
  ¬ (∀ cs s, clocks_initialized s → cs ≠ PNone → _time_source s ≠ PNone →
       (resolved_clock_source (clock_source_request cs (_time_source s)) s,
        resolved_time_source (clock_source_request cs (_time_source s)) s)
       ∈ valid_sync_sources).
Proof.
  intros H. specialize (H (PStr "mimo") booted).
  revert H. compute_done.
Qed.

Lemma sync_source_invariant_witness :
  clocks_initialized (snd (set_sync_source example_board sfp0_only booted))
  ∧ clocks_initialized (snd (set_clock_source example_board (PStr "gpsdo") booted))
  ∧ clocks_initialized (snd (set_ref_clock_freq example_board 20000000 on_external))
  ∧ set_clock_source example_board (PStr "mimo") booted
    = (Raise AssertionError, booted).
Proof.
  destruct (sync_source_invariant example_board example_mgrs booted)
    as (H1 & H2 & _ & _ & _ & _ & _ & _ & _ & _ & H11 & _); [compute_done|].
  destruct (sync_source_invariant example_board example_mgrs on_external)
    as (_ & _ & _ & H4 & _); [compute_done|].
  split_and!; [apply H1|apply H2|apply H4|apply H11; compute_done].
Defined.


(** ** The endpoint life cycle on the example device *)

(** The byte [request_xport] places in the SID is the one [commit_xport]
    reads back. *)
Lemma src_ep_of_sid (src dst : Z) :
  (0 ≤ src < 256)%Z → (0 ≤ dst < 65536)%Z →
  src_ep (Z.lor (Z.shiftl src 16) dst) = src.
Proof.
  intros Hsrc Hdst. unfold src_ep.
  rewrite Z.shiftr_lor, Z.shiftr_shiftl_l by lia.
  rewrite (Z.shiftr_div_pow2 dst) by lia.
  rewrite (Z.div_small dst) by lia.
  rewrite Z.lor_0_r. change (16 - 16)%Z with 0%Z. rewrite Z.shiftl_0_r.
  change 255%Z with (Z.ones 8). rewrite Z.land_ones by lia.
  apply Z.mod_small. lia.
Qed.

(** Address 5 is handed out on request, taken by the commit, and the next
    request for 5 gets address 0; a second commit of 5 raises; [deinit]
    frees all 256 addresses again. *)
Example endpoint_scenario :
  _available_endpoints booted = full_pool
  ∧ request_xport example_board example_mgrs 16 5 PNone booted
    = (Ok (Some [ {| send_sid := 327696 |} ]), booted)
  ∧ src_ep 327696 = 5%Z
  ∧ (5%Z ∉ _available_endpoints committed_5)
  ∧ length (_available_endpoints committed_5) = 255%nat
  ∧ request_xport example_board example_mgrs 16 5 PNone committed_5
    = (Ok (Some [ {| send_sid := 16 |} ]), committed_5)
  ∧ commit_xport example_board example_mgrs {| send_sid := 327696 |} committed_5
    = (Raise ValueError, committed_5)
  ∧ _available_endpoints (snd (deinit_reset_pool committed_5)) = full_pool.
Proof. split_and!; compute_done. Qed.

(** * Further properties of the clock and transport API *)

(** A call of [set_sync_source] that returns leaves the resolved pair
    stored, and both of its sources are supported. *)
Lemma set_sync_source_ok_pair b args s s' :
  set_sync_source b args s = (Ok tt, s') →
  _clock_source s' = resolved_clock_source args s
  ∧ _time_source s' = resolved_time_source args s
  ∧ resolved_clock_source args s ∈ get_clock_sources
  ∧ resolved_time_source args s ∈ get_time_sources.
Proof.
  rewrite set_sync_source_cases.
  case_bool_decide as Hcs; [|done]. case_bool_decide as Hts; [|done].
  case_bool_decide as Hsame.
  - intros [= <-]. destruct Hsame as [E1 E2]. by rewrite <- E1, <- E2.
  - case_bool_decide as Hvalid; [|done]. intros Hrun.
    destruct (apply_sync_source_ok _ _ _ _ _ _ Hvalid Hrun) as (f & k & _ & _ & ->).
    done.
Qed.

(** X1.  After a call of [set_clock_source] that returns, [get_clock_source]
    answers the requested source and [get_time_source] the companion that
    the method chose; after a call of [set_time_source] that returns,
    [get_time_source] answers the requested source and [get_clock_source]
    the companion.  In both cases the stored pair is in
    [valid_sync_sources], whatever the object held before. *)
Theorem single_source_setters_store b v s s' :
  (set_clock_source b v s = (Ok tt, s') →
   get_clock_source s' = (Ok v, s')
   ∧ get_time_source s' = (Ok (clock_companion v (_time_source s)), s')
   ∧ (v, _time_source s') ∈ valid_sync_sources)
  ∧ (set_time_source b v s = (Ok tt, s') →
     get_time_source s' = (Ok v, s')
     ∧ get_clock_source s' = (Ok (time_companion (_clock_source s) v), s')
     ∧ (_clock_source s', v) ∈ valid_sync_sources).
Proof.
  split.
  - rewrite set_clock_source_cases.
    destruct (bool_decide (v ≠ PNone) && bool_decide (_time_source s ≠ PNone));
      [|done].
    intros Hrun. apply set_sync_source_ok_pair in Hrun as (Hc & Ht & Hcs & _).
    destruct (resolved_clock_source_request v (_time_source s) s) as [E1 E2].
    rewrite E1 in Hc, Hcs. rewrite E2 in Ht.
    unfold get_clock_source, get_time_source, gets. rewrite Hc, Ht.
    split_and!; [done..|]. by apply clock_companion_valid.
  - rewrite set_time_source_cases.
    destruct (bool_decide (_clock_source s ≠ PNone) && bool_decide (v ≠ PNone));
      [|done].
    intros Hrun. apply set_sync_source_ok_pair in Hrun as (Hc & Ht & _ & Hts).
    destruct (resolved_time_source_request (_clock_source s) v s) as [E1 E2].
    rewrite E1 in Hc. rewrite E2 in Ht, Hts.
    unfold get_clock_source, get_time_source, gets. rewrite Hc, Ht.
    split_and!; [done..|]. by apply time_companion_valid.
Qed.

(** X2.  When [_init_ref_clock_and_time] returns, [get_ref_clock_freq]
    answers a frequency, not [None] and not a KeyError: 25 MHz, 20 MHz, or
    the external frequency (the argument, or 10 MHz by default). *)
Theorem init_ref_clock_and_time_freq b ext default_args s s' :
  _init_ref_clock_and_time b ext default_args s = (Ok tt, s') →
  ∃ f, get_ref_clock_freq s' = (Ok (Some f), s')
       ∧ f ∈ [25000000; 20000000; default N3XX_DEFAULT_EXT_CLOCK_FREQ ext].
Proof.
  unfold _init_ref_clock_and_time. rewrite bind_modify.
  case_bool_decide.
  - rewrite bind_modify. unfold modify. intros [= <-].
    exists 25000000. split; [done|]. apply list_elem_of_here.
  - intros Hrun.
    match type of Hrun with set_sync_source _ ?a ?s0 = _ =>
      destruct (set_sync_source_same_pool b a s0) as (_ & Hext & _) end.
    rewrite Hrun in Hext. simpl in Hext.
    apply set_sync_source_ok_pair in Hrun as (Hc & _ & Hcs & _).
    unfold get_ref_clock_freq. rewrite Hext, Hc.
    rewrite table_supported by done.
    repeat case_decide; eexists; (split; [done|]);
      rewrite !elem_of_cons; tauto.
Qed.

Lemma filter_ne_length (v : Z) (l : list Z) :
  NoDup l → v ∈ l → length l = S (length (filter (λ y, y ≠ v) l)).
Proof.
  induction l as [|y l IH]; intros Hnd Hin; [by apply elem_of_nil in Hin|].
  apply NoDup_cons in Hnd as [Hy Hnd]. rewrite filter_cons. case_decide as Hne.
  - simpl. f_equal. apply IH; [done|].
    apply elem_of_cons in Hin as [|]; [congruence|done].
  - subst y. by rewrite filter_all_ne.
Qed.

(** The object after a commit of a free address. *)
Lemma commit_xport_state b x info s :
  pool_sorted s →
  rpc_connection b ∈ ["remote"; "local"] →
  src_ep (send_sid info) ∈ _available_endpoints s →
  snd (commit_xport b x info s)
  = with_available_endpoints
      (filter (λ y, y ≠ src_ep (send_sid info)) (_available_endpoints s)) s.
Proof.
  intros Hs Hrpc Hin.
  rewrite commit_xport_cases, (bool_decide_eq_true_2 _ Hrpc).
  rewrite list_remove_present by (by try apply sorted_NoDup).
  by rewrite lift_result_state.
Qed.

(** X3.  Committing the same endpoint twice: the first commit takes
    exactly one address out of the pool, whatever the backend answers, and
    the second raises ValueError and leaves the object as it is. *)
Theorem commit_xport_twice b x info s :
  pool_sorted s →
  rpc_connection b ∈ ["remote"; "local"] →
  src_ep (send_sid info) ∈ _available_endpoints s →
  let s' := snd (commit_xport b x info s) in
  (src_ep (send_sid info) ∉ _available_endpoints s')
  ∧ length (_available_endpoints s) = S (length (_available_endpoints s'))
  ∧ commit_xport b x info s' = (Raise ValueError, s').
Proof.
  intros Hs Hrpc Hin s'. subst s'.
  rewrite (commit_xport_state b x info s Hs Hrpc Hin).
  cbn [_available_endpoints with_available_endpoints].
  set (l' := filter _ _).
  assert (src_ep (send_sid info) ∉ l') as Hout.
  { unfold l'. rewrite list_elem_of_filter. tauto. }
  split; [done|]. split.
  - apply filter_ne_length; [by apply sorted_NoDup|done].
  - rewrite commit_xport_cases, (bool_decide_eq_true_2 _ Hrpc).
    cbn [_available_endpoints with_available_endpoints].
    by rewrite list_remove_absent.
Qed.

Lemma pool_in_range_full : Forall (λ a, 0 ≤ a < 256) full_pool.
Proof.
  unfold full_pool. apply Forall_fmap, Forall_forall.
  intros n Hn%elem_of_seq. simpl. lia.
Qed.

Lemma pool_in_range_new ty : pool_in_range (n3xx_new ty).
Proof. apply pool_in_range_full. Qed.

Lemma pool_in_range_same s s' :
  _available_endpoints s' = _available_endpoints s →
  pool_in_range s → pool_in_range s'.
Proof. unfold pool_in_range. by intros ->. Qed.

Lemma pool_in_range_kept b x s :
  pool_in_range s →
  (∀ args, pool_in_range (snd (set_sync_source b args s)))
  ∧ (∀ cs, pool_in_range (snd (set_clock_source b cs s)))
  ∧ (∀ ts, pool_in_range (snd (set_time_source b ts s)))
  ∧ (∀ f, pool_in_range (snd (set_ref_clock_freq b f s)))
  ∧ (∀ dst a ty, pool_in_range (snd (request_xport b x dst a ty s)))
  ∧ (∀ info, pool_in_range (snd (commit_xport b x info s)))
  ∧ pool_in_range (snd (deinit_reset_pool s))
  ∧ (∀ ext args, pool_in_range (snd (_init_ref_clock_and_time b ext args s))).
Proof.
  intros Hs. split_and!.
  - intros args. apply (pool_in_range_same s); [|done].
    apply (set_sync_source_same_pool b args s).
  - intros cs. apply (pool_in_range_same s); [|done].
    apply (set_clock_source_same_pool b cs s).
  - intros ts. apply (pool_in_range_same s); [|done].
    apply (set_time_source_same_pool b ts s).
  - intros f. rewrite set_ref_clock_freq_cases.
    case_bool_decide; [done|]. case_bool_decide; [done|].
    destruct (_ && _); [done|]. case_bool_decide; [|done].
    apply (pool_in_range_same (with_ext_clock_freq (Some f) s)); [|done].
    apply (set_time_source_same_pool b (_time_source s)).
  - intros dst a ty. by rewrite request_xport_state.
  - intros info. rewrite commit_xport_cases. case_bool_decide; [|done].
    destruct (list_remove _ _) as [l'|] eqn:E; [|done].
    rewrite lift_result_state. unfold pool_in_range.
    cbn [_available_endpoints with_available_endpoints].
    apply list_remove_sublist in E. apply Forall_forall. intros a Ha.
    unfold pool_in_range in Hs. rewrite Forall_forall in Hs.
    apply Hs. by apply (elem_of_sublist l').
  - apply pool_in_range_full.
  - intros ext args. unfold _init_ref_clock_and_time. rewrite bind_modify.
    case_bool_decide; [done|].
    apply (pool_in_range_same (with_ext_clock_freq
             (Some (default N3XX_DEFAULT_EXT_CLOCK_FREQ ext)) s)); [|done].
    apply (set_sync_source_same_pool b).
Qed.

(** X4.  A committed address is not handed out again.  With a pool of
    endpoint addresses in ascending order (as the code keeps it:
    [pool_sorted_kept], [pool_in_range_kept]) and a destination address of
    16 bits, [request_xport] after the commit raises because the pool is
    empty, or hands the backend a SID whose source endpoint was free
    before the commit, is not the committed one, even when that one is
    suggested, and is still free: committing an endpoint that carries this
    SID takes that address out of the pool. *)
Theorem request_xport_after_commit b x info dst suggested ty s :
  pool_sorted s →
  pool_in_range s →
  rpc_connection b ∈ ["remote"; "local"] →
  0 ≤ dst < 2 ^ 16 →
  src_ep (send_sid info) ∈ _available_endpoints s →
  let s' := snd (commit_xport b x info s) in
  request_xport b x dst suggested ty s' = (Raise depleted_error, s')
  ∨ ∃ sid,
      request_xport b x dst suggested ty s'
      = lift_result (mgr_request_xport (selected_mgr b x) sid ty) s'
      ∧ src_ep sid ∈ _available_endpoints s
      ∧ src_ep sid ≠ src_ep (send_sid info)
      ∧ src_ep sid ∈ _available_endpoints s'
      ∧ (suggested ∈ _available_endpoints s' → src_ep sid = suggested)
      ∧ _available_endpoints (snd (commit_xport b x {| send_sid := sid |} s'))
        = filter (λ y, y ≠ src_ep sid) (_available_endpoints s').
Proof.
  intros Hs Hrange Hrpc Hdst Hin s'.
  destruct (pool_sorted_kept b x s Hs) as (_ & _ & _ & _ & _ & Hs' & _).
  specialize (Hs' info). fold s' in Hs'.
  assert (_available_endpoints s'
          = filter (λ y, y ≠ src_ep (send_sid info)) (_available_endpoints s))
    as Hpool.
  { unfold s'. by rewrite (commit_xport_state b x info s Hs Hrpc Hin). }
  assert (∀ src, src ∈ _available_endpoints s' →
                 src ∈ _available_endpoints s ∧ src ≠ src_ep (send_sid info)
                 ∧ 0 ≤ src < 256)
    as Hfree.
  { intros src. rewrite Hpool, list_elem_of_filter. intros [Hne Hsrc].
    split; [done|]. split; [done|]. unfold pool_in_range in Hrange.
    rewrite Forall_forall in Hrange. by apply Hrange. }
  assert (∀ src, src ∈ _available_endpoints s' →
                 pick_src_address suggested s' = (Ok src, s') →
                 (suggested ∈ _available_endpoints s' → src = suggested) →
                 ∃ sid,
                   request_xport b x dst suggested ty s'
                   = lift_result (mgr_request_xport (selected_mgr b x) sid ty) s'
                   ∧ src_ep sid ∈ _available_endpoints s
                   ∧ src_ep sid ≠ src_ep (send_sid info)
                   ∧ src_ep sid ∈ _available_endpoints s'
                   ∧ (suggested ∈ _available_endpoints s' → src_ep sid = suggested)
                   ∧ _available_endpoints
                       (snd (commit_xport b x {| send_sid := sid |} s'))
                     = filter (λ y, y ≠ src_ep sid) (_available_endpoints s'))
    as Hsid.
  { intros src Hsrc Hpick Hsug. destruct (Hfree src Hsrc) as (Hold & Hne & Hbyte).
    exists (Z.lor (Z.shiftl src 16) dst).
    rewrite (src_ep_of_sid src dst Hbyte Hdst).
    split; [by apply request_xport_picked|]. do 4 (split; [done|]).
    rewrite (commit_xport_state b x _ s' Hs' Hrpc);
      cbn [send_sid]; rewrite (src_ep_of_sid src dst Hbyte Hdst); done. }
  pose proof (pick_src_address_cases suggested s') as Hpick.
  case_bool_decide as Hsug.
  - right. by apply (Hsid suggested).
  - destruct (_available_endpoints s') as [|first rest] eqn:Epool.
    + left. unfold request_xport. by rewrite bind_run, Hpick.
    + right. apply (Hsid first); [apply list_elem_of_here|done|done].
Qed.

Lemma single_source_setters_store_witness :
  get_clock_source (snd (set_clock_source example_board (PStr "external") booted))
  = (Ok (PStr "external"),
     snd (set_clock_source example_board (PStr "external") booted))
  ∧ get_time_source (snd (set_time_source example_board (PStr "sfp0") booted))
    = (Ok (PStr "sfp0"), snd (set_time_source example_board (PStr "sfp0") booted)).
Proof.
  destruct (single_source_setters_store example_board (PStr "external") booted
              (snd (set_clock_source example_board (PStr "external") booted)))
    as [H1 _].
  destruct (single_source_setters_store example_board (PStr "sfp0") booted
              (snd (set_time_source example_board (PStr "sfp0") booted)))
    as [_ H2].
  split.
  - apply H1. by vm_compute.
  - apply H2. by vm_compute.
Defined.

Lemma init_ref_clock_and_time_freq_witness :
  ∃ f, get_ref_clock_freq booted = (Ok (Some f), booted)
       ∧ f ∈ [25000000; 20000000; default N3XX_DEFAULT_EXT_CLOCK_FREQ None].
Proof.
  apply (init_ref_clock_and_time_freq example_board None ∅ (n3xx_new "WX") booted).
  by vm_compute.
Defined.

Lemma commit_xport_twice_witness :
  (5 ∉ _available_endpoints committed_5)
  ∧ length (_available_endpoints booted) = S (length (_available_endpoints committed_5))
  ∧ commit_xport example_board example_mgrs
      {| send_sid := Z.lor (Z.shiftl 5 16) 16 |} committed_5
    = (Raise ValueError, committed_5).
Proof.
  apply (commit_xport_twice example_board example_mgrs
           {| send_sid := Z.lor (Z.shiftl 5 16) 16 |} booted).
  - unfold pool_sorted. compute_done.
  - compute_done.
  - compute_done.
Defined.

Lemma request_xport_after_commit_witness :
  request_xport example_board example_mgrs 16 5 PNone committed_5
  = (Ok (Some [ {| send_sid := 16 |} ]), committed_5)
  ∧ src_ep 16 = 0 ∧ src_ep (Z.lor (Z.shiftl 5 16) 16) = 5.
Proof.
  destruct (request_xport_after_commit example_board example_mgrs
              {| send_sid := Z.lor (Z.shiftl 5 16) 16 |} 16 5 PNone booted)
    as [H|(sid & Hrun & _ & _ & _ & _ & _)];
    [unfold pool_sorted; compute_done|compute_done..| |].
  - change (snd (commit_xport example_board example_mgrs
              {| send_sid := Z.lor (Z.shiftl 5 16) 16 |} booted))
      with committed_5 in H.
    exfalso. revert H. by vm_compute.
  - split_and!; [|reflexivity..]. by vm_compute.
Defined.

(** The bound on the destination address is needed: bit 16 of a wider
    destination lands in the source endpoint of the SID, which is then the
    committed address 5 although address 4 was picked. *)
Example request_xport_wide_destination :
  request_xport example_board example_mgrs 0x10000 4 PNone committed_5
  = (Ok (Some [ {| send_sid := 0x50000 |} ]), committed_5)
  ∧ src_ep 0x50000 = 5
  ∧ 5 ∉ _available_endpoints committed_5.
Proof. split_and!; [by vm_compute|reflexivity|compute_done]. Qed.

(** * Session init and deinit *)

Lemma sbind_run {A B} (m : SM A) (k : A → SM B) d :
  (m ≫= k) d =
  match m d with
  | (Ok a, d') => k a d'
  | (Raise e, d') => (Raise e, d')
  end.
Proof. reflexivity. Qed.

Lemma sbind_gets {A B} (f : mpm_device → A) (k : A → SM B) d :
  (sgets f ≫= k) d = k (f d) d.
Proof. reflexivity. Qed.

Lemma sbind_emit {B} e (k : unit → SM B) d :
  (semit e ≫= k) d = k tt (with_obj (obj d) [e] d).
Proof. reflexivity. Qed.

Lemma sbind_call {A B} e (r : result A) (k : A → SM B) d :
  (scall e r ≫= k) d =
  match r with
  | Ok a => k a (with_obj (obj d) [e] d)
  | Raise x => (Raise x, with_obj (obj d) [e] d)
  end.
Proof. unfold scall. rewrite sbind_run. by destruct r. Qed.

Lemma with_obj_with_obj s1 s2 evs1 evs2 d :
  with_obj s2 evs2 (with_obj s1 evs1 d) = with_obj s2 (evs1 ++ evs2) d.
Proof. unfold with_obj. simpl. by rewrite app_assoc. Qed.

#[global] Instance log_extends_preorder : PreOrder log_extends.
Proof.
  split.
  - intros s. exists []. by rewrite app_nil_r.
  - intros s1 s2 s3 [e1 H1] [e2 H2]. exists (e1 ++ e2).
    by rewrite H2, H1, app_assoc.
Qed.

(** [set_sync_source] only appends to the effect log. *)
Lemma set_sync_source_log_extends b args : keeps log_extends (set_sync_source b args).
Proof.
  apply keeps_set_sync_source; [apply _|..].
  - intros evs s. by exists evs.
  - intros n s. exists []. simpl. by rewrite app_nil_r.
  - intros v s. exists []. simpl. by rewrite app_nil_r.
  - intros v s. exists []. simpl. by rewrite app_nil_r.
Qed.

Lemma new_events_app {A} (l evs : list A) : drop (length l) (l ++ evs) = evs.
Proof. by rewrite drop_app_length. Qed.

(** [init] on an initialised device, stage by stage: the synchronisation,
    the base class, the two backends. *)
Lemma init_stages b env args d :
  _device_initialized d = true →
  let a1 := init_sync_args args (obj d) in
  let a2 := init_dboard_args (device_info_product d) args (obj d) in
  let a3 := fst (super_init env a2) in
  let a4 := fst (xport_mgr_init env "udp" a3) in
  ∃ evs,
    effect_log (snd (set_sync_source b a1 (obj d))) = effect_log (obj d) ++ evs
    ∧ let s1 := snd (set_sync_source b a1 (obj d)) in
      let pre := RegEnablePpsOut (PpsBool false) :: (Clocking <$> evs) in
      init b env args d =
      match fst (set_sync_source b a1 (obj d)) with
      | Raise e => (Raise e, with_obj s1 pre d)
      | Ok _ =>
        match snd (super_init env a2) with
        | Raise e => (Raise e, with_obj s1 (pre ++ [BaseInit a2]) d)
        | Ok r =>
          match snd (xport_mgr_init env "udp" a3) with
          | Raise e =>
              (Raise e,
               with_obj s1 (pre ++ [BaseInit a2; RegEnablePpsOut (pps_export_arg a3);
                                    XportMgrInit "udp" a3]) d)
          | Ok _ =>
            (match snd (xport_mgr_init env "liberio" a4) with
             | Raise e => Raise e
             | Ok _ => Ok r
             end,
             with_obj s1 (pre ++ [BaseInit a2; RegEnablePpsOut (pps_export_arg a3);
                                  XportMgrInit "udp" a3; XportMgrInit "liberio" a4]) d)
          end
        end
      end.
Proof.
  intros Hinit a1 a2 a3 a4.
  destruct (set_sync_source_log_extends b a1 (obj d)) as [evs Hevs].
  exists evs. split; [done|]. intros s1 pre.
  unfold init. rewrite sbind_gets, Hinit. cbn [negb]. cbv iota.
  rewrite sbind_emit, !sbind_gets.
  change (obj (with_obj (obj d) _ d)) with (obj d).
  fold (init_sync_args args (obj d)). fold a1.
  rewrite sbind_run. unfold clocking at 1.
  change (obj (with_obj (obj d) _ d)) with (obj d).
  destruct (set_sync_source b a1 (obj d)) as [r s1'] eqn:Erun.
  simpl in Hevs, s1. subst s1. rewrite Hevs, new_events_app, with_obj_with_obj.
  simpl fst. destruct r as [[]|e]; [|done].
  rewrite sbind_gets.
  change (device_info_product (with_obj _ _ d)) with (device_info_product d).
  change (if decide (device_info_product d = PStr "n300") is left _
          then foldl force_internal_lo a1 lo_source_keys
          else a1) with a2.
  subst a4 a3. destruct (super_init env a2) as [a3 r] eqn:Esuper. cbn [fst snd].
  rewrite sbind_call. destruct r as [r|e].
  2:{ by rewrite with_obj_with_obj. }
  cbv beta. rewrite sbind_emit. simpl xport_mgrs_init.
  destruct (xport_mgr_init env "udp" a3) as [a4 r1] eqn:Eudp. cbn [fst snd].
  rewrite sbind_run, sbind_call. destruct r1 as [[]|e].
  2:{ by rewrite !with_obj_with_obj. }
  destruct (xport_mgr_init env "liberio" a4) as [a5 r2] eqn:Elib. cbn [fst snd].
  rewrite sbind_call.
  destruct r2 as [[]|e]; by rewrite !with_obj_with_obj.
Qed.

Lemma deinit_stages env d :
  _device_initialized d = true →
  deinit env d =
  match super_deinit env with
  | Raise e => (Raise e, with_obj (obj d) [BaseDeinit] d)
  | Ok _ =>
    match xport_mgr_deinit env "udp" with
    | Raise e => (Raise e, with_obj (obj d) [BaseDeinit; XportMgrDeinit "udp"] d)
    | Ok _ =>
      match xport_mgr_deinit env "liberio" with
      | Raise e =>
          (Raise e, with_obj (obj d)
                      [BaseDeinit; XportMgrDeinit "udp"; XportMgrDeinit "liberio"] d)
      | Ok _ =>
          (Ok tt, with_obj (with_available_endpoints full_pool (obj d))
                    [BaseDeinit; XportMgrDeinit "udp"; XportMgrDeinit "liberio"] d)
      end
    end
  end.
Proof.
  intros Hinit. unfold deinit. rewrite sbind_gets, Hinit. cbn [negb]. cbv iota.
  rewrite sbind_call. destruct (super_deinit env) as [[]|e]; [|done].
  cbv beta. simpl xport_mgrs_deinit. rewrite sbind_run, sbind_call.
  destruct (xport_mgr_deinit env "udp") as [[]|e];
    [|by rewrite !with_obj_with_obj].
  cbv beta. rewrite sbind_call.
  destruct (xport_mgr_deinit env "liberio") as [[]|e];
    [|by rewrite !with_obj_with_obj].
  cbv beta. unfold mret, SM_ret, clocking, deinit_reset_pool, modify.
  rewrite !with_obj_with_obj. cbn [obj with_obj effect_log with_available_endpoints].
  by rewrite drop_all.
Qed.

Lemma init_uninitialized b env args d :
  _device_initialized d = false → init b env args d = (Ok false, d).
Proof. intros H. unfold init. by rewrite sbind_gets, H. Qed.

Lemma deinit_uninitialized env d :
  _device_initialized d = false → deinit env d = (Ok tt, d).
Proof. intros H. unfold deinit. by rewrite sbind_gets, H. Qed.

Lemma pps_export_setting_app l1 l2 :
  pps_export_setting (l1 ++ l2) =
  match pps_export_setting l2 with
  | Some v => Some v
  | None => pps_export_setting l1
  end.
Proof.
  unfold pps_export_setting. rewrite omap_app.
  destruct (omap _ l2) as [|v l] using rev_ind.
  - by rewrite app_nil_r.
  - by rewrite app_assoc, !last_snoc.
Qed.

Lemma pps_export_setting_disable evs tl :
  pps_export_setting (RegEnablePpsOut (PpsBool false) :: (Clocking <$> evs) ++ tl) =
  match pps_export_setting tl with
  | Some v => Some v
  | None => Some (PpsBool false)
  end.
Proof.
  change (?x :: ?l ++ tl) with (([x] ++ l) ++ tl).
  rewrite !pps_export_setting_app.
  destruct (pps_export_setting tl); [done|].
  replace (pps_export_setting (Clocking <$> evs)) with (@None pps_arg); [done|].
  unfold pps_export_setting.
  replace (omap _ (Clocking <$> evs)) with (@nil pps_arg); [done|].
  induction evs as [|e evs IH]; [done|]. simpl. apply IH.
Qed.

Lemma force_internal_lo_lookup args lo k :
  force_internal_lo args lo !! k =
  if decide (k = lo) then (λ _, PStr "internal") <$> args !! lo else args !! k.
Proof.
  unfold force_internal_lo. destruct (args !! lo) as [v|] eqn:E.
  - destruct (decide (v ≠ PStr "internal")) as [Hv|Hv].
    + destruct (decide (k = lo)) as [->|Hne].
      * by rewrite lookup_insert_eq.
      * by rewrite lookup_insert_ne.
    + apply dec_stable in Hv. subst v.
      destruct (decide (k = lo)) as [->|Hne]; [|done]. by rewrite E.
  - destruct (decide (k = lo)) as [->|Hne]; [|done]. by rewrite E.
Qed.

Lemma init_sync_args_lookup args s k :
  init_sync_args args s !! k =
  if decide (k = "time_source") then Some (resolved_time_source args s)
  else if decide (k = "clock_source") then Some (resolved_clock_source args s)
  else args !! k.
Proof.
  unfold init_sync_args, resolved_time_source, resolved_clock_source.
  cbv zeta. destruct (decide (k = "time_source")) as [->|Ht].
  - rewrite lookup_insert_eq. by rewrite lookup_insert_ne.
  - rewrite lookup_insert_ne by done.
    destruct (decide (k = "clock_source")) as [->|Hc].
    + by rewrite lookup_insert_eq.
    + by rewrite lookup_insert_ne.
Qed.

Lemma init_sync_args_resolved args s :
  resolved_clock_source (init_sync_args args s) s = resolved_clock_source args s
  ∧ resolved_time_source (init_sync_args args s) s = resolved_time_source args s.
Proof.
  unfold resolved_clock_source at 1, resolved_time_source at 1.
  by rewrite !init_sync_args_lookup.
Qed.

Lemma init_dboard_args_sources product args s :
  init_dboard_args product args s !! "clock_source"
  = Some (resolved_clock_source args s)
  ∧ init_dboard_args product args s !! "time_source"
    = Some (resolved_time_source args s).
Proof.
  unfold init_dboard_args, lo_source_keys. case_decide.
  - simpl. rewrite !force_internal_lo_lookup. simpl.
    by rewrite !init_sync_args_lookup.
  - by rewrite !init_sync_args_lookup.
Qed.

Lemma init_dboard_args_lookup product args s k :
  k ≠ "clock_source" → k ≠ "time_source" →
  init_dboard_args product args s !! k =
  if decide (product = PStr "n300" ∧ k ∈ lo_source_keys)
  then (λ _, PStr "internal") <$> args !! k
  else args !! k.
Proof.
  intros Hc Ht. unfold init_dboard_args.
  assert (∀ k', k' ≠ "clock_source" → k' ≠ "time_source" →
                init_sync_args args s !! k' = args !! k') as Hsync.
  { intros k' ??. rewrite init_sync_args_lookup. by repeat case_decide. }
  destruct (decide (product = PStr "n300")) as [Hp|Hp].
  - simpl. rewrite !force_internal_lo_lookup. unfold lo_source_keys.
    destruct (decide (k = "tx_lo_source")) as [->|Htx].
    + rewrite (decide_False (P := "tx_lo_source" = "rx_lo_source")) by done.
      rewrite decide_True by (rewrite !elem_of_cons; tauto).
      by rewrite Hsync.
    + destruct (decide (k = "rx_lo_source")) as [->|Hrx].
      * rewrite decide_True by (rewrite !elem_of_cons; tauto). by rewrite Hsync.
      * rewrite decide_False; [by rewrite Hsync|].
        rewrite !elem_of_cons, elem_of_nil. tauto.
  - rewrite decide_False by tauto. by apply Hsync.
Qed.

(** X5.  On a device that was never fully initialised, [init] returns
    False and [deinit] returns, and neither calls anything or changes
    anything: the sources, the pool and the log are as they were. *)
Theorem session_never_initialized b env args d :
  _device_initialized d = false →
  init b env args d = (Ok false, d) ∧ deinit env d = (Ok tt, d).
Proof.
  intros H. unfold init, deinit. rewrite !sbind_gets, H. by split.
Qed.

(** X6.  [init] disables the PPS export first.  If it then raises, in
    [set_sync_source] or in the base class, and the backends' [init] would
    return, the export is left disabled and no backend was initialised. *)
Theorem init_raise_keeps_pps_disabled b env args d e d' :
  _device_initialized d = true →
  (∀ k a, snd (xport_mgr_init env k a) = Ok tt) →
  init b env args d = (Raise e, d') →
  pps_export_setting (session_log d') = Some (PpsBool false)
  ∧ ∃ new, session_log d' = session_log d ++ RegEnablePpsOut (PpsBool false) :: new
           ∧ Forall (λ ev, ∀ k a, ev ≠ XportMgrInit k a) new
           ∧ Forall (λ ev, ∀ v, ev ≠ RegEnablePpsOut v) new.
Proof.
  intros Hinit Hmgr.
  destruct (init_stages b env args d Hinit) as (evs & Hevs & ->).
  destruct (fst (set_sync_source _ _ _)) as [[]|e1].
  - destruct (snd (super_init env _)) as [r|e2].
    + by rewrite !Hmgr.
    + intros [= <- <-]. cbn [session_log with_obj]. split.
      * by rewrite pps_export_setting_app, pps_export_setting_disable.
      * eexists. split; [done|].
        rewrite !Forall_app, !Forall_fmap. split_and!.
        -- by apply Forall_true.
        -- by repeat constructor.
        -- by apply Forall_true.
        -- by repeat constructor.
  - intros [= <- <-]. cbn [session_log with_obj]. split.
    + rewrite pps_export_setting_app.
      rewrite <- (app_nil_r (Clocking <$> evs)).
      by rewrite pps_export_setting_disable.
    + eexists. split; [done|].
      rewrite !Forall_fmap. split; by apply Forall_true.
Qed.

(** X7.  The order of a call of [init] that returns, on an initialised
    device: PPS export off, the entries of [set_sync_source], [init] of the
    base class, PPS export on with the value of 'pps_export' (True by
    default), [init] of the UDP and of the Liberio backend.  The
    dictionary handed to the base class, and so to the daughterboards,
    holds exactly the clock and time source that the object has stored. *)
Theorem init_returns_order b env args d r d' :
  _device_initialized d = true →
  init b env args d = (Ok r, d') →
  ∃ evs a,
    session_log d' =
      session_log d
      ++ [RegEnablePpsOut (PpsBool false)]
      ++ (Clocking <$> evs)
      ++ [BaseInit a;
          RegEnablePpsOut (pps_export_arg (fst (super_init env a)));
          XportMgrInit "udp" (fst (super_init env a));
          XportMgrInit "liberio"
            (fst (xport_mgr_init env "udp" (fst (super_init env a))))]
    ∧ effect_log (obj d') = effect_log (obj d) ++ evs
    ∧ a !! "clock_source" = Some (_clock_source (obj d'))
    ∧ a !! "time_source" = Some (_time_source (obj d'))
    ∧ snd (super_init env a) = Ok r.
Proof.
  intros Hinit.
  destruct (init_stages b env args d Hinit) as (evs & Hevs & ->).
  destruct (set_sync_source b _ (obj d)) as [r1 s1] eqn:Erun.
  simpl fst. simpl snd in Hevs. cbn [snd].
  destruct r1 as [[]|e]; [|done].
  set (a := init_dboard_args _ _ _).
  destruct (snd (super_init env a)) as [r0|] eqn:Esuper; [|done].
  destruct (snd (xport_mgr_init env "udp" _)) as [[]|]; [|done].
  destruct (snd (xport_mgr_init env "liberio" _)) as [[]|]; [|done].
  intros [= <- <-]. exists evs, a. cbn [session_log obj with_obj].
  apply set_sync_source_ok_pair in Erun as (Hc & Ht & _).
  destruct (init_sync_args_resolved args (obj d)) as [E1 E2].
  rewrite E1 in Hc. rewrite E2 in Ht.
  destruct (init_dboard_args_sources (device_info_product d) args (obj d))
    as [Ha1 Ha2].
  split_and!; [done|done|by rewrite Hc|by rewrite Ht|done].
Qed.

(** The dictionary of every [init] call on the base class that [init]
    logs. *)
Lemma init_base_args b env args d r d' new a :
  init b env args d = (r, d') →
  session_log d' = session_log d ++ new →
  BaseInit a ∈ new →
  a = init_dboard_args (device_info_product d) args (obj d).
Proof.
  destruct (_device_initialized d) eqn:Hinit; last first.
  { rewrite (init_uninitialized b env args d Hinit).
    intros [= <- <-] Hnew. rewrite <- (app_nil_r (session_log d)) in Hnew at 1.
    apply app_inv_head in Hnew as <-. intros H. by apply elem_of_nil in H. }
  destruct (init_stages b env args d Hinit) as (evs & _ & ->).
  assert (BaseInit a ∉ Clocking <$> evs) as Hno.
  { rewrite !list_elem_of_fmap. intros (? & ? & _); done. }
  intros Hrun Hnew H. revert Hrun.
  repeat match goal with |- context [match ?x with _ => _ end] => destruct x end;
    intros [= <- <-]; cbn [session_log with_obj] in Hnew;
    apply app_inv_head in Hnew as <-;
    repeat (apply elem_of_app in H as [H|H] || apply elem_of_cons in H as [H|H]);
    try (by apply elem_of_nil in H); try done;
    congruence.
Qed.

(** X8.  On an N300 the daughterboards never see an external LO source:
    in the dictionary handed to [init] of the base class, 'rx_lo_source'
    and 'tx_lo_source' are 'internal' if they were given at all; on every
    other product they are as given.  The other keys, the two sources
    apart, are as given on every product. *)
Theorem init_lo_sources b env args d r d' new a k :
  init b env args d = (r, d') →
  session_log d' = session_log d ++ new →
  BaseInit a ∈ new →
  k ≠ "clock_source" → k ≠ "time_source" →
  a !! k =
  if decide (device_info_product d = PStr "n300" ∧ k ∈ lo_source_keys)
  then (λ _, PStr "internal") <$> args !! k
  else args !! k.
Proof.
  intros Hrun Hnew Hin Hc Ht.
  rewrite (init_base_args _ _ _ _ _ _ _ _ Hrun Hnew Hin).
  by apply init_dboard_args_lookup.
Qed.

(** X9.  A session [init] that asks for the sources the object has stored,
    or for none, leaves the clocks alone: the object is unchanged and no
    entry of the clock API is logged, whatever the base class and the
    backends do. *)
Theorem init_same_sources_no_clocking b env args d r d' :
  _device_initialized d = true →
  _clock_source (obj d) ∈ get_clock_sources →
  _time_source (obj d) ∈ get_time_sources →
  same_pair (resolved_clock_source args (obj d))
            (resolved_time_source args (obj d)) (obj d) →
  init b env args d = (r, d') →
  obj d' = obj d
  ∧ ∀ new, session_log d' = session_log d ++ new →
           Forall (λ ev, ∀ e, ev ≠ Clocking e) new.
Proof.
  intros Hinit Hcs Hts [Ec Et].
  destruct (init_stages b env args d Hinit) as (evs & Hevs & ->).
  assert (set_sync_source b (init_sync_args args (obj d)) (obj d) = (Ok tt, obj d))
    as Hrun.
  { rewrite set_sync_source_cases.
    destruct (init_sync_args_resolved args (obj d)) as [-> ->].
    rewrite Ec, Et.
    rewrite (bool_decide_eq_true_2 _ Hcs), (bool_decide_eq_true_2 _ Hts).
    by rewrite bool_decide_eq_true_2. }
  rewrite Hrun in Hevs |- *. simpl in Hevs.
  rewrite <- (app_nil_r (effect_log (obj d))) in Hevs at 1.
  apply app_inv_head in Hevs as <-. cbn [fst snd fmap list_fmap].
  repeat match goal with |- context [match ?x with _ => _ end] => destruct x end;
    intros [= <- <-]; (split; [done|]); intros new Hnew;
    cbn [session_log with_obj] in Hnew; apply app_inv_head in Hnew as <-;
    by repeat constructor.
Qed.

(** X10.  When the base class and both backends shut down, [deinit]
    returns with the pool back to all 256 addresses, so that every address
    from 0 to 255 can be requested again; the sources, the external
    frequency and the effect log are as they were, and the three calls are
    logged in order. *)
Theorem deinit_resets_pool env d :
  _device_initialized d = true →
  super_deinit env = Ok tt →
  (∀ k, k ∈ xport_mgr_keys → xport_mgr_deinit env k = Ok tt) →
  ∃ d', deinit env d = (Ok tt, d')
    ∧ _available_endpoints (obj d') = full_pool
    ∧ same_fields (with_available_endpoints full_pool (obj d)) (obj d')
    ∧ effect_log (obj d') = effect_log (obj d)
    ∧ session_log d' =
        session_log d ++ [BaseDeinit; XportMgrDeinit "udp"; XportMgrDeinit "liberio"]
    ∧ ∀ a, (0 ≤ a < 256)%Z → pick_src_address a (obj d') = (Ok a, obj d').
Proof.
  intros Hinit Hbase Hmgr. rewrite (deinit_stages env d Hinit), Hbase.
  rewrite !Hmgr by (unfold xport_mgr_keys; rewrite !elem_of_cons; tauto).
  eexists. split; [done|]. cbn [obj with_obj session_log].
  split_and!; try done.
  intros a Ha. rewrite pick_src_address_cases.
  cbn [_available_endpoints with_available_endpoints].
  rewrite bool_decide_eq_true_2; [done|].
  unfold full_pool. apply list_elem_of_fmap. exists (Z.to_nat a).
  split; [lia|]. apply elem_of_seq. lia.
Qed.

(** X11.  The pool is reset last: if [deinit] raises, in the base class or
    in a backend, the object is as it was, and the addresses committed in
    the session stay taken. *)
Theorem deinit_raise_keeps_pool env d e d' :
  deinit env d = (Raise e, d') →
  obj d' = obj d.
Proof.
  destruct (_device_initialized d) eqn:Hinit; last first.
  { by rewrite (deinit_uninitialized env d Hinit). }
  rewrite (deinit_stages env d Hinit).
  repeat match goal with |- context [match ?x with _ => _ end] => destruct x end;
    by intros [= <- <-].
Qed.

Lemma session_never_initialized_witness :
  init example_board quiet_env ∅ never_initialized = (Ok false, never_initialized)
  ∧ deinit quiet_env never_initialized = (Ok tt, never_initialized).
Proof.
  apply (session_never_initialized example_board quiet_env ∅ never_initialized).
  reflexivity.
Defined.

Lemma init_raise_keeps_pps_disabled_witness :
  fst (init example_board failing_init_env ∅ (attached booted "n310"))
  = Raise DboardError
  ∧ pps_export_setting
      (session_log (snd (init example_board failing_init_env ∅
                           (attached booted "n310"))))
    = Some (PpsBool false).
Proof.
  split; [by vm_compute|].
  destruct (init_raise_keeps_pps_disabled example_board failing_init_env ∅
              (attached booted "n310") DboardError
              (snd (init example_board failing_init_env ∅ (attached booted "n310"))))
    as [H _]; [reflexivity|done|by vm_compute|exact H].
Defined.

Lemma init_returns_order_witness :
  ∃ evs a,
    session_log (snd (init example_board quiet_env external_lo_args
                        (attached booted "n300")))
    = [] ++ [RegEnablePpsOut (PpsBool false)]
      ++ (Clocking <$> evs)
      ++ [BaseInit a;
          RegEnablePpsOut (pps_export_arg (fst (super_init quiet_env a)));
          XportMgrInit "udp" (fst (super_init quiet_env a));
          XportMgrInit "liberio"
            (fst (xport_mgr_init quiet_env "udp" (fst (super_init quiet_env a))))]
    ∧ a !! "clock_source" = Some (PStr "internal")
    ∧ a !! "time_source" = Some (PStr "internal").
Proof.
  destruct (init_returns_order example_board quiet_env external_lo_args
              (attached booted "n300") true
              (snd (init example_board quiet_env external_lo_args
                      (attached booted "n300"))))
    as (evs & a & Hlog & Hevs & Hc & Ht & _); [reflexivity|by vm_compute|].
  exists evs, a. split; [exact Hlog|]. split.
  - rewrite Hc. by vm_compute.
  - rewrite Ht. by vm_compute.
Defined.

Lemma init_lo_sources_witness :
  init_dboard_args (PStr "n300") external_lo_args booted !! "rx_lo_source"
  = Some (PStr "internal").
Proof.
  rewrite (init_lo_sources example_board quiet_env external_lo_args
             (attached booted "n300")
             (fst (init example_board quiet_env external_lo_args
                     (attached booted "n300")))
             (snd (init example_board quiet_env external_lo_args
                     (attached booted "n300")))
             (session_log (snd (init example_board quiet_env external_lo_args
                                  (attached booted "n300"))))
             (init_dboard_args (PStr "n300") external_lo_args booted)
             "rx_lo_source").
  - by vm_compute.
  - by destruct (init _ _ _ _).
  - reflexivity.
  - compute_done.
  - done.
  - done.
Defined.

Lemma init_same_sources_no_clocking_witness :
  obj (snd (init example_board quiet_env ∅ (attached booted "n310"))) = booted.
Proof.
  destruct (init_same_sources_no_clocking example_board quiet_env ∅
              (attached booted "n310")
              (fst (init example_board quiet_env ∅ (attached booted "n310")))
              (snd (init example_board quiet_env ∅ (attached booted "n310"))))
    as [H _].
  - reflexivity.
  - compute_done.
  - compute_done.
  - compute_done.
  - by destruct (init _ _ _ _).
  - exact H.
Defined.

Lemma deinit_resets_pool_witness :
  ∃ d', deinit quiet_env (attached committed_5 "n310") = (Ok tt, d')
    ∧ _available_endpoints (obj d') = full_pool
    ∧ pick_src_address 5 (obj d') = (Ok 5, obj d').
Proof.
  destruct (deinit_resets_pool quiet_env (attached committed_5 "n310"))
    as (d' & Hrun & Hpool & _ & _ & _ & Hpick); [reflexivity|reflexivity|done|].
  exists d'. split; [exact Hrun|]. split; [exact Hpool|]. apply Hpick. lia.
Defined.

Lemma deinit_raise_keeps_pool_witness :
  fst (deinit failing_deinit_env (attached committed_5 "n310")) = Raise DboardError
  ∧ obj (snd (deinit failing_deinit_env (attached committed_5 "n310")))
    = committed_5.
Proof.
  split; [by vm_compute|].
  apply (deinit_raise_keeps_pool failing_deinit_env (attached committed_5 "n310")
           DboardError).
  by vm_compute.
Defined.

(** * Sensors *)


Lemma ref_lock_flags_calls dbs i slot :
  slot ∈ fst (ref_lock_flags i dbs) ↔
  ∃ k, slot = (i + k)%nat
       ∧ (∃ r, dbs !! k = Some (Some r))
       ∧ ∀ j e, (j < k)%nat → dbs !! j ≠ Some (Some (Raise e)).
Proof.
  revert i. induction dbs as [|c dbs IH]; intros i.
  - simpl. rewrite elem_of_nil. split; [done|]. intros (k & _ & (r & Hr) & _). done.
  - assert (∀ P : nat → Prop,
              (∃ k, P (S k)) ∨ P 0%nat ↔ ∃ k, P k) as Hsplit.
    { intros P. split.
      - intros [[k H]|H]; eauto.
      - intros [[|k] H]; eauto. }
    destruct c as [[locked|e]|]; simpl.
    + destruct (ref_lock_flags (S i) dbs) as [calls r] eqn:E. simpl.
      specialize (IH (S i)). rewrite E in IH. simpl in IH.
      rewrite elem_of_cons, IH. split.
      * intros [->|(k & -> & Hr & Hno)].
        -- exists 0%nat. split; [lia|]. split; [by eexists|]. intros; lia.
        -- exists (S k). split; [lia|]. split; [done|].
           intros [|j] e Hj; [done|]. simpl. apply Hno. lia.
      * intros ([|k] & -> & Hr & Hno).
        -- left. lia.
        -- right. exists k. split; [lia|]. split; [done|].
           intros j e Hj. apply (Hno (S j)). lia.
    + rewrite list_elem_of_singleton. split.
      * intros ->. exists 0%nat. split; [lia|]. split; [by eexists|]. intros; lia.
      * intros ([|k] & -> & Hr & Hno); [lia|].
        exfalso. by apply (Hno 0%nat e); [lia|].
    + destruct (ref_lock_flags (S i) dbs) as [calls r] eqn:E. simpl.
      specialize (IH (S i)). rewrite E in IH. simpl in IH.
      rewrite IH. split.
      * intros (k & -> & Hr & Hno).
        exists (S k). split; [lia|]. split; [done|].
        intros [|j] e Hj; [done|]. simpl. apply Hno. lia.
      * intros ([|k] & -> & Hr & Hno).
        -- destruct Hr as [r' Hr]. done.
        -- exists k. split; [lia|]. split; [done|].
           intros j e Hj. apply (Hno (S j)). lia.
Qed.

Lemma ref_lock_flags_sorted dbs i :
  StronglySorted lt (fst (ref_lock_flags i dbs))
  ∧ Forall (λ slot, (i ≤ slot)%nat) (fst (ref_lock_flags i dbs)).
Proof.
  revert i. induction dbs as [|c dbs IH]; intros i; [by split; constructor|].
  destruct (IH (S i)) as [Hs Hall].
  destruct c as [[locked|e]|]; simpl.
  - destruct (ref_lock_flags (S i) dbs) as [calls r]. simpl in *. split.
    + constructor; [done|]. eapply Forall_impl; [done|]. simpl. lia.
    + constructor; [lia|]. eapply Forall_impl; [done|]. simpl. lia.
  - split; repeat constructor.
  - destruct (ref_lock_flags (S i) dbs) as [calls r]. simpl in *. split; [done|].
    eapply Forall_impl; [done|]. simpl. lia.
Qed.

Lemma ref_lock_flags_ok dbs i :
  Forall (λ c, ∀ e, c ≠ Some (Raise e)) dbs →
  snd (ref_lock_flags i dbs)
  = Ok ((λ c, match c with Some (Ok locked) => locked | _ => true end) <$> dbs).
Proof.
  revert i. induction dbs as [|c dbs IH]; intros i Hall; [done|].
  apply Forall_cons in Hall as [Hc Hall]. specialize (IH (S i) Hall).
  destruct c as [[locked|e]|]; simpl.
  - destruct (ref_lock_flags (S i) dbs) as [calls r]. simpl in *. by rewrite IH.
  - by destruct (Hc e).
  - destruct (ref_lock_flags (S i) dbs) as [calls r]. simpl in *. by rewrite IH.
Qed.

(** The flags that the list comprehension builds are all true exactly
    when every board that has the sensor reports lock. *)
Lemma ref_lock_flags_all (dbs : list (option (result bool))) :
  forallb id ((λ c, match c with Some (Ok locked) => locked | _ => true end) <$> dbs)
  = true
  ↔ ∀ slot locked, dbs !! slot = Some (Some (Ok locked)) → locked = true.
Proof.
  rewrite <- Is_true_true, forallb_True, Forall_lookup. split.
  - intros H slot locked Hin. specialize (H slot locked).
    rewrite list_lookup_fmap, Hin in H. simpl in H.
    specialize (H eq_refl). by destruct locked.
  - intros H slot locked. rewrite list_lookup_fmap.
    destruct (dbs !! slot) as [[[l|e]|]|] eqn:E; simpl; try done.
    + intros [= <-]. by rewrite (H slot l E).
    + by intros [= <-].
    + by intros [= <-].
Qed.

(** The sensor dictionary when no [get_ref_lock] raises. *)
Lemma ref_lock_sensor_returns dbs :
  Forall (λ c, ∀ e, c ≠ Some (Raise e)) dbs →
  snd (get_ref_lock_sensor dbs)
  = Ok (let lock_status :=
          forallb id ((λ c, match c with Some (Ok locked) => locked | _ => true end)
                        <$> dbs) in
        sensor_dict "ref_locked" "BOOLEAN"
          (if lock_status then "locked" else "unlocked")
          (str_lower_bool lock_status)).
Proof.
  intros Hall. unfold get_ref_lock_sensor.
  pose proof (ref_lock_flags_ok dbs 0 Hall) as Hok.
  destruct (ref_lock_flags 0 dbs) as [calls r]. simpl in Hok. by subst r.
Qed.

(** X12.  When no [get_ref_lock] raises, [get_ref_lock_sensor] answers
    'true' exactly when every daughterboard that has the sensor reports
    lock, so also when there is no daughterboard or none has the sensor;
    the value is 'true' or 'false', and the unit is 'locked' exactly when
    the value is 'true'. *)
Theorem get_ref_lock_sensor_value dbs :
  Forall (λ c, ∀ e, c ≠ Some (Raise e)) dbs →
  ∃ sensor,
    snd (get_ref_lock_sensor dbs) = Ok sensor
    ∧ (sensor !! "value" = Some "true"
       ↔ ∀ slot locked, dbs !! slot = Some (Some (Ok locked)) → locked = true)
    ∧ (sensor !! "value" = Some "true" ∨ sensor !! "value" = Some "false")
    ∧ (sensor !! "unit" = Some "locked" ↔ sensor !! "value" = Some "true")
    ∧ (sensor !! "unit" = Some "locked" ∨ sensor !! "unit" = Some "unlocked").
Proof.
  intros Hall. rewrite (ref_lock_sensor_returns dbs Hall).
  eexists. split; [done|]. cbv zeta. rewrite <- ref_lock_flags_all.
  destruct (forallb id _); unfold sensor_dict; simpl.
  - split_and!; try done; by left.
  - split_and!; try done; by right.
Qed.

(** X13.  [get_ref_lock_sensor] polls the daughterboards in slot order,
    each at most once: a slot is polled exactly when its board has the
    sensor and no earlier board raised.  An unlocked board does not stop
    the poll. *)
Theorem get_ref_lock_sensor_polls dbs :
  let calls := fst (get_ref_lock_sensor dbs) in
  StronglySorted lt calls
  ∧ ∀ slot, slot ∈ calls ↔
      (∃ r, dbs !! slot = Some (Some r))
      ∧ ∀ j e, (j < slot)%nat → dbs !! j ≠ Some (Some (Raise e)).
Proof.
  unfold get_ref_lock_sensor.
  pose proof (ref_lock_flags_sorted dbs 0) as [Hs _].
  pose proof (ref_lock_flags_calls dbs 0) as Hcalls.
  destruct (ref_lock_flags 0 dbs) as [calls r]. simpl in *.
  split; [done|]. intros slot. rewrite Hcalls. split.
  - intros (k & -> & H). done.
  - intros H. by exists slot.
Qed.

(** X14.  One pass of the monitor loop, when no [get_ref_lock] raises,
    writes the GPS LED and then the REF LED: the GPS LED is lit exactly
    when GPS-LOCKOK reads non-zero, which is when [get_gps_lock_sensor]
    says 'true', and the REF LED exactly when every daughterboard that has
    the sensor reports lock. *)
Theorem monitor_pass_leds pin dbs :
  Forall (λ c, ∀ e, c ≠ Some (Raise e)) dbs →
  ∃ gps ref,
    monitor_pass pin dbs = ([("LED_GPS", gps); ("LED_REF", ref)], Ok tt)
    ∧ (gps = 1 ↔ pin ≠ 0) ∧ (gps = 0 ↔ pin = 0)
    ∧ (ref = 1 ↔ ∀ slot locked, dbs !! slot = Some (Some (Ok locked)) → locked = true)
    ∧ (ref = 0 ∨ ref = 1)
    ∧ (gps = 1 ↔ get_gps_lock_sensor pin !! "value" = Some "true").
Proof.
  intros Hall. unfold monitor_pass.
  rewrite (ref_lock_sensor_returns dbs Hall). cbv zeta.
  eexists _, _. split; [done|]. rewrite <- ref_lock_flags_all.
  unfold get_gps_lock_sensor, sensor_dict. cbv zeta.
  destruct (forallb id _); destruct (decide (pin = 0)) as [->|Hpin];
    [rewrite (bool_decide_eq_false_2 (0 ≠ 0)) by (by intros [])
    |rewrite (bool_decide_eq_true_2 (pin ≠ 0)) by done
    |rewrite (bool_decide_eq_false_2 (0 ≠ 0)) by (by intros [])
    |rewrite (bool_decide_eq_true_2 (pin ≠ 0)) by done];
    split_and!;
    first [ done | by left | by right
          | split; intros; first [done | lia] ].
Qed.


(** * EEPROMs *)


Lemma map_fold_add_user_blob (info user : gmap string blob) :
  map_fold add_user_blob info user = info ∪ user.
Proof.
  apply (map_fold_weak_ind (λ r m, r = info ∪ m)).
  - by rewrite map_union_empty.
  - intros k b m r Hk ->. unfold add_user_blob.
    destruct (decide (is_Some ((info ∪ m) !! k))) as [[v Hv]|Hnone].
    + apply map_eq. intros k'. rewrite !lookup_union.
      destruct (decide (k' = k)) as [->|Hne].
      * rewrite lookup_insert_eq, Hk. rewrite lookup_union, Hk in Hv.
        by destruct (info !! k).
      * by rewrite lookup_insert_ne.
    + apply eq_None_not_Some in Hnone. apply lookup_union_None in Hnone as [Hi _].
      by rewrite insert_union_r.
Qed.

(** X15.  [get_db_eeprom] answers the entries of [device_info] together
    with the user blobs of the board; where a user blob has the key of a
    [device_info] entry, the [device_info] entry stays. *)
Theorem get_db_eeprom_merge dboards idx db user :
  list_getitem dboards idx = Some db →
  get_user_eeprom_data db = Some (Returns user) →
  ∃ data, get_db_eeprom dboards idx = Returns data
    ∧ data = device_info db ∪ user
    ∧ (∀ k v, device_info db !! k = Some v → data !! k = Some v)
    ∧ (∀ k, device_info db !! k = None → data !! k = user !! k).
Proof.
  intros Hdb Huser. unfold get_db_eeprom. rewrite Hdb, Huser.
  rewrite map_fold_add_user_blob. eexists. split; [done|]. split; [done|]. split.
  - intros k v Hk. by apply lookup_union_Some_l.
  - intros k Hk. by rewrite lookup_union_r.
Qed.

Lemma list_getitem_range {A} (l : list A) (i : Z) :
  (is_Some (list_getitem l i) ↔ (- Z.of_nat (length l) ≤ i < Z.of_nat (length l))%Z)
  ∧ ((- Z.of_nat (length l) ≤ i < 0)%Z →
     list_getitem l i = list_getitem l (Z.of_nat (length l) + i)).
Proof.
  unfold list_getitem. split.
  - repeat case_decide; rewrite ?lookup_lt_is_Some; try lia.
    split; [by intros []|lia].
  - intros Hi. rewrite decide_False, decide_True by lia.
    by rewrite (decide_True (P := (0 ≤ _)%Z)) by lia.
Qed.

(** X16.  The slot index of [get_db_eeprom] and [set_db_eeprom] is a list
    index: out of range it raises IndexError, which the handler for
    KeyError does not catch, and nothing is written; a negative index in
    range counts from the last slot. *)
Theorem db_eeprom_index dboards idx data :
  let n := Z.of_nat (length dboards) in
  (¬ (- n ≤ idx < n)%Z →
   get_db_eeprom dboards idx = Raises IndexError
   ∧ set_db_eeprom dboards idx data = (None, Raises IndexError))
  ∧ ((- n ≤ idx < 0)%Z →
     get_db_eeprom dboards idx = get_db_eeprom dboards (n + idx)
     ∧ set_db_eeprom dboards idx data = set_db_eeprom dboards (n + idx) data).
Proof.
  intros n. destruct (list_getitem_range dboards idx) as [Hr Hneg]. fold n in Hr, Hneg.
  unfold get_db_eeprom, set_db_eeprom. split.
  - intros Hout. destruct (list_getitem dboards idx) eqn:E; [|done].
    destruct Hout. apply Hr. by eexists.
  - intros Hi. by rewrite (Hneg Hi).
Qed.

Lemma safe_user_data_returns info items safe0 safe :
  safe_user_data info items safe0 = Returns safe →
  Forall (writable_item info) items
  ∧ (∀ k, is_Some (safe !! k) ↔ is_Some (safe0 !! k) ∨ k ∈ items.*1)
  ∧ (NoDup items.*1 → ∀ k,
       (k ∉ items.*1 → safe !! k = safe0 !! k)
       ∧ ∀ s, (k, BStr s) ∈ items → safe !! k = Some (BBytes s)).
Proof.
  revert safe0. induction items as [|[k0 b] items IH]; intros safe0; simpl.
  - intros [= <-]. split; [constructor|]. split.
    + intros k. rewrite elem_of_nil. tauto.
    + intros _ k. split; [done|]. intros s H. by apply elem_of_nil in H.
  - case_decide as Hinfo; [done|]. destruct b as [s| |]; [|done..].
    unfold encode_ascii. destruct (forallb _ s) eqn:Hascii; [|done].
    intros Hrun. destruct (IH _ Hrun) as (Hall & Hdom & Hval). split_and!.
    + constructor; [|done]. split.
      * simpl. by apply eq_None_not_Some.
      * exists s. split; [done|].
        apply Is_true_true, forallb_True in Hascii.
        eapply Forall_impl; [done|]. simpl. intros c Hc.
        apply Is_true_true in Hc. by apply N.ltb_lt.
    + intros k. rewrite Hdom, elem_of_cons, lookup_insert_is_Some.
      destruct (decide (k0 = k)) as [->|]; intuition congruence.
    + intros Hnd k. apply NoDup_cons in Hnd as [Hk0 Hnd].
      destruct (Hval Hnd k) as [Hout Hin]. split.
      * rewrite not_elem_of_cons. intros [Hne Hk]. rewrite (Hout Hk).
        by rewrite lookup_insert_ne.
      * intros s' [[= -> ->]|Hs']%elem_of_cons.
        -- rewrite (Hout Hk0). by rewrite lookup_insert_eq.
        -- by apply Hin.
Qed.

Lemma safe_user_data_writable info items safe0 :
  Forall (writable_item info) items →
  ∃ safe, safe_user_data info items safe0 = Returns safe.
Proof.
  revert safe0. induction items as [|[k0 b] items IH]; intros safe0 Hall; simpl.
  - by eexists.
  - apply Forall_cons in Hall as [[Hinfo (s & Hs & Hascii)] Hall]. simpl in *.
    subst b. rewrite decide_False by (rewrite Hinfo; by intros []).
    unfold encode_ascii.
    assert (forallb (λ c, c <? 128)%N s = true) as ->.
    { apply Is_true_true, forallb_True. eapply Forall_impl; [done|].
      simpl. intros c Hc. by apply Is_true_true, N.ltb_lt. }
    by apply IH.
Qed.

(** X17.  [set_db_eeprom] validates every item before it writes.  If all
    items have a key outside [device_info] and an ASCII string as value,
    the board is handed one dictionary with exactly the keys given, none
    of them a key of [device_info], each string encoded; otherwise the
    method raises and the board is handed nothing. *)
Theorem set_db_eeprom_validates_first dboards idx db setter data :
  list_getitem dboards idx = Some db →
  set_user_eeprom_data db = Some setter →
  (Forall (writable_item (device_info db)) data →
   ∃ safe, set_db_eeprom dboards idx data = (Some safe, setter safe)
     ∧ (∀ k, is_Some (safe !! k) ↔ k ∈ data.*1)
     ∧ (∀ k, is_Some (safe !! k) → device_info db !! k = None)
     ∧ (NoDup data.*1 → ∀ k s, (k, BStr s) ∈ data → safe !! k = Some (BBytes s)))
  ∧ (¬ Forall (writable_item (device_info db)) data →
     ∃ e, set_db_eeprom dboards idx data = (None, Raises e)).
Proof.
  intros Hdb Hset. unfold set_db_eeprom. rewrite Hdb, Hset. split.
  - intros Hall.
    destruct (safe_user_data_writable _ _ ∅ Hall) as [safe Hsafe].
    rewrite Hsafe. exists safe. split; [done|].
    destruct (safe_user_data_returns _ _ _ _ Hsafe) as (_ & Hdom & Hval).
    assert (∀ k, is_Some (safe !! k) ↔ k ∈ data.*1) as Hkeys.
    { intros k. rewrite Hdom, lookup_empty. split; [|by right].
      intros [[? [=]]|]; done. }
    split_and!; [done| |].
    + intros k Hk%Hkeys. apply list_elem_of_fmap in Hk as (item & -> & Hin).
      rewrite Forall_forall in Hall. by destruct (Hall item Hin).
    + intros Hnd k s. by apply Hval.
  - intros Hbad. destruct (safe_user_data _ data ∅) as [safe|e] eqn:Hsafe.
    + destruct Hbad. by destruct (safe_user_data_returns _ _ _ _ Hsafe).
    + by eexists.
Qed.

(** X18.  What [set_db_eeprom] hands to a board, [get_db_eeprom] reads
    back from a board that stored it: every written blob is in the
    answer, next to every entry of [device_info], and nothing else is. *)
Theorem set_then_get_db_eeprom dboards idx db data safe r :
  list_getitem dboards idx = Some db →
  set_db_eeprom dboards idx data = (Some safe, r) →
  ∃ stored,
    get_db_eeprom [with_user_eeprom_data safe db] 0 = Returns stored
    ∧ (∀ k v, device_info db !! k = Some v → stored !! k = Some v)
    ∧ (∀ k v, safe !! k = Some v → stored !! k = Some v)
    ∧ (∀ k, is_Some (stored !! k) ↔ is_Some (device_info db !! k) ∨ k ∈ data.*1).
Proof.
  intros Hdb. unfold set_db_eeprom. rewrite Hdb.
  destruct (set_user_eeprom_data db) as [setter|]; [|done].
  destruct (safe_user_data _ data ∅) as [safe'|e] eqn:Hsafe; [|done].
  intros [= -> _].
  destruct (safe_user_data_returns _ _ _ _ Hsafe) as (Hall & Hdom & _).
  assert (∀ k, is_Some (safe !! k) ↔ k ∈ data.*1) as Hkeys.
  { intros k. rewrite Hdom, lookup_empty. split; [|by right].
    intros [[? [=]]|]; done. }
  unfold get_db_eeprom. simpl. rewrite map_fold_add_user_blob.
  eexists. split; [done|]. split_and!.
  - intros k v Hk. by apply lookup_union_Some_l.
  - intros k v Hk. rewrite lookup_union_r; [done|].
    assert (k ∈ data.*1) as Hin by (apply Hkeys; by eexists).
    apply list_elem_of_fmap in Hin as (item & -> & Hin).
    rewrite Forall_forall in Hall. by destruct (Hall item Hin).
  - intros k. rewrite <- Hkeys. rewrite lookup_union_is_Some. done.
Qed.

(** * Device info *)


Lemma product_map_lookup p key product :
  product_map p !! key = Some product →
  (key.1 = "n300" ∧ product = "n300" ∧ (key.2 = [] ∨ key.2 = [MG_PID p]))
  ∨ (key.1 = "n310" ∧ product ∈ ["n310"; "eiscat"; "n320"]
     ∧ (length key.2 ≤ 2)%nat).
Proof.
  unfold product_map. intros H.
  repeat (apply lookup_insert_Some in H as [[<- <-]|[_ H]];
          [simpl; first [ left; split_and!; [done|done|tauto]
                        | right; split_and!;
                          [done|rewrite !elem_of_cons; tauto|simpl; lia] ]|]).
  by rewrite lookup_empty in H.
Qed.

Lemma product_map_n300 p dbs :
  product_map p !! ("n300", dbs) = Some "n300" ↔ dbs = [] ∨ dbs = [MG_PID p].
Proof.
  split.
  - intros [(_ & _ & H)|(H & _)]%product_map_lookup; [done|done].
  - unfold product_map. intros [->| ->].
    + rewrite !lookup_insert_ne by done. by rewrite lookup_insert_eq.
    + rewrite !lookup_insert_ne by done. by rewrite lookup_insert_eq.
Qed.

Lemma product_map_values p product :
  product ∈ (map_to_list (product_map p)).*2 ↔ ∃ key, product_map p !! key = Some product.
Proof.
  rewrite list_elem_of_fmap. split.
  - intros ([k v] & -> & H%elem_of_map_to_list). by exists k.
  - intros [k H]. exists (k, product). split; [done|]. by apply elem_of_map_to_list.
Qed.

(** X19.  [generate_device_info] always sets 'product', so that
    [list_required_dt_overlays] answers one overlay, to one of 'n300',
    'n310', 'eiscat', 'n320' and 'unknown'.  The product is 'n300' exactly
    for the motherboard PID 0x4240 with no daughterboard or one Magnesium;
    an unknown motherboard PID, or more than two daughterboards, gives
    'unknown'.  The other entries are those of the base class. *)
Theorem generate_device_info_product p base_info mb_pid dboard_infos db_pids :
  dboard_info_pids dboard_infos = Ok db_pids →
  ∃ info product,
    generate_device_info p base_info mb_pid dboard_infos = Ok info
    ∧ info !! "product" = Some product
    ∧ list_required_dt_overlays info = Ok [product]
    ∧ product ∈ ["n300"; "n310"; "eiscat"; "n320"; "unknown"]
    ∧ (product = "n300" ↔ mb_pid = Some 16960 ∧ (db_pids = [] ∨ db_pids = [MG_PID p]))
    ∧ (mb_pid ∉ [Some 16960; Some 16962] → product = "unknown")
    ∧ ((2 < length db_pids)%nat → product = "unknown")
    ∧ (∀ k, k ≠ "product" → info !! k = base_info !! k).
Proof.
  intros Hpids. unfold generate_device_info. rewrite Hpids. cbv zeta.
  set (mb := default "unknown" (mb_pid ≫= (pids !!.))).
  assert (mb = "n300" ∧ mb_pid = Some 16960
          ∨ mb = "n310" ∧ mb_pid = Some 16962
          ∨ mb = "unknown" ∧ mb_pid ∉ [Some 16960; Some 16962]) as Hmb.
  { unfold mb, pids. destruct mb_pid as [pid|]; simpl.
    - destruct (decide (pid = 16962)) as [->|H1]; [right; left; done|].
      destruct (decide (pid = 16960)) as [->|H2]; [left; done|].
      right; right. rewrite lookup_insert_ne by done.
      rewrite lookup_singleton_ne by done. split; [done|].
      rewrite !elem_of_cons, elem_of_nil. intros [[=]|[[=]|[]]]; done.
    - right; right. split; [done|].
      rewrite !elem_of_cons, elem_of_nil. intros [[=]|[[=]|[]]]. }
  set (product := default "unknown" (product_map p !! (mb, db_pids))).
  exists (<["product" := product]> base_info), product.
  split; [done|]. split; [by rewrite lookup_insert_eq|].
  split; [unfold list_required_dt_overlays; by rewrite lookup_insert_eq|].
  assert (product = "unknown" ∧ product_map p !! (mb, db_pids) ≠ Some "n300"
          ∨ product_map p !! (mb, db_pids) = Some product) as Hprod.
  { unfold product. destruct (product_map p !! _) as [v|] eqn:E; [by right|by left]. }
  split_and!.
  - destruct Hprod as [[-> _]|H%product_map_lookup].
    + rewrite !elem_of_cons; tauto.
    + destruct H as [(_ & -> & _)|(_ & H & _)]; [rewrite !elem_of_cons; tauto|].
      revert H. rewrite !elem_of_cons. tauto.
  - split.
    + intros Hp. destruct Hprod as [[E _]|H]; [by rewrite Hp in E|].
      rewrite Hp in H. pose proof H as H'.
      apply product_map_lookup in H as [(Hm & _ & Hd)|(_ & Hin & _)].
      * simpl in *. destruct Hmb as [[_ ?]|[[E _]|[E _]]]; [done|congruence..].
      * revert Hin. rewrite !elem_of_cons, elem_of_nil. intros [|[|[|]]]; done.
    + intros [-> Hd]. destruct Hmb as [[Em _]|[[_ [=]]|[_ Hn]]].
      * unfold product. rewrite Em. by apply product_map_n300 in Hd as ->.
      * destruct Hn. apply list_elem_of_here.
  - intros Hn. destruct Hmb as [[_ ->]|[[_ ->]|[Em _]]].
    + destruct Hn. apply list_elem_of_here.
    + destruct Hn. apply list_elem_of_further, list_elem_of_here.
    + destruct Hprod as [[-> _]|H%product_map_lookup]; [done|].
      simpl in H. rewrite Em in H. by destruct H as [[[=] _]|[[=] _]].
  - intros Hlen. destruct Hprod as [[-> _]|H%product_map_lookup]; [done|].
    simpl in H. destruct H as [(_ & _ & [->| ->])|(_ & _ & H)]; simpl in *; lia.
  - intros k Hk. by rewrite lookup_insert_ne.
Qed.

(** X20.  The sanity check that opens [_init_peripherals] passes on the
    dictionary of [generate_device_info] exactly when the product is not
    'unknown', that is when the motherboard and daughterboard PIDs form a
    key of [product_map]. *)
Theorem product_determined_iff p base_info mb_pid dboard_infos info :
  generate_device_info p base_info mb_pid dboard_infos = Ok info →
  (product_determined p info = true ↔ info !! "product" ≠ Some "unknown")
  ∧ (product_determined p info = true ↔
     ∃ db_pids, dboard_info_pids dboard_infos = Ok db_pids
       ∧ is_Some (product_map p !! (default "unknown" (mb_pid ≫= (pids !!.)), db_pids))).
Proof.
  unfold generate_device_info.
  destruct (dboard_info_pids dboard_infos) as [db_pids|] eqn:Hpids; [|done].
  cbv zeta. set (key := (_, db_pids)). intros [= <-].
  unfold product_determined. rewrite lookup_insert_eq.
  rewrite bool_decide_eq_true, product_map_values.
  assert ((∃ key0, product_map p !! key0 = Some (default "unknown" (product_map p !! key)))
          ↔ is_Some (product_map p !! key)) as Hiff.
  { split.
    - intros [key0 H0]. destruct (product_map p !! key) as [v|] eqn:E; [by eexists|].
      simpl in H0. apply product_map_lookup in H0 as [(_ & [=] & _)|(_ & H & _)].
      revert H. rewrite !elem_of_cons, elem_of_nil. intros [|[|[|]]]; done.
    - intros [v Hv]. exists key. by rewrite Hv. }
  rewrite Hiff. split.
  - split.
    + intros [v Hv]. rewrite Hv. simpl. intros [= ->].
      apply product_map_lookup in Hv as [(_ & [=] & _)|(_ & H & _)].
      revert H. rewrite !elem_of_cons, elem_of_nil. intros [|[|[|]]]; done.
    + intros H. destruct (product_map p !! key) as [v|]; [by eexists|done].
  - split.
    + intros H. by exists db_pids.
    + intros (? & [= <-] & H). done.
Qed.
Lemma example_ref_locks_return :
  Forall (λ c : option (result bool), ∀ e, c ≠ Some (Raise e)) example_ref_locks.
Proof. repeat constructor; by intros e. Qed.

Lemma get_ref_lock_sensor_value_witness :
  ∃ sensor,
    snd (get_ref_lock_sensor example_ref_locks) = Ok sensor
    ∧ sensor !! "value" = Some "false"
    ∧ sensor !! "unit" = Some "unlocked".
Proof.
  destruct (get_ref_lock_sensor_value example_ref_locks example_ref_locks_return)
    as (sensor & Hrun & Hval & Hvals & Hunit & Hunits).
  assert (sensor !! "value" ≠ Some "true") as Hne.
  { intros H. by pose proof (proj1 Hval H 2%nat false eq_refl). }
  exists sensor. split; [exact Hrun|]. split.
  - by destruct Hvals.
  - destruct Hunits as [H|H]; [|exact H]. by apply Hunit in H.
Defined.

Lemma monitor_pass_leds_witness :
  ∃ gps ref,
    monitor_pass 1 example_ref_locks = ([("LED_GPS", gps); ("LED_REF", ref)], Ok tt)
    ∧ gps = 1 ∧ ref = 0.
Proof.
  destruct (monitor_pass_leds 1 example_ref_locks example_ref_locks_return)
    as (gps & ref & Hrun & Hgps & _ & Href & Hcases & _).
  exists gps, ref. split; [exact Hrun|]. split.
  - apply Hgps. lia.
  - destruct Hcases as [H|H]; [exact H|].
    by pose proof (proj1 Href H 2%nat false eq_refl).
Defined.

Lemma get_db_eeprom_merge_witness :
  ∃ data,
    get_db_eeprom [example_eeprom_db] (-1) = Returns data
    ∧ data = device_info example_eeprom_db ∪ {[ "cal" := BBytes [1%N; 2%N] ]}
    ∧ (∀ k v, device_info example_eeprom_db !! k = Some v → data !! k = Some v)
    ∧ (∀ k, device_info example_eeprom_db !! k = None →
            data !! k = ({[ "cal" := BBytes [1%N; 2%N] ]} : gmap string blob) !! k).
Proof.
  apply (get_db_eeprom_merge [example_eeprom_db] (-1) example_eeprom_db);
    reflexivity.
Defined.

Lemma example_eeprom_data_writable :
  Forall (writable_item (device_info example_eeprom_db)) example_eeprom_data.
Proof.
  repeat constructor. eexists. split; [done|]. repeat constructor.
Qed.

Lemma set_db_eeprom_validates_first_witness :
  ∃ safe,
    set_db_eeprom [example_eeprom_db] 0 example_eeprom_data
    = (Some safe, Returns tt)
    ∧ safe !! "note" = Some (BBytes [104%N; 105%N]).
Proof.
  destruct (set_db_eeprom_validates_first [example_eeprom_db] 0 example_eeprom_db
              (λ _, Returns tt) example_eeprom_data eq_refl eq_refl)
    as [H _].
  destruct (H example_eeprom_data_writable) as (safe & Hrun & _ & _ & Hval).
  exists safe. split; [exact Hrun|]. apply Hval.
  - repeat constructor. by intros ?%elem_of_nil.
  - apply list_elem_of_here.
Defined.

Lemma set_then_get_db_eeprom_witness :
  ∃ stored,
    get_db_eeprom
      [with_user_eeprom_data {[ "note" := BBytes [104%N; 105%N] ]} example_eeprom_db] 0
    = Returns stored
    ∧ stored !! "note" = Some (BBytes [104%N; 105%N])
    ∧ stored !! "serial" = Some (BStr [51%N; 49%N]).
Proof.
  destruct (set_then_get_db_eeprom [example_eeprom_db] 0 example_eeprom_db
              example_eeprom_data {[ "note" := BBytes [104%N; 105%N] ]}
              (Returns tt) eq_refl)
    as (stored & Hrun & Hinfo & Hsafe & _); [by vm_compute|].
  exists stored. split; [exact Hrun|]. split.
  - apply Hsafe. by vm_compute.
  - apply Hinfo. by vm_compute.
Defined.

Lemma generate_device_info_product_witness :
  ∃ info product,
    generate_device_info example_pids ∅ (Some 16960) [Some 336] = Ok info
    ∧ list_required_dt_overlays info = Ok [product]
    ∧ product = "n300".
Proof.
  destruct (generate_device_info_product example_pids ∅ (Some 16960) [Some 336]
              [336] eq_refl)
    as (info & product & Hrun & _ & Hdt & _ & Hn300 & _).
  exists info, product. split; [exact Hrun|]. split; [exact Hdt|].
  apply Hn300. split; [done|]. by right.
Defined.

Lemma product_determined_iff_witness :
  product_determined example_pids (<["product" := "n300"]> ∅) = true.
Proof.
  destruct (product_determined_iff example_pids ∅ (Some 16960) [Some 336]
              (<["product" := "n300"]> ∅)) as [H _]; [by vm_compute|].
  apply H. by vm_compute.
Defined.

(** * E320 motherboard registers *)

Section e320_registers.
Import e320_periphs.
Local Open Scope Z_scope.

Lemma testbit_const_32 (c i : Z) :
  0 ≤ c < 2 ^ 32 → 32 ≤ i → Z.testbit c i = false.
Proof.
  intros Hc Hi. destruct (decide (c = 0)) as [->|Hne]; [apply Z.bits_0|].
  apply Z.bits_above_log2; [lia|].
  assert (Z.log2 c < 32); [|lia]. apply Z.log2_lt_pow2; lia.
Qed.

(** The bits of a 32-bit constant, by evaluation. *)
Lemma testbit_const (c : Z) (f : Z → bool) (i : Z) :
  0 ≤ c < 2 ^ 32 → 0 ≤ i →
  (∀ j, j ∈ Z.of_nat <$> seq 0 32 → Z.testbit c j = f j) →
  Z.testbit c i = if decide (i < 32) then f i else false.
Proof.
  intros Hc Hi Hf. case_decide as Hlt; [|apply testbit_const_32; lia].
  apply Hf. apply list_elem_of_fmap. exists (Z.to_nat i). split; [lia|].
  apply elem_of_seq. lia.
Qed.

Lemma bits_0xFFFFFF90 i :
  0 ≤ i →
  Z.testbit 0xFFFFFF90 i
  = if decide (i < 32) then bool_decide (i ∉ time_source_cleared_bits) else false.
Proof.
  intros Hi.
  rewrite (testbit_const _ (λ j, bool_decide (j ∉ time_source_cleared_bits)));
    [done|lia|done|].
  intros j Hj. revert j Hj. apply Forall_forall. compute_done.
Qed.

Lemma rbind_run {A B} (m : RM A) (k : A → RM B) u :
  (m ≫= k) u =
  match m u with
  | (Ok a, u') => k a u'
  | (Raise e, u') => (Raise e, u')
  end.
Proof. reflexivity. Qed.

Lemma rbind_peek32 {B} addr (k : Z → RM B) u :
  (peek32 addr ≫= k) u =
  k (mem u addr)
    {| mem := mem u; accesses := accesses u ++ [Peek32 addr (mem u addr)] |}.
Proof. reflexivity. Qed.

Lemma rbind_poke32 {B} addr v (k : unit → RM B) u :
  (poke32 addr v ≫= k) u =
  k tt {| mem := λ a, if decide (a = addr) then v else mem u a;
          accesses := accesses u ++ [Poke32 addr v] |}.
Proof. reflexivity. Qed.

Lemma land_0xff_range v : 0 ≤ Z.land v 0xff < 256.
Proof.
  change 0xff with (Z.ones 8). rewrite Z.land_ones by lia.
  apply Z.mod_pos_bound. lia.
Qed.

(** X21.  [get_compat_number] reads MB_COMPAT_NUM once and writes nothing.
    Both numbers are below 256: the minor is the bits 0 to 7 and the major
    the bits 16 to 23 of the register, so a register that holds
    major * 65536 + minor gives back that pair. *)
Theorem e320_get_compat_number_fields u :
  ∃ major minor u',
    get_compat_number u = (Ok (major, minor), u')
    ∧ mem u' = mem u
    ∧ accesses u' = accesses u ++ [Peek32 MB_COMPAT_NUM (mem u MB_COMPAT_NUM)]
    ∧ 0 ≤ major < 256 ∧ 0 ≤ minor < 256
    ∧ (∀ i, 0 ≤ i < 8 →
         Z.testbit minor i = Z.testbit (mem u MB_COMPAT_NUM) i
         ∧ Z.testbit major i = Z.testbit (mem u MB_COMPAT_NUM) (16 + i))
    ∧ (∀ maj min, 0 ≤ maj < 256 → 0 ≤ min < 256 →
         mem u MB_COMPAT_NUM = maj * 65536 + min → major = maj ∧ minor = min).
Proof.
  unfold get_compat_number. rewrite rbind_peek32. cbv zeta.
  set (v := mem u MB_COMPAT_NUM).
  eexists _, _, _. split; [done|]. simpl.
  split; [done|]. split; [done|].
  split; [apply land_0xff_range|]. split; [apply land_0xff_range|]. split.
  - intros i Hi. change 0xff with (Z.ones 8).
    rewrite !Z.land_spec, Z.shiftr_spec, !Z.ones_spec_low by lia.
    rewrite !andb_true_r. split; [done|]. f_equal. lia.
  - intros maj min Hmaj Hmin ->. change 0xff with (Z.ones 8).
    rewrite !Z.land_ones, Z.shiftr_div_pow2 by lia.
    change (2 ^ 16) with 65536. change (2 ^ 8) with 256.
    split.
    + rewrite Z.div_add_l by lia. rewrite (Z.div_small min) by lia.
      rewrite Z.add_0_r. apply Z.mod_small. lia.
    + replace (maj * 65536 + min) with (min + (maj * 256) * 256) by lia.
      rewrite Z.mod_add by lia. apply Z.mod_small. lia.
Qed.

Lemma bits_clear_one (n i : Z) :
  0 ≤ n < 32 → 0 ≤ i →
  Z.testbit (Z.lxor 0xFFFFFFFF (Z.shiftl 1 n)) i
  = if decide (i < 32) then bool_decide (i ≠ n) else false.
Proof.
  intros Hn Hi. rewrite Z.lxor_spec. change 0xFFFFFFFF with (Z.ones 32).
  rewrite Z.shiftl_1_l, Z.pow2_bits_eqb by lia.
  case_decide as Hlt.
  - rewrite Z.ones_spec_low by lia.
    destruct (Z.eqb_spec n i) as [->|Hne].
    + by rewrite bool_decide_eq_false_2 by (by intros []).
    + by rewrite bool_decide_eq_true_2 by done.
  - rewrite Z.ones_spec_high by lia.
    destruct (Z.eqb_spec n i) as [->|Hne]; [lia|done].
Qed.

Lemma testbit_shiftl_b2z (b : bool) (n i : Z) :
  0 ≤ n → 0 ≤ i →
  Z.testbit (Z.shiftl (Z.b2z b) n) i = b && bool_decide (i = n).
Proof.
  intros Hn Hi. destruct b; simpl.
  - rewrite Z.shiftl_1_l, Z.pow2_bits_eqb by lia.
    destruct (Z.eqb_spec n i) as [->|Hne].
    + by rewrite bool_decide_eq_true_2.
    + by rewrite bool_decide_eq_false_2.
  - by rewrite Z.shiftl_0_l, Z.bits_0.
Qed.

Lemma one_bit_update_intro addr n b u :
  0 ≤ n < 32 →
  one_bit_update addr n b u
    {| mem := λ a, if decide (a = addr)
                   then Z.lor (Z.land (mem u addr)
                                 (Z.lxor 0xFFFFFFFF (Z.shiftl 1 n)))
                              (Z.shiftl (Z.b2z b) n)
                   else mem u a;
       accesses := (accesses u ++ [Peek32 addr (mem u addr)])
                   ++ [Poke32 addr
                         (Z.lor (Z.land (mem u addr)
                                   (Z.lxor 0xFFFFFFFF (Z.shiftl 1 n)))
                                (Z.shiftl (Z.b2z b) n))] |}.
Proof.
  intros Hn. eexists. simpl. split; [by rewrite <- app_assoc|].
  split; [by rewrite decide_True|]. split.
  - intros a Ha. by rewrite decide_False.
  - intros i Hi.
    rewrite Z.lor_spec, Z.land_spec, bits_clear_one, testbit_shiftl_b2z by lia.
    destruct (decide (i = n)) as [->|Hne].
    + rewrite decide_True by lia.
      rewrite bool_decide_eq_false_2 by (by intros []).
      rewrite bool_decide_eq_true_2 by done.
      by rewrite andb_false_r, andb_true_r.
    + rewrite (bool_decide_eq_false_2 (i = n)) by done. rewrite andb_false_r, orb_false_r.
      case_decide; [|by rewrite andb_false_r].
      rewrite bool_decide_eq_true_2 by done. by rewrite andb_true_r.
Qed.

(** X22.  [enable_gps] reads MB_GPS_CTRL and writes it back once with the
    power bit set to the argument; every other bit of the register and
    every other register is as it was. *)
Theorem e320_enable_gps_power_bit enable u :
  ∃ u', enable_gps enable u = (Ok tt, u')
        ∧ one_bit_update MB_GPS_CTRL MB_GPS_CTRL_PWR_EN enable u u'.
Proof.
  unfold enable_gps. cbv zeta. rewrite rbind_peek32.
  eexists. split; [done|].
  by apply (one_bit_update_intro MB_GPS_CTRL MB_GPS_CTRL_PWR_EN enable u).
Qed.

(** [set_clock_source('external')], run. *)
Lemma set_clock_source_external freq u :
  set_clock_source (PStr "external") (Some freq) u =
  (Ok tt,
   {| mem := λ a, if decide (a = MB_CLOCK_CTRL)
                  then Z.lor (Z.land (mem u MB_CLOCK_CTRL)
                                (Z.lxor 0xFFFFFFFF (Z.shiftl 1 MB_CLOCK_CTRL_REF_SEL)))
                             (Z.shiftl (Z.b2z true) MB_CLOCK_CTRL_REF_SEL)
                  else mem u a;
      accesses := (accesses u ++ [Peek32 MB_CLOCK_CTRL (mem u MB_CLOCK_CTRL)])
                  ++ [Poke32 MB_CLOCK_CTRL
                        (Z.lor (Z.land (mem u MB_CLOCK_CTRL)
                                  (Z.lxor 0xFFFFFFFF (Z.shiftl 1 MB_CLOCK_CTRL_REF_SEL)))
                               (Z.shiftl (Z.b2z true) MB_CLOCK_CTRL_REF_SEL))] |}).
Proof. reflexivity. Qed.

(** X23.  [set_clock_source] with an accepted source and a frequency
    reads MB_CLOCK_CTRL and writes it back once, with the reference select
    bit set for 'external' and cleared for 'internal' and 'gpsdo'; no
    other bit and no other register changes.  Without a frequency it
    raises TypeError before it reads. *)
Theorem e320_set_clock_source_ref_sel clock_source f u :
  clock_source ∈ accepted_sources →
  (is_Some f →
   ∃ u', set_clock_source clock_source f u = (Ok tt, u')
         ∧ one_bit_update MB_CLOCK_CTRL MB_CLOCK_CTRL_REF_SEL
             (bool_decide (clock_source = PStr "external")) u u')
  ∧ (f = None → set_clock_source clock_source f u = (Raise TypeError, u)).
Proof.
  unfold accepted_sources. intros Hcs. unfold set_clock_source.
  assert (∀ b : bool,
            (if b then 1 else 0) = Z.b2z b) as Hb by (by intros []).
  split.
  - intros [freq ->]. rewrite rbind_run.
    revert Hcs. rewrite !elem_of_cons, elem_of_nil. intros [->|[->|[->|[]]]].
    + rewrite decide_True by (by left). simpl. cbv zeta. unfold poke32.
      eexists. split; [done|].
      by apply (one_bit_update_intro MB_CLOCK_CTRL MB_CLOCK_CTRL_REF_SEL false u).
    + rewrite decide_True by (by right). simpl. cbv zeta. unfold poke32.
      eexists. split; [done|].
      by apply (one_bit_update_intro MB_CLOCK_CTRL MB_CLOCK_CTRL_REF_SEL false u).
    + rewrite decide_False by (by intros [|]). rewrite decide_True by done.
      simpl. cbv zeta. unfold poke32.
      eexists. split; [done|].
      by apply (one_bit_update_intro MB_CLOCK_CTRL MB_CLOCK_CTRL_REF_SEL true u).
  - intros ->. rewrite rbind_run.
    revert Hcs. rewrite !elem_of_cons, elem_of_nil. intros [->|[->|[->|[]]]].
    + by rewrite decide_True by (by left).
    + by rewrite decide_True by (by right).
    + rewrite decide_False by (by intros [|]). by rewrite decide_True by done.
Qed.

(** What [set_time_source] writes, from the value it read. *)
Lemma set_time_source_run time_source f u :
  time_source ∈ accepted_sources →
  time_source = PStr "external" ∨ is_Some f →
  let rb := mem u MB_CLOCK_CTRL in
  let cleared := Z.land rb 0xFFFFFF90 in
  let final := Z.lor cleared (Z.land (Z.shiftl 1 (pps_sel_bit time_source)) 0x6F) in
  set_time_source time_source f u =
  (Ok tt,
   {| mem := λ a, if decide (a = MB_CLOCK_CTRL) then final
                  else if decide (a = MB_CLOCK_CTRL) then cleared else mem u a;
      accesses := ((accesses u ++ [Peek32 MB_CLOCK_CTRL rb])
                   ++ [Poke32 MB_CLOCK_CTRL cleared])
                  ++ [Poke32 MB_CLOCK_CTRL final] |}).
Proof.
  unfold accepted_sources.
  intros Hts Hf. unfold set_time_source, pps_sel_bit. rewrite rbind_run.
  revert Hts Hf. rewrite !elem_of_cons, elem_of_nil.
  intros [->|[->|[->|[]]]] [[=]|[freq ->]];
    try (rewrite decide_True by (by (left + right)); done);
    try (rewrite decide_False by (by intros [|]); by rewrite !decide_True by done).
Qed.

Lemma bits_pps_sel time_source i :
  0 ≤ i →
  Z.testbit (Z.land (Z.shiftl 1 (pps_sel_bit time_source)) 0x6F) i
  = bool_decide (i = pps_sel_bit time_source).
Proof.
  intros Hi. unfold pps_sel_bit. case_decide.
  - change (Z.land _ _) with 2. change MB_CLOCK_CTRL_PPS_SEL_EXT with 1.
    change 2 with (2 ^ 1). rewrite Z.pow2_bits_eqb by lia.
    destruct (Z.eqb_spec 1 i) as [<-|Hne]; [done|].
    by rewrite bool_decide_eq_false_2.
  - change (Z.land _ _) with 1. change MB_CLOCK_CTRL_PPS_SEL_INT with 0.
    change 1 with (2 ^ 0). rewrite Z.pow2_bits_eqb by lia.
    destruct (Z.eqb_spec 0 i) as [<-|Hne]; [done|].
    by rewrite bool_decide_eq_false_2.
Qed.

(** X24.  [set_time_source] with an accepted source reads MB_CLOCK_CTRL
    once and writes it twice: first with the bits 0 to 3, 5 and 6 cleared
    (both PPS selects, the reference select and the lock bit among them),
    then with the one PPS select bit of the source set as well.  So the
    two PPS select bits are never set together, and the bits 4 and 7 to
    31 are as read. *)
Theorem e320_set_time_source_writes time_source f u :
  time_source ∈ accepted_sources →
  time_source = PStr "external" ∨ is_Some f →
  ∃ cleared final u',
    set_time_source time_source f u = (Ok tt, u')
    ∧ accesses u' =
        accesses u ++ [Peek32 MB_CLOCK_CTRL (mem u MB_CLOCK_CTRL);
                       Poke32 MB_CLOCK_CTRL cleared; Poke32 MB_CLOCK_CTRL final]
    ∧ mem u' MB_CLOCK_CTRL = final
    ∧ (∀ a, a ≠ MB_CLOCK_CTRL → mem u' a = mem u a)
    ∧ ∀ i, 0 ≤ i →
        Z.testbit cleared i =
          (if decide (i ∈ time_source_cleared_bits) then false
           else if decide (i < 32) then Z.testbit (mem u MB_CLOCK_CTRL) i
           else false)
        ∧ Z.testbit final i =
            (if decide (i = pps_sel_bit time_source) then true
             else Z.testbit cleared i).
Proof.
  intros Hts Hf. rewrite (set_time_source_run _ _ _ Hts Hf). cbv zeta.
  eexists _, _, _. split; [done|]. simpl.
  split; [by rewrite <- !app_assoc|]. split; [done|]. split.
  { intros a Ha. by rewrite !decide_False. }
  intros i Hi.
  assert (Z.testbit (Z.land (mem u MB_CLOCK_CTRL) 0xFFFFFF90) i =
          (if decide (i ∈ time_source_cleared_bits) then false
           else if decide (i < 32) then Z.testbit (mem u MB_CLOCK_CTRL) i
           else false)) as Hc.
  { rewrite Z.land_spec, bits_0xFFFFFF90 by done.
    destruct (decide (i ∈ time_source_cleared_bits)) as [Hin|Hout].
    - case_decide; [|by rewrite andb_false_r].
      rewrite bool_decide_eq_false_2 by (by intros []). by rewrite andb_false_r.
    - case_decide; [|by rewrite andb_false_r].
      rewrite bool_decide_eq_true_2 by done. by rewrite andb_true_r. }
  split; [done|].
  rewrite Z.lor_spec, bits_pps_sel by done.
  destruct (decide (i = pps_sel_bit time_source)) as [Hi'|Hi'].
  - rewrite (bool_decide_eq_true_2 _ Hi'). by rewrite orb_true_r.
  - rewrite (bool_decide_eq_false_2 _ Hi'). by rewrite orb_false_r.
Qed.

(** X25.  The two setters check their argument before they touch the
    registers: a source other than 'internal', 'gpsdo' and 'external'
    raises AssertionError, and a reference frequency of None raises
    TypeError where it is formatted, in both cases with no register read
    or written. *)
Theorem e320_set_source_invalid v f u :
  (v ∉ accepted_sources →
   set_time_source v f u = (Raise AssertionError, u)
   ∧ set_clock_source v f u = (Raise AssertionError, u))
  ∧ (v ∈ [PStr "internal"; PStr "gpsdo"] → f = None →
     set_time_source v f u = (Raise TypeError, u)).
Proof.
  unfold accepted_sources, set_time_source, set_clock_source. rewrite !rbind_run.
  rewrite !elem_of_cons, elem_of_nil. split.
  - intros Hv. rewrite !decide_False by tauto. done.
  - intros Hv ->. rewrite decide_True by tauto. done.
Qed.

(** X26.  The two setters do not commute on a register that holds what
    was last written to it: [set_time_source] after
    [set_clock_source('external')] leaves the reference select bit
    cleared, while [set_clock_source('external')] after
    [set_time_source] leaves it set, with the PPS select bit of the time
    source. *)
Theorem e320_time_source_resets_ref_sel time_source f f' u :
  time_source ∈ accepted_sources →
  is_Some f → is_Some f' →
  ∃ u1 u2,
    (set_clock_source (PStr "external") f ;; set_time_source time_source f') u
      = (Ok tt, u1)
    ∧ Z.testbit (mem u1 MB_CLOCK_CTRL) MB_CLOCK_CTRL_REF_SEL = false
    ∧ (set_time_source time_source f' ;; set_clock_source (PStr "external") f) u
      = (Ok tt, u2)
    ∧ Z.testbit (mem u2 MB_CLOCK_CTRL) MB_CLOCK_CTRL_REF_SEL = true
    ∧ Z.testbit (mem u2 MB_CLOCK_CTRL) (pps_sel_bit time_source) = true.
Proof.
  intros Hts [freq ->] [freq' ->].
  assert (pps_sel_bit time_source = 0 ∨ pps_sel_bit time_source = 1) as Hsel.
  { unfold pps_sel_bit. case_decide; [by right|by left]. }
  assert (∀ rb, Z.testbit (Z.lor (Z.land rb 0xFFFFFF90)
                   (Z.land (Z.shiftl 1 (pps_sel_bit time_source)) 0x6F)) 2 = false)
    as Hbit2.
  { intros rb. rewrite Z.lor_spec, Z.land_spec, bits_0xFFFFFF90, bits_pps_sel by lia.
    rewrite decide_True by lia.
    rewrite (bool_decide_eq_false_2 (2 = _)) by lia.
    by rewrite andb_false_r. }
  assert (∀ rb, Z.testbit (Z.lor (Z.land rb 0xFFFFFF90)
                   (Z.land (Z.shiftl 1 (pps_sel_bit time_source)) 0x6F))
                  (pps_sel_bit time_source) = true) as Hbitsel.
  { intros rb. rewrite Z.lor_spec, bits_pps_sel by lia.
    rewrite bool_decide_eq_true_2 by done. apply orb_true_r. }
  pose proof (λ u0, set_time_source_run time_source (Some freq') u0 Hts
                      (or_intror (ex_intro _ freq' eq_refl))) as Hrun.
  cbv zeta in Hrun.
  eexists _, _. rewrite !rbind_run, set_clock_source_external, !Hrun.
  rewrite set_clock_source_external.
  split; [reflexivity|]. split.
  { cbn [mem]. rewrite decide_True by done. apply Hbit2. }
  split; [reflexivity|].
  match goal with |- context [mem ?u2 MB_CLOCK_CTRL] =>
    match u2 with
    | {| mem := _; accesses := (accesses ?ub ++ _) ++ _ |} =>
        destruct (one_bit_update_intro MB_CLOCK_CTRL MB_CLOCK_CTRL_REF_SEL true ub)
          as (w & _ & Hm & _ & Hb); [unfold MB_CLOCK_CTRL_REF_SEL; lia|]
    end
  end.
  rewrite Hm. split.
  - rewrite Hb by (unfold MB_CLOCK_CTRL_REF_SEL; lia). by rewrite decide_True.
  - rewrite Hb by lia. unfold MB_CLOCK_CTRL_REF_SEL.
    rewrite decide_False by lia. rewrite decide_True by lia.
    cbn [mem]. rewrite decide_True by done. apply Hbitsel.
Qed.

(** X27.  [get_fpga_type] always answers, with '', '1G', 'XG' or 'AA', and
    writes nothing.  Every SFP type of [E320_SFP_TYPES] is a key of
    [E320_FPGA_TYPES_BY_SFP], so the KeyError handler is never entered;
    the answer is '' unless the bits 8 to 15 of MB_SFP_PORT_INFO hold 1, 2
    or 3. *)
Theorem e320_get_fpga_type_total u :
  ∃ fpga_type u',
    get_fpga_type u = (Ok fpga_type, u')
    ∧ mem u' = mem u
    ∧ fpga_type ∈ [""; "1G"; "XG"; "AA"]
    ∧ (∀ sfp_type, sfp_type ∈ (map_to_list E320_SFP_TYPES).*2 →
         is_Some (E320_FPGA_TYPES_BY_SFP !! sfp_type))
    ∧ (fpga_type ≠ "" →
       Z.land (Z.shiftr (mem u MB_SFP_PORT_INFO) 8) 0xff ∈ [1; 2; 3]).
Proof.
  unfold get_fpga_type. rewrite rbind_peek32. cbv zeta.
  set (rb := mem u MB_SFP_PORT_INFO).
  assert (Z.shiftr (Z.land rb 0x0000FF00) 8 = Z.land (Z.shiftr rb 8) 0xff) as ->.
  { by rewrite Z.shiftr_land. }
  set (byte := Z.land (Z.shiftr rb 8) 0xff).
  assert (byte = 0 ∨ byte = 1 ∨ byte = 2 ∨ byte = 3
          ∨ E320_SFP_TYPES !! byte = None) as Hbyte.
  { destruct (decide (byte = 0)); [tauto|]. destruct (decide (byte = 1)); [tauto|].
    destruct (decide (byte = 2)); [tauto|]. destruct (decide (byte = 3)); [tauto|].
    do 4 right. unfold E320_SFP_TYPES.
    rewrite !lookup_insert_ne by done. by rewrite lookup_singleton_ne. }
  assert (∀ sfp_type, sfp_type ∈ (map_to_list E320_SFP_TYPES).*2 →
            is_Some (E320_FPGA_TYPES_BY_SFP !! sfp_type)) as Hkeys.
  { apply Forall_forall. compute_done. }
  destruct Hbyte as [->|[->|[->|[->|Hnone]]]].
  - eexists _, _. split; [done|]. split_and!; try done.
    rewrite !elem_of_cons; tauto.
  - eexists _, _. split; [done|]. split_and!; try done.
    + rewrite !elem_of_cons; tauto.
    + intros _. rewrite !elem_of_cons; tauto.
  - eexists _, _. split; [done|]. split_and!; try done.
    + rewrite !elem_of_cons; tauto.
    + intros _. rewrite !elem_of_cons; tauto.
  - eexists _, _. split; [done|]. split_and!; try done.
    + rewrite !elem_of_cons; tauto.
    + intros _. rewrite !elem_of_cons; tauto.
  - rewrite Hnone. eexists _, _. split; [done|]. split_and!; try done.
    rewrite !elem_of_cons; tauto.
Qed.

Lemma land_high_nibble rb :
  0 ≤ rb < 2 ^ 32 → Z.land rb 0xF0000000 = rb - rb `mod` 2 ^ 28.
Proof.
  intros Hrb.
  assert (Z.land rb 0xF0000000 + Z.land rb 0x0FFFFFFF = rb) as Hsum.
  { rewrite <- Z.add_lor_land, <- Z.land_lor_distr_r.
    assert (Z.land (Z.land rb 0xF0000000) (Z.land rb 0x0FFFFFFF) = 0) as ->.
    { apply Z.bits_inj'. intros n Hn. rewrite !Z.land_spec, Z.bits_0.
      destruct (Z.testbit rb n); [|done]. simpl. rewrite <- Z.land_spec.
      apply Z.bits_0. }
    change (Z.lor 0xF0000000 0x0FFFFFFF) with (Z.ones 32).
    rewrite Z.add_0_r, Z.land_ones by lia.
    apply Z.mod_small. lia. }
  change 0x0FFFFFFF with (Z.ones 28) in Hsum. rewrite Z.land_ones in Hsum by lia.
  lia.
Qed.

(** X28.  [get_git_hash] on a 32-bit register: the hash is the low 28
    bits, and the tree is reported 'clean' exactly when the four high bits
    are zero, that is when the register holds the hash alone. *)
Theorem e320_get_git_hash_fields u :
  u32 (mem u MB_GIT_HASH) →
  ∃ git_hash qualifier u',
    get_git_hash u = (Ok (git_hash, qualifier), u')
    ∧ mem u' = mem u
    ∧ 0 ≤ git_hash < 2 ^ 28
    ∧ git_hash = mem u MB_GIT_HASH `mod` 2 ^ 28
    ∧ (qualifier = "clean" ↔ mem u MB_GIT_HASH = git_hash)
    ∧ (qualifier = "dirty" ↔ 2 ^ 28 ≤ mem u MB_GIT_HASH)
    ∧ (qualifier = "clean" ∨ qualifier = "dirty").
Proof.
  intros Hu. unfold get_git_hash. rewrite rbind_peek32. cbv zeta.
  set (rb := mem u MB_GIT_HASH) in *. unfold u32 in Hu.
  eexists _, _, _. split; [done|]. simpl. split; [done|].
  change 0x0FFFFFFF with (Z.ones 28). rewrite Z.land_ones by lia.
  assert (0 ≤ rb `mod` 2 ^ 28 < 2 ^ 28) as Hmod by (apply Z.mod_pos_bound; lia).
  rewrite (land_high_nibble rb Hu).
  assert (rb < 2 ^ 28 → rb `mod` 2 ^ 28 = rb) as Hsmall.
  { intros. apply Z.mod_small. lia. }
  split; [done|]. split; [done|].
  case_bool_decide as Hd; split_and!; try done; try (by left); try (by right).
  - split; [done|]. intros. lia.
  - split; [intros _|done]. destruct (decide (rb < 2 ^ 28)) as [Hlt|]; [|lia].
    rewrite (Hsmall Hlt) in Hd. lia.
  - split; [intros _|done]. destruct (decide (rb < 2 ^ 28)) as [Hlt|]; [|lia].
    symmetry. by apply Hsmall.
  - split; [done|]. intros Hge. destruct Hd. lia.
Qed.


Lemma e320_set_time_source_writes_witness :
  ∃ cleared final u',
    set_time_source (PStr "external") None (uio_of 4294967295) = (Ok tt, u')
    ∧ mem u' MB_CLOCK_CTRL = final
    ∧ Z.testbit cleared 1 = false
    ∧ Z.testbit final 1 = true
    ∧ Z.testbit final 2 = false
    ∧ Z.testbit final 4 = true.
Proof.
  destruct (e320_set_time_source_writes (PStr "external") None (uio_of 4294967295))
    as (cleared & final & u' & Hrun & _ & Hmem & _ & Hbits).
  - compute_done.
  - by left.
  - exists cleared, final, u'. split; [exact Hrun|]. split; [exact Hmem|].
    destruct (Hbits 1 ltac:(lia)) as [Hc1 Hf1].
    destruct (Hbits 2 ltac:(lia)) as [Hc2 Hf2].
    destruct (Hbits 4 ltac:(lia)) as [Hc4 Hf4].
    split; [by rewrite Hc1|]. split; [by rewrite Hf1|].
    split; [by rewrite Hf2, Hc2|]. by rewrite Hf4, Hc4.
Defined.

Lemma e320_set_clock_source_ref_sel_witness :
  ∃ u', set_clock_source (PStr "external") (Some 10000000) (uio_of 0) = (Ok tt, u')
        ∧ one_bit_update MB_CLOCK_CTRL MB_CLOCK_CTRL_REF_SEL
            (bool_decide (PStr "external" = PStr "external")) (uio_of 0) u'.
Proof.
  destruct (e320_set_clock_source_ref_sel (PStr "external") (Some 10000000) (uio_of 0))
    as [H _]; [compute_done|].
  apply H. by eexists.
Defined.

Lemma e320_time_source_resets_ref_sel_witness :
  ∃ u1 u2,
    (set_clock_source (PStr "external") (Some 10000000) ;;
     set_time_source (PStr "internal") (Some 10000000)) (uio_of 0) = (Ok tt, u1)
    ∧ Z.testbit (mem u1 MB_CLOCK_CTRL) MB_CLOCK_CTRL_REF_SEL = false
    ∧ (set_time_source (PStr "internal") (Some 10000000) ;;
       set_clock_source (PStr "external") (Some 10000000)) (uio_of 0) = (Ok tt, u2)
    ∧ Z.testbit (mem u2 MB_CLOCK_CTRL) MB_CLOCK_CTRL_REF_SEL = true
    ∧ Z.testbit (mem u2 MB_CLOCK_CTRL) (pps_sel_bit (PStr "internal")) = true.
Proof.
  apply (e320_time_source_resets_ref_sel (PStr "internal") (Some 10000000)
           (Some 10000000) (uio_of 0)).
  - compute_done.
  - by eexists.
  - by eexists.
Defined.

Lemma e320_get_git_hash_fields_witness :
  ∃ git_hash qualifier u',
    get_git_hash (uio_of 268435457) = (Ok (git_hash, qualifier), u')
    ∧ git_hash = 1 ∧ qualifier = "dirty".
Proof.
  destruct (e320_get_git_hash_fields (uio_of 268435457))
    as (git_hash & qualifier & u' & Hrun & _ & _ & Hhash & _ & Hdirty & _).
  - unfold u32. simpl. lia.
  - exists git_hash, qualifier, u'. split; [exact Hrun|]. split.
    + rewrite Hhash. reflexivity.
    + apply Hdirty. simpl. lia.
Defined.

End e320_registers.

(** * Band windows of the phase alignment test *)


Lemma window_slide_slices {A} (data : list A) (w i : nat) (rest : list A) :
  (0 < w)%nat →
  drop (i + w) data = rest →
  window_slide (take w (drop i data)) rest
  = (λ j, take w (drop j data)) <$> seq (S i) (length rest).
Proof.
  intros Hw. revert i. induction rest as [|elem rest IH]; intros i Hrest; [done|].
  simpl.
  assert (data !! (i + w)%nat = Some elem) as Helem.
  { rewrite <- (Nat.add_0_r (i + w)), <- lookup_drop, Hrest. done. }
  assert (drop 1 (take w (drop i data)) ++ [elem] = take w (drop (S i) data)) as Hnext.
  { replace (drop (S i) data) with (drop 1 (drop i data)) by (by rewrite drop_drop, Nat.add_1_r).
    rewrite (take_drop_commute (drop i data) w 1). change (1 + w)%nat with (S w).
    rewrite (take_S_r _ _ elem) by (by rewrite lookup_drop).
    rewrite drop_app_le; [done|].
    rewrite length_take, length_drop.
    apply lookup_lt_Some in Helem. lia. }
  rewrite Hnext. f_equal. apply IH.
  replace (S i + w)%nat with (S (i + w)) by lia.
  by rewrite <- Nat.add_1_r, <- drop_drop, Hrest.
Qed.

(** X29.  With a width from 1 to the length of the sequence, [window]
    yields the slices of that width at the offsets 0, 1, ... in order, one
    per offset at which a whole slice fits: length - width + 1 tuples, each
    of the given width.  The sequence is a Python sequence: it has at most
    [sys.maxsize] items. *)
Theorem window_slices {A} (data : list A) (width : nat) :
  (Z.of_nat (length data) ≤ sys_maxsize)%Z →
  (0 < width ≤ length data)%nat →
  window data (Z.of_nat width)
  = Ok ((λ i, take width (drop i data)) <$> seq 0 (length data - width + 1))
  ∧ ∀ i, (i + width ≤ length data)%nat →
         ∃ w, window data (Z.of_nat width) = Ok w
              ∧ w !! i = Some (take width (drop i data))
              ∧ length (take width (drop i data)) = width.
Proof.
  intros Hlen Hw.
  assert (window data (Z.of_nat width)
          = Ok ((λ i, take width (drop i data)) <$> seq 0 (length data - width + 1))) as Hwin.
  { unfold window. rewrite decide_False by lia. rewrite Z.min_l by lia.
    rewrite Nat2Z.id. cbv zeta.
    rewrite decide_True by (rewrite length_take; lia).
    f_equal. replace (length data - width + 1)%nat with (S (length data - width)) by lia.
    simpl. f_equal.
    rewrite <- (drop_0 data) at 1.
    rewrite (window_slide_slices data width 0 (drop width data)) by (done || lia).
    by rewrite length_drop. }
  split; [done|]. intros i Hi. eexists. split; [done|]. split.
  - rewrite list_lookup_fmap, lookup_seq_lt by lia. done.
  - rewrite length_take, length_drop. lia.
Qed.

Lemma window_slide_singletons {A} (result data : list A) :
  (length result ≤ 1)%nat → window_slide result data = (λ x, [x]) <$> data.
Proof.
  revert result. induction data as [|x data IH]; intros result Hlen; [done|].
  simpl. assert (drop 1 result = []) as -> by (apply drop_ge; lia).
  simpl. f_equal. by apply IH.
Qed.

(** X30.  The edges of [window]: a width that is negative or above
    [sys.maxsize] raises ValueError, whatever the sequence; a width above
    the length of the sequence, and not above [sys.maxsize], yields
    nothing; the width 0 yields the empty tuple and then, since the empty
    tuple grows by one element, every element as a 1-tuple. *)
Theorem window_edges {A} (data : list A) (width : Z) :
  ((width < 0 ∨ sys_maxsize < width)%Z → window data width = Raise ValueError)
  ∧ ((Z.of_nat (length data) < width ≤ sys_maxsize)%Z → window data width = Ok [])
  ∧ (width = 0%Z → window data width = Ok ([] :: ((λ x, [x]) <$> data))).
Proof.
  unfold window. split_and!.
  - intros H. by rewrite decide_True.
  - intros H. rewrite decide_False by lia. rewrite Z.min_r by lia.
    rewrite Nat2Z.id. cbv zeta.
    rewrite decide_False by (rewrite length_take; lia).
    rewrite (drop_ge data) by lia. done.
  - intros ->. rewrite decide_False by (unfold sys_maxsize; lia).
    rewrite Z.min_l by lia. simpl. rewrite drop_0. f_equal. f_equal.
    apply window_slide_singletons. simpl. lia.
Qed.

Lemma window_slices_witness :
  window [10; 20; 30] 2 = Ok [[10; 20]; [20; 30]].
Proof.
  destruct (window_slices [10; 20; 30] 2) as [H _];
    [unfold sys_maxsize; simpl; lia|simpl; lia|].
  exact H.
Defined.

(** * The status monitor thread and tear-down *)

Lemma monitor_pass_writes pin dbs :
  (∃ gps ref, monitor_pass pin dbs = ([("LED_GPS", gps); ("LED_REF", ref)], Ok tt))
  ∨ (∃ gps e, monitor_pass pin dbs = ([("LED_GPS", gps)], Raise e)).
Proof.
  unfold monitor_pass. destruct (snd (get_ref_lock_sensor dbs)); eauto.
Qed.

Lemma monitor_loop_exits inp fuel m n :
  (flag_reads m ≤ n)%nat →
  (n - flag_reads m < 3 * fuel)%nat →
  (∀ j, (flag_reads m ≤ j < n)%nat → tear_down_at inp j = false) →
  tear_down_at inp n = true →
  ∃ r m' before after,
    monitor_loop inp fuel m = (Some r, m')
    ∧ monitor_log m' = monitor_log m ++ before ++ after
    ∧ (before = [] ∨ last before = Some (ReadTearDown false))
    ∧ monitor_exit r after
    ∧ (flag_reads m' ≤ S n)%nat
    ∧ (r = Ok tt → flag_reads m' = S n).
Proof.
  revert m. induction fuel as [|fuel IH]; intros m Hle Hfuel Hclear Hset; [lia|].
  cbn [monitor_loop]. unfold read_tear_down at 1. cbv zeta.
  destruct (decide (flag_reads m = n)) as [En|En].
  { rewrite En, Hset. eexists _, _, [], _. split; [done|].
    cbn [monitor_log flag_reads]. split; [done|]. split; [by left|].
    split; [constructor|]. done. }
  rewrite (Hclear (flag_reads m)) by lia.
  set (m1 := {| flag_reads := S (flag_reads m) |}).
  unfold sample.
  destruct (monitor_pass_writes (gps_lockok_at inp (cycles m1))
              (ref_locks_at inp (cycles m1))) as [(gps & ref & ->)|(gps & e & ->)];
    last first.
  { eexists _, _, [ReadTearDown false], _. split; [done|].
    cbn [monitor_log flag_reads m1]. split; [by rewrite <- app_assoc|].
    split; [by right|]. split; [constructor|]. split; [lia|done]. }
  set (m2 := {| cycles := S (cycles m1) |}).
  unfold wait_for, read_tear_down at 1. cbv zeta.
  change (flag_reads m2) with (S (flag_reads m)).
  destruct (decide (S (flag_reads m) = n)) as [En1|En1].
  { rewrite En1, Hset. eexists _, _, [ReadTearDown false], _. split; [done|].
    cbn [monitor_log flag_reads m1 m2 fmap list_fmap uncurry].
    split; [by rewrite <- !app_assoc|].
    split; [by right|]. split; [constructor|]. done. }
  rewrite (Hclear (S (flag_reads m))) by lia.
  unfold read_tear_down at 1, cond_wait. cbn [flag_reads].
  destruct (decide (S (S (flag_reads m)) = n)) as [En2|En2].
  { rewrite En2, Hset.
    eexists _, _, [ReadTearDown false; BpLedSet "LED_GPS" gps;
                   BpLedSet "LED_REF" ref; ReadTearDown false], _.
    split; [done|].
    cbn [monitor_log flag_reads m1 m2 fmap list_fmap uncurry].
    split; [by rewrite <- !app_assoc|].
    split; [by right|]. split; [constructor|]. done. }
  rewrite (Hclear (S (S (flag_reads m)))) by lia.
  set (m3 := {| flag_reads := S (S (S (flag_reads m))) |}).
  destruct (IH m3) as (r & m' & before & after & Hrun & Hlog & Hbefore & Hexit & Hreads);
    [simpl; lia|simpl; lia|intros j Hj; apply Hclear; simpl in Hj; lia|done|].
  exists r, m',
    ([ReadTearDown false; BpLedSet "LED_GPS" gps; BpLedSet "LED_REF" ref;
      ReadTearDown false; CondWait N3XX_MONITOR_THREAD_INTERVAL;
      ReadTearDown false] ++ before), after.
  split; [done|]. split.
  { rewrite Hlog. cbn [monitor_log flag_reads m1 m2 m3 fmap list_fmap uncurry].
    by rewrite <- !app_assoc. }
  split.
  { right. destruct Hbefore as [->|Hlast]; [done|].
    rewrite last_app, Hlast. done. }
  split; [done|]. simpl in Hreads. done.
Qed.

Lemma rm_overlays_with_is_alive alive env overlays :
  rm_overlays (with_is_alive alive env) overlays = rm_overlays env overlays.
Proof.
  induction overlays as [|overlay rest IH]; [done|].
  cbn [rm_overlays]. rewrite IH. done.
Qed.

Lemma rm_overlays_events env overlays :
  Forall (λ e, ∃ overlay, e = RmOverlay overlay) (fst (rm_overlays env overlays)).
Proof.
  induction overlays as [|overlay rest IH]; [constructor|].
  cbn [rm_overlays]. destruct (rm_overlay env overlay).
  - destruct (rm_overlays env rest). constructor; eauto.
  - repeat constructor. eauto.
Qed.

(** C10.  Once the thread reads the tear-down flag as set it leaves the
    loop at that read: with the flag clear at its first [n] reads and set
    at the next, the thread ends within n/3 + 1 passes, having read the
    flag no more than n + 1 times.  After the last read that showed the
    flag clear it has at most begun one more sampling cycle, or waited once
    for the interval, never both, and it read the flag clear no more; if
    it ended without an exception of a daughterboard its last step is the
    read that showed the flag set.  [tear_down] on an initialised device
    sets the flag, joins the thread once, with a timeout of three
    intervals, and asks whether it is alive; if it is, the only difference
    is one logged error: the removal of the overlays and the result of
    [tear_down] are the same.  On a device that is not initialised there
    is no join. *)
Theorem monitor_stops_on_tear_down inp env d :
  (∀ n fuel,
     tear_down_at inp n = true →
     (∀ j, (j < n)%nat → tear_down_at inp j = false) →
     (n < 3 * fuel)%nat →
     ∃ r m before after,
       _monitor_status inp fuel = (Some r, m)
       ∧ (flag_reads m ≤ S n)%nat
       ∧ monitor_log m = before ++ after
       ∧ (before = [] ∨ last before = Some (ReadTearDown false))
       ∧ (ReadTearDown false ∉ after)
       ∧ (sampling_cycles after ≤ 1)%nat
       ∧ (0 ≤ waited after ≤ N3XX_MONITOR_THREAD_INTERVAL)%Z
       ∧ (sampling_cycles after = 0%nat ∨ waited after = 0%Z)
       ∧ (r = Ok tt → last after = Some (ReadTearDown true)))
  ∧ ∃ rest r,
      (_device_initialized d = true →
       ∀ alive,
         tear_down (with_is_alive alive env) d
         = (SetTearDown
              :: ThreadJoin (3 * N3XX_MONITOR_THREAD_INTERVAL)
              :: ThreadIsAlive alive
              :: (if alive then [LogError monitor_thread_error] else []) ++ rest,
            r))
      ∧ (_device_initialized d = false →
         ∀ alive, tear_down (with_is_alive alive env) d = (SetTearDown :: rest, r))
      ∧ Forall (λ e, match e with ThreadJoin _ => False | _ => True end) rest.
Proof.
  split.
  - intros n fuel Hset Hclear Hfuel.
    destruct (monitor_loop_exits inp fuel monitor_start n)
      as (r & m & before & after & Hrun & Hlog & Hbefore & Hexit & Hreads & _);
      [simpl; lia|simpl; lia|intros j Hj; apply Hclear; lia|done|].
    exists r, m, before, after. split; [done|]. split; [done|].
    split; [done|]. split; [done|].
    destruct Hexit;
      (split; [rewrite !elem_of_cons, elem_of_nil; intuition congruence|]);
      (split; [compute_done|]); (split; [compute_done|]);
      (split; [(left; reflexivity) || (right; reflexivity)|]); done.
  - unfold tear_down.
    destruct (rm_overlays env (list_active_overlays env)) as [evs r] eqn:E.
    exists (ListActiveOverlays :: evs), r. split_and!.
    + intros -> alive. cbn [with_is_alive is_alive list_active_overlays].
      rewrite rm_overlays_with_is_alive, E. by destruct alive.
    + intros -> alive. cbn [with_is_alive is_alive list_active_overlays].
      by rewrite rm_overlays_with_is_alive, E.
    + constructor; [done|].
      replace evs with (fst (rm_overlays env (list_active_overlays env)))
        by (by rewrite E).
      eapply Forall_impl; [apply rm_overlays_events|]. by intros ? [? ->].
Qed.

Lemma monitor_stops_on_tear_down_witness :
  (∃ r m before after,
     _monitor_status example_monitor_inputs 2 = (Some r, m)
     ∧ (flag_reads m ≤ 5)%nat
     ∧ monitor_log m = before ++ after
     ∧ (before = [] ∨ last before = Some (ReadTearDown false))
     ∧ (ReadTearDown false ∉ after)
     ∧ (sampling_cycles after ≤ 1)%nat
     ∧ (0 ≤ waited after ≤ N3XX_MONITOR_THREAD_INTERVAL)%Z
     ∧ (sampling_cycles after = 0%nat ∨ waited after = 0%Z)
     ∧ (r = Ok tt → last after = Some (ReadTearDown true)))
  ∧ ∃ rest,
      tear_down example_tear_down_env (attached booted "n310")
      = (SetTearDown :: ThreadJoin 3000 :: ThreadIsAlive true
           :: LogError monitor_thread_error :: rest, Ok tt)
      ∧ tear_down (with_is_alive false example_tear_down_env) (attached booted "n310")
        = (SetTearDown :: ThreadJoin 3000 :: ThreadIsAlive false :: rest, Ok tt).
Proof.
  destruct (monitor_stops_on_tear_down example_monitor_inputs example_tear_down_env
              (attached booted "n310")) as [Hloop (rest & r & Hjoin & _ & _)].
  split.
  - apply (Hloop 4%nat 2%nat); [reflexivity| |lia].
    intros j Hj. apply bool_decide_eq_false_2. lia.
  - exists rest. pose proof (Hjoin eq_refl true) as Ht.
    pose proof (Hjoin eq_refl false) as Hf.
    assert (r = Ok tt) as ->.
    { apply (f_equal snd) in Hf. exact (eq_sym Hf). }
    split; [exact Ht|exact Hf].
Defined.

